(** * biedronka.py: receipt extraction, sync planning and ledger update

    A shallow embedding of [src/biedronka.py].  Python values are modelled
    as follows:
    - [str] is a list of characters; a character is an [ascii], read as the
      code point 0..255 (texts with code points above 255 are outside the
      model);
    - an uncaught Python exception is the [Raise] constructor of [result];
    - [re] patterns are a small syntax tree run by a backtracking matcher
      with the priorities of Python's [re] module (first alternative first,
      greedy repetition longest first);
    - an openpyxl workbook is an ordered list of named sheets, a sheet an
      ordered list of rows, a row a list of cells. *)

From Stdlib Require Import Ascii String DecimalString.
From Stdlib Require Import List Bool Arith NArith ZArith Lia.
From Stdlib Require Import Sorting.Sorted Sorting.Permutation.
Import ListNotations.

Set Implicit Arguments.

(** ** Strings *)

Definition str := list ascii.

(** A literal, written as a Rocq string. *)
Definition L (s : string) : str := list_ascii_of_string s.

Definition code (a : ascii) : N := N_of_ascii a.

Definition in_range (lo hi : N) (a : ascii) : bool :=
  (lo <=? code a)%N && (code a <=? hi)%N.

Fixpoint str_eqb (s t : str) : bool :=
  match s, t with
  | [], [] => true
  | a :: s', b :: t' => Ascii.eqb a b && str_eqb s' t'
  | _, _ => false
  end.

(** [s.startswith(p)], returning the rest of [s] after [p]. *)
Fixpoint strip_prefix (p s : str) : option str :=
  match p with
  | [] => Some s
  | a :: p' =>
      match s with
      | b :: s' => if Ascii.eqb a b then strip_prefix p' s' else None
      | [] => None
      end
  end.

(** [s.replace(old, new)] for a non-empty [old]: every non-overlapping
    occurrence, scanning from the left.  [skip] counts the characters of an
    occurrence that was just replaced and still has to be passed over. *)
Fixpoint replace_from (old new : str) (skip : nat) (s : str) : str :=
  match s with
  | [] => []
  | a :: s' =>
      match skip with
      | S k => replace_from old new k s'
      | O =>
          match strip_prefix old s with
          | Some _ => new ++ replace_from old new (pred (length old)) s'
          | None => a :: replace_from old new 0 s'
          end
      end
  end.

Definition replace (old new s : str) : str := replace_from old new 0 s.

(** [s.split(sep)[0]] and [s.split(sep, 1)] for a one-character [sep]. *)
Fixpoint split_first (sep : ascii) (s : str) : str * option str :=
  match s with
  | [] => ([], None)
  | a :: s' =>
      if Ascii.eqb a sep then ([], Some s')
      else let (h, t) := split_first sep s' in (a :: h, t)
  end.

(** Python's [<] on [str]: lexicographic on code points. *)
Fixpoint str_ltb (s t : str) : bool :=
  match s, t with
  | _, [] => false
  | [], _ :: _ => true
  | a :: s', b :: t' =>
      if (code a <? code b)%N then true
      else if (code b <? code a)%N then false
      else str_ltb s' t'
  end.

(** ** Exceptions *)

Inductive exn : Type :=
| AttributeError
| IndexError
| ValueError
| KeyError
| PermissionError
| IllegalCharacterError.

Inductive result (A : Type) : Type :=
| Ok (a : A)
| Raise (e : exn).

Arguments Ok {A} a.
Arguments Raise {A} e.

Definition bind {A B : Type} (m : result A) (f : A -> result B) : result B :=
  match m with
  | Ok a => f a
  | Raise e => Raise e
  end.

Notation "x <- m ;; k" := (bind m (fun x => k))
  (at level 61, m at next level, right associativity).

(** A [for] loop whose body may raise: the first exception ends it. *)
Fixpoint for_each {A S : Type} (body : S -> A -> result S) (xs : list A)
    (st : S) : result S :=
  match xs with
  | [] => Ok st
  | x :: xs' => st' <- body st x ;; for_each body xs' st'
  end.

(** ** The pattern engine *)

Module Re.

(** Patterns.  Only the constructions that [DATE_PATTERN],
    [RECORD_PATTERN] and [DATE_FORMAT_PATTERN] use: every repetition in
    them is [c+] or [c?] over a single character class, or [(?:r)?]. *)
Inductive t : Type :=
| Eps
| Cls (p : ascii -> bool)
| Lit (l : str)
| Cat (r1 r2 : t)
| Alt (r1 r2 : t)
| Opt (r : t)
| Plus (p : ascii -> bool)
| Grp (n : nat) (r : t).

(** Group bindings, latest first. *)
Definition caps := list (nat * str).

Fixpoint group (c : caps) (n : nat) : option str :=
  match c with
  | [] => None
  | (m, s) :: c' => if Nat.eqb m n then Some s else group c' n
  end.

Section Exec.
Variable A : Type.

(** Greedy [c*]: take the longest run first and give characters back one
    at a time while the continuation fails. *)
Fixpoint many (p : ascii -> bool) (s : str) (k : str -> option A)
    : option A :=
  match s with
  | a :: s' =>
      if p a then
        match many p s' k with
        | Some x => Some x
        | None => k s
        end
      else k s
  | [] => k s
  end.

(** The backtracking matcher, in continuation-passing style: [k] is the
    rest of the pattern; [None] sends the matcher back to the latest
    choice point. *)
Fixpoint exec (r : t) (s : str) (c : caps) (k : str -> caps -> option A)
    : option A :=
  match r with
  | Eps => k s c
  | Cls p =>
      match s with
      | a :: s' => if p a then k s' c else None
      | [] => None
      end
  | Lit l =>
      match strip_prefix l s with
      | Some s' => k s' c
      | None => None
      end
  | Cat r1 r2 => exec r1 s c (fun s' c' => exec r2 s' c' k)
  | Alt r1 r2 =>
      match exec r1 s c k with
      | Some x => Some x
      | None => exec r2 s c k
      end
  | Opt r1 =>
      match exec r1 s c k with
      | Some x => Some x
      | None => k s c
      end
  | Plus p =>
      match s with
      | a :: s' => if p a then many p s' (fun s'' => k s'' c) else None
      | [] => None
      end
  | Grp n r1 =>
      exec r1 s c
        (fun s' c' => k s' ((n, firstn (length s - length s') s) :: c'))
  end.
End Exec.

(** [pattern.match(s)] at the head of [s]: the unmatched rest and the
    groups. *)
Definition match_here (r : t) (s : str) : option (str * caps) :=
  exec r s [] (fun s' c => Some (s', c)).

(** A match object: its span in the searched text and its groups. *)
Record m : Type := Match { m_start : nat; m_end : nat; m_caps : caps }.

(** [pattern.search(s)]: the match at the leftmost position that has one. *)
Fixpoint search_from (r : t) (pos : nat) (s : str) : option m :=
  match match_here r s with
  | Some (s', c) => Some (Match pos (pos + (length s - length s')) c)
  | None =>
      match s with
      | [] => None
      | _ :: s' => search_from r (S pos) s'
      end
  end.

Definition search (r : t) (s : str) : option m := search_from r 0 s.

(** [pattern.finditer(s)]: successive matches, each search starting where
    the previous match ended.  [skip] is the number of characters of the
    previous match still to pass over.  (After an empty match the scan
    moves one character on; the patterns of this program match no empty
    string.) *)
Fixpoint finditer_from (r : t) (pos skip : nat) (s : str) : list m :=
  match skip with
  | S k =>
      match s with
      | [] => []
      | _ :: s' => finditer_from r (S pos) k s'
      end
  | O =>
      match match_here r s with
      | Some (rest, c) =>
          let n := length s - length rest in
          Match pos (pos + n) c ::
            match s with
            | [] => []
            | _ :: s' => finditer_from r (S pos) (pred n) s'
            end
      | None =>
          match s with
          | [] => []
          | _ :: s' => finditer_from r (S pos) 0 s'
          end
      end
  end.

Definition finditer (r : t) (s : str) : list m := finditer_from r 0 0 s.

(** Concatenation and alternation of several patterns. *)
Fixpoint cat (rs : list t) : t :=
  match rs with
  | [] => Eps
  | [r] => r
  | r :: rs' => Cat r (cat rs')
  end.

Fixpoint alt (r : t) (rs : list t) : t :=
  match rs with
  | [] => r
  | r' :: rs' => Alt r (alt r' rs')
  end.

(** *** Character classes *)

Definition chr (a : ascii) : t := Cls (Ascii.eqb a).
Definition one_of (l : str) (a : ascii) : bool := existsb (Ascii.eqb a) l.
Definition rng (lo hi : ascii) : t := Cls (in_range (code lo) (code hi)).

(** [\d]: a decimal digit (code points 0..255 hold only the ASCII ones). *)
Definition is_digit : ascii -> bool := in_range 48 57.

(** [.] without DOTALL: anything but a line feed. *)
Definition is_dot (a : ascii) : bool := negb (Ascii.eqb a "010"%char).

(** [\s] on [str] patterns: the characters for which [str.isspace] holds. *)
Definition is_space (a : ascii) : bool :=
  in_range 9 13 a || in_range 28 32 a
  || (code a =? 133)%N || (code a =? 160)%N.

(** [\w] on [str] patterns: [str.isalnum] or an underscore. *)
Definition is_word (a : ascii) : bool :=
  in_range 48 57 a || in_range 65 90 a || in_range 97 122 a
  || (code a =? 95)%N
  || (code a =? 170)%N || (code a =? 178)%N || (code a =? 179)%N
  || (code a =? 181)%N || (code a =? 185)%N || (code a =? 186)%N
  || in_range 188 190 a
  || in_range 192 214 a || in_range 216 246 a || in_range 248 255 a.

Definition not_word (a : ascii) : bool := negb (is_word a).
Definition not_space (a : ascii) : bool := negb (is_space a).

End Re.

(** ** DataParser *)

Module DataParser.
Import Re.

Definition dd : t := Cat (Cls is_digit) (Cls is_digit).
Definition d09 : t := rng "0" "9".
Definition d19 : t := rng "1" "9".

(** [(?:0[1-9]|[12][0-9]|3[01])] *)
Definition day : t :=
  alt (Cat (chr "0") d19)
      [Cat (Cls (one_of (L "12"))) d09; Cat (chr "3") (Cls (one_of (L "01")))].

(** [(?:0[1-9]|1[0-2])] *)
Definition month : t := Alt (Cat (chr "0") d19) (Cat (chr "1") (rng "0" "2")).

(** [(?:19|20)\d{2}] *)
Definition year : t := Cat (Alt (Lit (L "19")) (Lit (L "20"))) dd.

(** [[/\-.]] *)
Definition date_sep : t := Cls (one_of (L "/-.")).

(** [(?:0\d|1\d|2[0-3]):[0-5][0-9]] *)
Definition clock : t :=
  cat [alt (Cat (chr "0") (Cls is_digit))
         [Cat (chr "1") (Cls is_digit); Cat (chr "2") (rng "0" "3")];
       chr ":"; rng "0" "5"; d09].

(** [DATE_PATTERN]: group 1 is the date without the time of day. *)
Definition DATE_PATTERN : t :=
  cat [Grp 1 (cat [day; date_sep; month; date_sep; year]); chr " "; clock].

(** [(?:[1-9][0-9][0-9]|[1-9][0-9]|[0-9])] *)
Definition amount : t := alt (cat [d19; d09; d09]) [Cat d19 d09; d09].

(** [[,\.]] *)
Definition comma_or_dot : t := Cls (one_of (L ",.")).

(** The part of an item line shared by the two alternatives, from the tax
    code to the blank before the line total:
    [ [A-Z] (?:[1-9][0-9]|[0-9])\.[0-9]{3} [xX]?[xX]? ?(?:[1-9][0-9][0-9]|[1-9][0-9]|[0-9]|\S+)(?:[,\.][0-9]{2})? ] *)
Definition item_fields : t :=
  cat [chr " "; rng "A" "Z"; chr " ";
       Alt (Cat d19 d09) d09; chr "."; d09; d09; d09; chr " ";
       Opt (Cls (one_of (L "xX"))); Opt (Cls (one_of (L "xX"))); Opt (chr " ");
       alt (cat [d19; d09; d09]) [Cat d19 d09; d09; Plus not_space];
       Opt (Cat comma_or_dot (Cat d09 d09)); chr " "].

(** The optional sign of the discount: a hyphen or a tilde.  The source
    class has a third member, the left double quotation mark U+201C, which
    is not a character of the model. *)
Definition rabat_sign : t := Opt (Cls (one_of (L "-~"))).

(** The adjusted total, group 2:
    [[1-9][0-9][0-9],[0-9]{2}|[1-9][0-9],[0-9]{2}|[0-9][,\.][0-9]{2}] *)
Definition adjusted_total : t :=
  alt (cat [d19; d09; d09; chr ","; d09; d09])
      [cat [d19; d09; chr ","; d09; d09];
       cat [d09; comma_or_dot; d09; d09]].

(** [(.+)], the product name. *)
Definition name_part : t := Plus is_dot.

(** The line total of the first alternative, written with a comma. *)
Definition comma_total : t := cat [amount; chr ","; d09; d09].

(** [(?:.+Strona.+\W+)?], a page-break line. *)
Definition page_break : t :=
  Opt (cat [Plus is_dot; Lit (L "Strona"); Plus is_dot; Plus not_word]).

(** The discount line: the word [Rabat], a blank, the optional sign and
    the amount [(?:[1-9][0-9][0-9]|[1-9][0-9]|[0-9])[,\.][0-9]{2}]. *)
Definition rabat_line : t :=
  cat [Lit (L "Rabat "); rabat_sign; amount; comma_or_dot; d09; d09].

(** First alternative of [RECORD_PATTERN]: an item line, a [Rabat] line
    and the adjusted total. *)
Definition discounted : t :=
  cat [Grp 1 name_part; item_fields; comma_total; Plus not_word;
       page_break; rabat_line; Plus not_word; Grp 2 adjusted_total].

(** The line total of the second alternative, with a comma or a point. *)
Definition line_total : t := cat [amount; comma_or_dot; d09; d09].

(** Second alternative: an item line alone; group 4 is its line total. *)
Definition plain : t := cat [Grp 3 name_part; item_fields; Grp 4 line_total].

Definition RECORD_PATTERN : t := Alt discounted plain.

(** A record is the Python list [[name, price]]. *)
Definition record := list str.

(** A parsed document is the tuple [(date, doc_records)]. *)
Definition document : Type := str * list record.

(** [[match.group(i) for i in range(1, 5) if match.group(i) is not None]] *)
Definition non_none_groups (mt : m) : list str :=
  flat_map (fun i => match group (m_caps mt) i with
                     | Some g => [g]
                     | None => []
                     end) [1; 2; 3; 4].

(** [non_none_groups[1] = non_none_groups[1].replace(',', '.')] *)
Definition normalize_price (g : list str) : result record :=
  match g with
  | name :: price :: rest => Ok (name :: replace (L ",") (L ".") price :: rest)
  | _ => Raise IndexError
  end.

Definition doc_records (doc : str) : result (list record) :=
  for_each (fun acc mt => g <- normalize_price (non_none_groups mt) ;;
                          Ok (acc ++ [g]))
           (finditer RECORD_PATTERN doc) [].

(** One turn of the loop of [parse_data_from_pdf].  [search] returning
    [None] makes [.group(1)] raise [AttributeError].  Group 1 of
    [DATE_PATTERN] takes part in every match, so the [None] case of
    [group] below is never reached (lemma [date_group_bound]). *)
Definition parse_document (doc : str) : result document :=
  match search DATE_PATTERN doc with
  | None => Raise AttributeError
  | Some mt =>
      let date := match group (m_caps mt) 1 with
                  | Some d => d
                  | None => []
                  end in
      recs <- doc_records doc ;;
      Ok (date, recs)
  end.

Definition parse_data_from_pdf (documents : list str)
    : result (list document) :=
  for_each (fun all_doc_data doc => d <- parse_document doc ;;
                                    Ok (all_doc_data ++ [d]))
           documents [].

(** The dictionary [dates_d], in insertion order. *)
Definition bucket : Type := list (str * list document).

(** [dates_d.setdefault(key, []).append(doc)] *)
Fixpoint setdefault_append (key : str) (doc : document) (d : bucket)
    : bucket :=
  match d with
  | [] => [(key, [doc])]
  | (k, docs) :: d' =>
      if str_eqb k key then (k, docs ++ [doc]) :: d'
      else (k, docs) :: setdefault_append key doc d'
  end.

(** [doc[0].split(' ')[0].split('.', 1)[1]] *)
Definition month_year (doc : document) : result str :=
  match snd (split_first "." (fst (split_first " " (fst doc)))) with
  | Some rest => Ok rest
  | None => Raise IndexError
  end.

Definition assign_to_months (data : list document) : result bucket :=
  for_each (fun dates_d doc => key <- month_year doc ;;
                               Ok (setdefault_append key doc dates_d))
           data [].

Definition parse_data (docs : list str) : result bucket :=
  data <- parse_data_from_pdf docs ;;
  assign_to_months data.

End DataParser.


(** ** Dates and times *)

(** A [datetime.datetime]. *)
Record datetime : Type := Datetime {
  year : N; month : N; day : N;
  hour : N; minute : N; second : N; microsecond : N
}.

(** The fields of a datetime, most significant first. *)
Definition fields (d : datetime) : list N :=
  [year d; month d; day d; hour d; minute d; second d; microsecond d].

(** Comparison field by field: the first unequal pair decides. *)
Fixpoint lex_compare (l1 l2 : list N) : comparison :=
  match l1, l2 with
  | [], [] => Eq
  | [], _ :: _ => Lt
  | _ :: _, [] => Gt
  | x :: l1', y :: l2' =>
      match (x ?= y)%N with
      | Eq => lex_compare l1' l2'
      | c => c
      end
  end.

Definition dt_compare (a b : datetime) : comparison :=
  lex_compare (fields a) (fields b).

(** [a > b] on datetimes. *)
Definition dt_gtb (a b : datetime) : bool :=
  match dt_compare a b with
  | Gt => true
  | _ => false
  end.

(** [dt_le a b]: [a > b] does not hold. *)
Definition dt_le (a b : datetime) : Prop := dt_gtb a b = false.

Definition is_leap (y : N) : bool :=
  ((y mod 4 =? 0) && (negb (y mod 100 =? 0) || (y mod 400 =? 0)))%N.

Definition days_in_month (y m : N) : N :=
  if (m =? 2)%N then (if is_leap y then 29 else 28)%N
  else if ((m =? 4) || (m =? 6) || (m =? 9) || (m =? 11))%N then 30%N
  else 31%N.

(** [int(s)] on the digit strings that the [strptime] groups hold; a
    leading blank, which the day group admits, is skipped as [int] does. *)
Definition int_of (s : str) : N :=
  fold_left (fun acc a => if Re.is_digit a then (10 * acc + (code a - 48))%N
                          else acc) s 0%N.

Module Strptime.
Import Re.

(** The patterns that [_strptime] builds for the directives. *)
Definition dir_Y : t := cat [Cls is_digit; Cls is_digit; Cls is_digit; Cls is_digit].

Definition dir_m : t :=
  alt (Cat (chr "1") (rng "0" "2")) [Cat (chr "0") (rng "1" "9"); rng "1" "9"].

Definition dir_d : t :=
  alt (Cat (chr "3") (rng "0" "1"))
      [Cat (rng "1" "2") (Cls is_digit); Cat (chr "0") (rng "1" "9");
       rng "1" "9"; Cat (chr " ") (rng "1" "9")].

(** Groups: 1 is the year, 2 the month, 3 the day. *)
Definition fmt_Ymd : t := cat [Grp 1 dir_Y; Grp 2 dir_m; Grp 3 dir_d].
Definition fmt_dmY : t :=
  cat [Grp 3 dir_d; chr "."; Grp 2 dir_m; chr "."; Grp 1 dir_Y].

(** [datetime.strptime(s, fmt)]: the pattern must match at the start of
    [s] and leave nothing over, and the fields must form a calendar date. *)
Definition strptime (fmt : t) (s : str) : result datetime :=
  match match_here fmt s with
  | Some ([], c) =>
      match group c 1, group c 2, group c 3 with
      | Some gy, Some gm, Some gd =>
          let y := int_of gy in
          let mo := int_of gm in
          let d := int_of gd in
          if ((1 <=? y) && (1 <=? d) && (d <=? days_in_month y mo))%N
          then Ok (Datetime y mo d 0 0 0 0)
          else Raise ValueError
      | _, _, _ => Raise ValueError
      end
  | _ => Raise ValueError
  end.

End Strptime.

(** ** LocalFileHandler and GoogleDrive *)

(** An entry of the Drive listing, the dictionary with keys [id] and
    [name]. *)
Record drive_file : Type := DriveFile { id : str; name : str }.

(** What [os.walk(path)] yields: for every directory under [path], the
    names of its files. *)
Definition walk : Type := list (list str).

Module GoogleDrive.

(** [any(name.replace('.pdf', '.txt') in files for _, _, files in os.walk(path))] *)
Definition is_in_local_dir (google_drive_file : drive_file) (w : walk) : bool :=
  existsb (fun files =>
             existsb (str_eqb (replace (L ".pdf") (L ".txt")
                                       (name google_drive_file))) files) w.

Definition find_files_missing_locally (google_drive_files : list drive_file)
    (w : walk) : list drive_file :=
  filter (fun item => negb (is_in_local_dir item w)) google_drive_files.

(** [datetime.strptime('20' + item['name'][:6], "%Y%m%d")] *)
Definition file_grocery_date (item : drive_file) : result datetime :=
  Strptime.strptime Strptime.fmt_Ymd (L "20" ++ firstn 6 (name item)).

Definition compare_dates (items : list drive_file)
    (latest_grocery_date_excel : datetime) : result (list drive_file) :=
  for_each (fun groceries_after_threshold item =>
              d <- file_grocery_date item ;;
              Ok (if dt_gtb d latest_grocery_date_excel
                  then groceries_after_threshold ++ [item]
                  else groceries_after_threshold))
           items [].

Definition validate_to_download (biedronka_pdfs : list drive_file)
    (latest_grocery_date_excel : datetime) (w : walk)
    : result (list drive_file) :=
  items <- compare_dates biedronka_pdfs latest_grocery_date_excel ;;
  Ok (find_files_missing_locally items w).

End GoogleDrive.


(** ** Sorting *)

(** Python's [<] on lists and tuples: the first pair of unequal elements
    decides; a proper prefix is smaller. *)
Fixpoint list_ltb {A : Type} (eqb ltb : A -> A -> bool) (l1 l2 : list A)
    : bool :=
  match l1, l2 with
  | _, [] => false
  | [], _ :: _ => true
  | a :: l1', b :: l2' => if eqb a b then list_ltb eqb ltb l1' l2' else ltb a b
  end.

Fixpoint list_eqb {A : Type} (eqb : A -> A -> bool) (l1 l2 : list A) : bool :=
  match l1, l2 with
  | [], [] => true
  | a :: l1', b :: l2' => eqb a b && list_eqb eqb l1' l2'
  | _, _ => false
  end.

Definition pair_ltb {A B : Type} (eqa lta : A -> A -> bool)
    (ltb' : B -> B -> bool) (p q : A * B) : bool :=
  if eqa (fst p) (fst q) then ltb' (snd p) (snd q) else lta (fst p) (fst q).

Definition pair_eqb {A B : Type} (eqa : A -> A -> bool)
    (eqb' : B -> B -> bool) (p q : A * B) : bool :=
  eqa (fst p) (fst q) && eqb' (snd p) (snd q).

(** [sorted(l)]: a stable sort by [<]. *)
Fixpoint insert_sorted {A : Type} (ltb : A -> A -> bool) (x : A) (l : list A)
    : list A :=
  match l with
  | [] => [x]
  | y :: l' => if ltb y x then y :: insert_sorted ltb x l' else x :: l
  end.

Definition sorted {A : Type} (ltb : A -> A -> bool) (l : list A) : list A :=
  fold_right (insert_sorted ltb) [] l.

Definition record_eqb : DataParser.record -> DataParser.record -> bool :=
  list_eqb str_eqb.
Definition record_ltb : DataParser.record -> DataParser.record -> bool :=
  list_ltb str_eqb str_ltb.

Definition document_eqb : DataParser.document -> DataParser.document -> bool :=
  pair_eqb str_eqb (list_eqb record_eqb).
Definition document_ltb : DataParser.document -> DataParser.document -> bool :=
  pair_ltb str_eqb str_ltb (list_ltb record_eqb record_ltb).

Definition period_ltb
    : str * list DataParser.document -> str * list DataParser.document -> bool :=
  pair_ltb str_eqb str_ltb (list_ltb document_eqb document_ltb).

(** ** ExcelDataDumper

    The workbook is the ordered store of named sheets that the code sees
    through openpyxl.  A sheet is its list of rows, one list element for
    every [append], so that [_current_row] is the length of the list;
    [max_row] is the number of the last row that has a cell.  A text
    that goes into a cell is checked as openpyxl checks it: it is cut to
    32767 characters and refused when it holds a control character.
    Titles are compared as the code compares them, character by
    character; openpyxl would number a new title that differs from an
    existing one by letter case only, which period keys, made of digits
    and separators, never do. *)

(** [str(n)] for a row number. *)
Definition str_of_nat (n : nat) : str :=
  L (NilEmpty.string_of_uint (Nat.to_uint n)).

Module Excel.

Section Dumper.
(** The floating-point numbers and the conversion [float(s)] of Python
    are parameters of the model. *)
Variable F : Type.
Variable float : str -> result F.

Inductive value : Type :=
| VNone
| VStr (s : str)
| VFloat (x : F).

Inductive number_format : Type :=
| General
| CURRENCY_FORMAT.

Record cell : Type := Cell { cell_value : value; cell_format : number_format }.

(** A row holds the cells of columns 1, 2, ...; the row of
    [ws.append([])] has none. *)
Definition row : Type := list cell.

(** A worksheet: its title and its rows 1 .. [_current_row]. *)
Record worksheet : Type := Worksheet { title : str; rows : list row }.

Definition workbook : Type := list worksheet.

(** The dumper object together with what it acts on: the workbook in
    memory, the workbook last written to [path_to_excel], whether another
    process holds that file open, and the lines printed so far. *)
Record dumper : Type := Dumper {
  wb : workbook;
  file : workbook;
  locked : bool;
  stdout : list str
}.

Definition set_wb (x : dumper) (w : workbook) : dumper :=
  Dumper w (file x) (locked x) (stdout x).

Definition sheetnames (w : workbook) : list str := map title w.

(** The number of the last row that has a cell, 0 when no row has. *)
Fixpoint last_used (rs : list row) : nat :=
  match rs with
  | [] => 0
  | r :: rs' =>
      match last_used rs' with
      | S n => S (S n)
      | O => match r with
             | [] => 0
             | _ :: _ => 1
             end
      end
  end.

(** [ws.max_row] *)
Definition max_row (ws : worksheet) : nat := Nat.max 1 (last_used (rows ws)).

Definition plain (v : value) : cell := Cell v General.

(** The characters of [ILLEGAL_CHARACTERS_RE],
    [[\000-\010]|[\013-\014]|[\016-\037]]: the control characters other
    than tab, line feed and carriage return. *)
Definition illegal_character (a : ascii) : bool :=
  in_range 0 8 a || in_range 11 12 a || in_range 14 31 a.

(** The longest text that a cell holds. *)
Definition max_text : nat := N.to_nat 32767.

(** [Cell.check_string]: the text is cut to 32767 characters, and an
    illegal character in what is left raises [IllegalCharacterError]. *)
Definition check_string (s : str) : result str :=
  let s := firstn max_text s in
  if existsb illegal_character s then Raise IllegalCharacterError else Ok s.

(** The cell that [append] makes of a value; a text goes through
    [check_string]. *)
Definition bind_value (v : value) : result cell :=
  match v with
  | VStr s => s' <- check_string s ;; Ok (plain (VStr s'))
  | _ => Ok (plain v)
  end.

(** [ws.append(values)]: the cells are made one after the other, and the
    row is counted when all of them are made. *)
Definition append (ws : worksheet) (values : list value) : result worksheet :=
  cells <- for_each (fun cells v => c <- bind_value v ;; Ok (cells ++ [c]))
                    values [] ;;
  Ok (Worksheet (title ws) (rows ws ++ [cells])).

(** [ws.cell(row=.., column=col).number_format = CURRENCY_FORMAT] within
    one row; a missing cell is created. *)
Fixpoint format_column (col : nat) (r : row) : row :=
  match col with
  | O => r
  | S O =>
      match r with
      | [] => [Cell VNone CURRENCY_FORMAT]
      | c :: r' => Cell (cell_value c) CURRENCY_FORMAT :: r'
      end
  | S col' =>
      match r with
      | [] => plain VNone :: format_column col' []
      | c :: r' => c :: format_column col' r'
      end
  end.

Fixpoint update_row (n : nat) (f : row -> row) (rs : list row) : list row :=
  match rs with
  | [] => []
  | r :: rs' =>
      match n with
      | O => rs
      | S O => f r :: rs'
      | S n' => r :: update_row n' f rs'
      end
  end.

(** [set_number_format(ws, *columns)].  It is only called right after a
    row with cells has been appended, so row [max_row] exists. *)
Definition set_number_format (ws : worksheet) (columns : list nat)
    : worksheet :=
  fold_left (fun ws col =>
               Worksheet (title ws)
                         (update_row (max_row ws) (format_column col) (rows ws)))
            columns ws.

(** The title setter of a sheet refuses the characters of
    [INVALID_TITLE_REGEX]. *)
Definition valid_title (s : str) : bool :=
  negb (existsb (Re.one_of (L "\*?:/[]")) s).

(** [self.wb.save(self.path_to_excel)] *)
Definition wb_save (x : dumper) : result dumper :=
  if locked x then Raise PermissionError
  else Ok (Dumper (wb x) (wb x) (locked x) (stdout x)).

Definition print (x : dumper) (line : str) : dumper :=
  Dumper (wb x) (file x) (locked x) (stdout x ++ [line]).

Definition save_excel_workbook (x : dumper) : result dumper :=
  match wb_save x with
  | Raise PermissionError =>
      Ok (print x (L "Please close the file that script tries to write to,"))
  | r => r
  end.

Definition first_sheet_rename (x : dumper) (data_keys : list str)
    : result dumper :=
  x' <- (if Nat.eqb (length (sheetnames (wb x))) 1 then
           match data_keys, wb x with
           | [], _ => Raise IndexError
           | _, [] => Raise IndexError
           | key :: _, ws :: rest =>
               if valid_title key
               then Ok (set_wb x (Worksheet key (rows ws) :: rest))
               else Raise ValueError
           end
         else Ok x) ;;
  save_excel_workbook x'.

(** [self.wb.create_sheet(title=key)] *)
Definition create_sheet (w : workbook) (key : str) : result workbook :=
  if valid_title key then Ok (w ++ [Worksheet key []]) else Raise ValueError.

Definition create_sheets (x : dumper) (data_keys : list str)
    : result dumper :=
  w <- for_each (fun w key =>
                   if existsb (fun sheetname => str_eqb sheetname key)
                              (sheetnames w)
                   then Ok w
                   else create_sheet w key)
                data_keys (wb x) ;;
  save_excel_workbook (set_wb x w).

Definition handle_sheets (x : dumper) (data_keys : list str)
    : result dumper :=
  x' <- first_sheet_rename x data_keys ;;
  create_sheets x' data_keys.

Definition epoch : datetime := Datetime 1800 1 1 0 0 0 0.

Definition DATE_FORMAT_PATTERN : Re.t :=
  Re.cat [DataParser.day; Re.chr "."; DataParser.month; Re.chr ".";
          DataParser.year].

(** [row[0]] of [iter_rows(values_only=True)]: the value in the first
    column, [None] when the row has no cell there. *)
Definition first_value (r : row) : value :=
  match r with
  | [] => VNone
  | c :: _ => cell_value c
  end.

(** The body of the loop of [latest_grocery_date].  An empty string or
    [None] is falsy; the text of a number never matches the pattern. *)
Definition scan_row (latest_grocery : datetime) (r : row) : result datetime :=
  match first_value r with
  | VStr (a :: s) =>
      match Re.match_here DATE_FORMAT_PATTERN (a :: s) with
      | Some (rest, _) =>
          grocery <- Strptime.strptime Strptime.fmt_dmY
                       (firstn (length (a :: s) - length rest) (a :: s)) ;;
          Ok (if dt_gtb grocery latest_grocery then grocery
              else latest_grocery)
      | None => Ok latest_grocery
      end
  | _ => Ok latest_grocery
  end.

Definition latest_grocery_date (x : dumper) : result datetime :=
  match rev (wb x) with
  | [] => Raise IndexError
  | ws :: _ => for_each scan_row (firstn (max_row ws) (rows ws)) epoch
  end.

Definition col_range (col : string) (start_row end_row : nat) : str :=
  L col ++ str_of_nat start_row ++ L ":" ++ L col ++ str_of_nat end_row.

(** The row ['Suma'] with its three formulas. *)
Definition summary_row (start_row end_row : nat) : list value :=
  let B := col_range "B" start_row end_row in
  let C := col_range "C" start_row end_row in
  let D := col_range "D" start_row end_row in
  let both := L "SUMIFS(" ++ B ++ L "," ++ D ++ L ",TRUE," ++ C
                ++ L ",TRUE)/2" in
  [VStr (L "Suma");
   VStr (L "=SUM(" ++ B ++ L ")");
   VStr (L "=SUMIF(" ++ C ++ L ",TRUE," ++ B ++ L ")-" ++ both);
   VStr (L "=SUMIF(" ++ D ++ L ",TRUE," ++ B ++ L ")-" ++ both)].

Definition header_row : list value :=
  [VStr (L "Nazwa"); VStr (L "Cena"); VStr (L "NAME1"); VStr (L "NAME2")].

(** One turn of [for item_name, item_price in grocery]. *)
Definition write_item (ws : worksheet) (rec : DataParser.record)
    : result worksheet :=
  match rec with
  | [item_name; item_price] =>
      price <- float item_price ;;
      ws <- append ws [VStr item_name; VFloat price; VNone; VNone] ;;
      Ok (set_number_format ws [2])
  | _ => Raise ValueError
  end.

(** One turn of [for date, grocery in sorted(data)]. *)
Definition write_document (ws : worksheet) (doc : DataParser.document)
    : result worksheet :=
  let (date, grocery) := doc in
  ws <- append ws [VStr date] ;;
  ws <- append ws header_row ;;
  let start_row := max_row ws + 1 in
  ws <- for_each write_item grocery ws ;;
  let end_row := max_row ws in
  ws <- append ws (summary_row start_row end_row) ;;
  let ws := set_number_format ws [2; 3; 4] in
  ws <- append ws [] ;;
  append ws [].

(** The body of [for month, data in sorted(data_by_month.items())],
    on the sheet [self.wb[month]]. *)
Definition write_month (ws : worksheet) (data : list DataParser.document)
    : result worksheet :=
  ws <- (if 4 <? max_row ws then ws <- append ws [] ;; append ws []
         else Ok ws) ;;
  for_each write_document (sorted document_ltb data) ws.

(** [ws = self.wb[month]] followed by updates of [ws] in place: the first
    sheet of that title is changed inside the workbook. *)
Fixpoint with_sheet (month : str) (f : worksheet -> result worksheet)
    (w : workbook) : result workbook :=
  match w with
  | [] => Raise KeyError
  | ws :: w' =>
      if str_eqb (title ws) month then ws' <- f ws ;; Ok (ws' :: w')
      else w'' <- with_sheet month f w' ;; Ok (ws :: w'')
  end.

Definition insert_data (x : dumper) (data_by_month : DataParser.bucket)
    : result dumper :=
  x <- handle_sheets x (sorted str_ltb (map fst data_by_month)) ;;
  w <- for_each (fun w (p : str * list DataParser.document) =>
                   with_sheet (fst p) (fun ws => write_month ws (snd p)) w)
                (sorted period_ltb data_by_month) (wb x) ;;
  save_excel_workbook (set_wb x w).

(** [self.wb[title]]: the first sheet of that title. *)
Fixpoint find_sheet (t : str) (w : workbook) : option worksheet :=
  match w with
  | [] => None
  | ws :: w' => if str_eqb (title ws) t then Some ws else find_sheet t w'
  end.

(** The values of the first column, row by row. *)
Definition first_column (ws : worksheet) : list value :=
  map first_value (rows ws).

(** [grows ws ws']: the sheet [ws'] has the rows of [ws], unchanged, and
    possibly more rows after them. *)
Definition grows (ws ws' : worksheet) : Prop :=
  exists new, rows ws' = rows ws ++ new.

(** A value as a cell holds it: a text is cut to the longest text of a
    cell. *)
Definition stored (v : value) : value :=
  match v with
  | VStr s => VStr (firstn max_text s)
  | _ => v
  end.

(** The cells of the summary row, once formatted. *)
Definition summary_cells (start_row end_row : nat) : row :=
  match map stored (summary_row start_row end_row) with
  | label :: formulas =>
      plain label :: map (fun v => Cell v CURRENCY_FORMAT) formulas
  | [] => []
  end.

(** The rows of an item, once formatted. *)
Definition item_cells (item_name : str) (price : F) : row :=
  [plain (VStr item_name); Cell (VFloat price) CURRENCY_FORMAT;
   plain VNone; plain VNone].

End Dumper.

Arguments VNone {F}.
Arguments VStr {F} s.
Arguments VFloat {F} x.

(** [float] on the decimal notation that the record pattern yields:
    digits, a point, digits.  The number is kept as its digits and the
    count of those after the point. *)
Definition decimal : Type := N * nat.

Definition decimal_float (s : str) : result decimal :=
  let (i, rest) := split_first "." s in
  let f := match rest with
           | Some f => f
           | None => []
           end in
  if forallb Re.is_digit (i ++ f) && negb (Nat.eqb (length (i ++ f)) 0)
  then Ok (int_of (i ++ f), length f)
  else Raise ValueError.

End Excel.



(** ** What a pattern matches *)

Module ReSem.
Import Re.

(** [matches r c w c']: the pattern [r] can consume exactly the text [w],
    turning the group bindings [c] into [c'].  The relation ignores the
    priorities of the matcher: it says which matches are possible, not
    which one is found first. *)
Inductive matches : t -> caps -> str -> caps -> Prop :=
| M_Eps : forall c, matches Eps c [] c
| M_Cls : forall p a c, p a = true -> matches (Cls p) c [a] c
| M_Lit : forall l c, matches (Lit l) c l c
| M_Cat : forall r1 r2 c w1 c1 w2 c2,
    matches r1 c w1 c1 -> matches r2 c1 w2 c2 ->
    matches (Cat r1 r2) c (w1 ++ w2) c2
| M_AltL : forall r1 r2 c w c', matches r1 c w c' -> matches (Alt r1 r2) c w c'
| M_AltR : forall r1 r2 c w c', matches r2 c w c' -> matches (Alt r1 r2) c w c'
| M_OptSome : forall r c w c', matches r c w c' -> matches (Opt r) c w c'
| M_OptNone : forall r c, matches (Opt r) c [] c
| M_Plus : forall p w c,
    w <> [] -> forallb p w = true -> matches (Plus p) c w c
| M_Grp : forall n r c w c',
    matches r c w c' -> matches (Grp n r) c w ((n, w) :: c').

(** A text that a pattern without groups can consume. *)
Definition accepts (r : t) (w : str) : Prop := matches r [] w [].

(** The texts of a pattern, by the structure of the pattern; groups do
    not count. *)
Fixpoint lang (r : t) (s : str) : Prop :=
  match r with
  | Eps => s = []
  | Cls p => exists a, s = [a] /\ p a = true
  | Lit l => s = l
  | Cat r1 r2 => exists s1 s2, s = s1 ++ s2 /\ lang r1 s1 /\ lang r2 s2
  | Alt r1 r2 => lang r1 s \/ lang r2 s
  | Opt r1 => s = [] \/ lang r1 s
  | Plus p => s <> [] /\ forallb p s = true
  | Grp _ r1 => lang r1 s
  end.

(** Does the pattern contain a capturing group? *)
Fixpoint has_group (r : t) : bool :=
  match r with
  | Eps | Cls _ | Lit _ | Plus _ => false
  | Cat r1 r2 | Alt r1 r2 => has_group r1 || has_group r2
  | Opt r1 => has_group r1
  | Grp _ _ => true
  end.

(** Can the pattern match the empty text? *)
Fixpoint nullable (r : t) : bool :=
  match r with
  | Eps | Opt _ => true
  | Cls _ | Plus _ => false
  | Lit l => match l with [] => true | _ :: _ => false end
  | Cat r1 r2 => nullable r1 && nullable r2
  | Alt r1 r2 => nullable r1 || nullable r2
  | Grp _ r1 => nullable r1
  end.

(** The text of [doc] between two positions. *)
Definition span (doc : str) (mt : m) : str :=
  firstn (m_end mt - m_start mt) (skipn (m_start mt) doc).

(** Matches lie one after the other from position [lo] on: each is not
    empty and begins no earlier than the previous one ends. *)
Fixpoint in_sequence (lo : nat) (ms : list m) : Prop :=
  match ms with
  | [] => True
  | mt :: ms' =>
      lo <= m_start mt /\ m_start mt < m_end mt /\ in_sequence (m_end mt) ms'
  end.

End ReSem.

(** ** Dates in file names *)

Module SyncSpec.

Definition digit (a : ascii) : N := (code a - 48)%N.

(** The year, month and day that a six-character prefix [YYMMDD] denotes,
    the year read as 20YY. *)
Definition yymmdd (p : str) : option (N * N * N) :=
  match p with
  | [y1; y2; m1; m2; d1; d2] =>
      if forallb Re.is_digit p
      then Some (2000 + 10 * digit y1 + digit y2,
                 10 * digit m1 + digit m2,
                 10 * digit d1 + digit d2)%N
      else None
  | _ => None
  end.

(** Two digits that name a month. *)
Definition month_ok (m1 m2 : ascii) : bool :=
  ((1 <=? 10 * digit m1 + digit m2) && (10 * digit m1 + digit m2 <=? 12))%N.

(** Six digits that name a day of the calendar. *)
Definition valid_yymmdd (p : str) : bool :=
  match p with
  | [y1; y2; m1; m2; d1; d2] =>
      forallb Re.is_digit p && month_ok m1 m2
      && ((1 <=? 10 * digit d1 + digit d2)
          && (10 * digit d1 + digit d2
              <=? days_in_month (2000 + 10 * digit y1 + digit y2)
                                (10 * digit m1 + digit m2)))%N
  | _ => false
  end.

(** The date of a file: midnight of the day in its name. *)
Definition prefix_date (p : str) : datetime :=
  match yymmdd p with
  | Some (y, mo, d) => Datetime y mo d 0 0 0 0
  | None => Datetime 1 1 1 0 0 0 0
  end.

Definition dt_eqb (a b : datetime) : bool :=
  ((year a =? year b) && (month a =? month b) && (day a =? day b)
   && (hour a =? hour b) && (minute a =? minute b)
   && (second a =? second b) && (microsecond a =? microsecond b))%N.

Definition digits : str := L "0123456789".

(** In the words of the specification: the name, with [.pdf] replaced
    by [.txt], is the name of a file of a local directory. *)
Definition present_locally (n : str) (w : walk) : Prop :=
  exists files, In files w /\ In (replace (L ".pdf") (L ".txt") n) files.

(** In the words of the specification: the file belongs to the plan when
    the day of its name is after the cutoff and it is not present
    locally. *)
Definition planned (cutoff : datetime) (w : walk) (it : drive_file) : Prop :=
  dt_gtb (prefix_date (firstn 6 (name it))) cutoff = true
  /\ ~ present_locally (name it) w.

(** [strptime] agrees with [prefix_date] on one prefix. *)
Definition agrees (p : str) : bool :=
  if valid_yymmdd p then
    match Strptime.strptime Strptime.fmt_Ymd (L "20" ++ p) with
    | Ok d => dt_eqb d (prefix_date p)
    | Raise _ => false
    end
  else true.

End SyncSpec.

(** ** A discounted record, as a text

    The record block with a discount, written out character by
    character in the words of the specification, without the patterns of
    the program. *)

Module Receipt.
Import Re.

(** A run of characters of one class, not empty. *)
Definition run (p : ascii -> bool) (s : str) : Prop :=
  s <> [] /\ forallb p s = true.

(** A digit other than 0, and a capital letter A to Z. *)
Definition nonzero : ascii -> bool := in_range 49 57.
Definition upper : ascii -> bool := in_range 65 90.

(** The part of an amount before its separator: one digit, or two or
    three digits of which the first is not 0. *)
Definition is_amount (s : str) : bool :=
  match s with
  | [a] => is_digit a
  | [a; b] => nonzero a && is_digit b
  | [a; b; c] => nonzero a && is_digit b && is_digit c
  | _ => false
  end.

(** An amount of money: the part before the separator, a separator
    among [seps], two digits. *)
Definition money (seps : str) (s : str) : Prop :=
  exists amt sep a b,
    s = amt ++ [sep; a; b]
    /\ is_amount amt = true /\ In sep seps
    /\ is_digit a = true /\ is_digit b = true.

(** The adjusted total: an amount of money written with a comma, or one
    digit, a point and two digits. *)
Definition adjusted (s : str) : Prop :=
  money (L ",") s
  \/ exists d a b,
       s = [d; "."%char; a; b]
       /\ is_digit d = true /\ is_digit a = true /\ is_digit b = true.

(** The quantity: one digit, or two of which the first is not 0, a point
    and three digits. *)
Definition quantity (s : str) : Prop :=
  exists q a b c,
    s = q ++ ["."%char; a; b; c]
    /\ is_amount q = true /\ length q <= 2
    /\ is_digit a = true /\ is_digit b = true /\ is_digit c = true.

(** The multiplier mark: at most two letters x or X, followed or not by
    a blank. *)
Definition multiplier (s : str) : Prop :=
  exists marks blank,
    s = marks ++ blank
    /\ length marks <= 2 /\ forallb (one_of (L "xX")) marks = true
    /\ (blank = [] \/ blank = [" "%char]).

(** The fields of the item line between the name and the line total: a
    blank, the tax letter, a blank, the quantity, a blank, the multiplier
    mark, the unit price as a run without white space, a blank. *)
Definition fields (s : str) : Prop :=
  exists tax qty mult unit,
    s = " "%char :: tax :: " "%char :: qty ++ " "%char :: mult ++ unit
          ++ [" "%char]
    /\ upper tax = true /\ quantity qty /\ multiplier mult
    /\ run not_space unit.

(** A page-break line: text, the word Strona, text, and the run of
    non-word characters that ends the line. *)
Definition page_break (s : str) : Prop :=
  exists before after sep,
    s = before ++ L "Strona" ++ after ++ sep
    /\ run is_dot before /\ run is_dot after /\ run not_word sep.

(** The discount line: the word Rabat, a blank, a hyphen or a tilde or
    neither, and the amount of the discount. *)
Definition rabat (s : str) : Prop :=
  exists sign amt,
    s = L "Rabat " ++ sign ++ amt
    /\ (sign = [] \/ sign = ["-"%char] \/ sign = ["~"%char])
    /\ money (L ",.") amt.

(** The block: the name, on one line; the fields; the line total, written
    with a comma; a run of non-word characters; at most one page-break
    line; the discount line; a run of non-word characters; the adjusted
    total. *)
Definition discount_block (name adj w : str) : Prop :=
  exists f total sep1 pb r sep2,
    w = name ++ f ++ total ++ sep1 ++ pb ++ r ++ sep2 ++ adj
    /\ run is_dot name /\ fields f /\ money (L ",") total
    /\ run not_word sep1 /\ (pb = [] \/ page_break pb) /\ rabat r
    /\ run not_word sep2 /\ adjusted adj.

End Receipt.

(** ** Sample data *)

Module Samples.

Definition nl : str := ["010"%char].

(** A discounted item whose line total is written with a point. *)
Definition dotted_total_doc : str :=
  L "Ser C 1.000 x 4,50 4.50" ++ nl ++ L "Rabat -1,00" ++ nl ++ L "3,50".

(** A discounted item with a page-break line that begins with [Strona]. *)
Definition bare_page_break_doc : str :=
  L "Milk A 1.000 x 4,50 4,50" ++ nl ++ L "Strona 2" ++ nl
    ++ L "Rabat -1,00" ++ nl ++ L "3,50".

(** A discounted item with a page-break line that ends with [Strona]. *)
Definition trailing_page_break_doc : str :=
  L "Milk A 1.000 x 4,50 4,50" ++ nl ++ L "-- Strona" ++ nl
    ++ L "Rabat -1,00" ++ nl ++ L "3,50".

(** A discounted item with a page-break line inside it. *)
Definition page_break_doc : str :=
  L "Milk A 1.000 x 4,50 4,50" ++ nl ++ L "-- Strona 1 z 2 --" ++ nl
    ++ L "Rabat -1,00" ++ nl ++ L "3,50".

(** A receipt with a plain and a discounted item. *)
Definition receipt_doc : str :=
  L "15.03.2024 18:42" ++ nl ++ L "Milk A 1.000 x 4,50 4,50" ++ nl
    ++ L "Bread B 2.000 x 6,00 12,00" ++ nl ++ L "Rabat -1,00" ++ nl
    ++ L "11,00" ++ nl.

Definition no_date_doc : str := L "Biedronka".

(** A date and nothing that looks like an item. *)
Definition no_items_doc : str := L "10.03.2024 09:15" ++ nl ++ L "Biedronka".


(** The same with a slash after the month only. *)
Definition point_slash_doc : str :=
  L "10.03/2024 09:15" ++ nl ++ L "Biedronka".

Definition receipt_file : drive_file :=
  DriveFile (L "1") (L "240310_receipt.pdf").

Definition unnamed_file : drive_file := DriveFile (L "2") (L "receipt.pdf").

(** A file whose name has five characters. *)
Definition short_name_file : drive_file := DriveFile (L "3") (L "24111").

(** A local folder that holds the text of [receipt_file]. *)
Definition staged : walk := [[L "240310_receipt.txt"]].

(** Two receipts of the same day; the one printed in the evening lists
    an item whose name sorts first. *)
Definition evening_doc : str :=
  L "15.03.2024 18:42" ++ nl ++ L "Apple A 1.000 x 2,00 2,00" ++ nl.

Definition morning_doc : str :=
  L "15.03.2024 09:15" ++ nl ++ L "Zebra A 1.000 x 3,00 3,00" ++ nl.

Definition date_row (d : string) : Excel.row Excel.decimal :=
  [Excel.plain (Excel.VStr (L d))].

Definition default_book : Excel.workbook Excel.decimal :=
  [Excel.Worksheet (L "Sheet") []].

(** A ledger that has just been created. *)
Definition fresh_ledger : Excel.dumper Excel.decimal :=
  Excel.Dumper default_book default_book false [].

Definition march_book : Excel.workbook Excel.decimal :=
  [Excel.Worksheet (L "03.2024") [date_row "15.03.2024"]].

(** A ledger with one sheet that holds a receipt of March 2024. *)
Definition march_ledger : Excel.dumper Excel.decimal :=
  Excel.Dumper march_book march_book false [].

(** The same ledger while another process holds its file open. *)
Definition locked_ledger : Excel.dumper Excel.decimal :=
  Excel.Dumper march_book march_book true [].

Definition two_month_book : Excel.workbook Excel.decimal :=
  [Excel.Worksheet (L "02.2024") [date_row "20.02.2024"];
   Excel.Worksheet (L "03.2024") [date_row "15.03.2024"]].

(** A ledger with sheets for February and March 2024. *)
Definition two_month_ledger : Excel.dumper Excel.decimal :=
  Excel.Dumper two_month_book two_month_book false [].

(** One receipt of January 2024 without items. *)
Definition january_bucket : DataParser.bucket :=
  [(L "01.2024", [(L "05.01.2024", [])])].

(** One receipt of March 2024, later than the one of [march_book]. *)
Definition march_bucket : DataParser.bucket :=
  [(L "03.2024", [(L "20.03.2024", [[L "Milk"; L "4.50"]])])].

End Samples.

(** ** PDFProcessor *)

Module PDFProcessor.

(** [s.split(sep)[-1]]: the text after the last [sep], the whole of [s]
    when it has none. *)
Definition after_last (sep : ascii) (s : str) : str :=
  rev (fst (split_first sep (rev s))).

(** [name = pdf_file_path.split('\\')[-1].split('.')[0]] *)
Definition txt_stem (pdf_file_path : str) : str :=
  fst (split_first "." (after_last "\" pdf_file_path)).

(** [LocalFileHandler.create_txt] writes the file [{name}.txt] of the
    storage folder; this is its name. *)
Definition txt_file (name : str) : str := name ++ L ".txt".

(** [PDFProcessor.create_txt]: the files written, name and contents, in
    the order of the loop over [zip(pdf_file_paths, text_all_files)]. *)
Definition create_txt (text_all_files pdf_file_paths : list str)
    : list (str * str) :=
  map (fun p => (txt_file (txt_stem (fst p)), snd p))
      (combine pdf_file_paths text_all_files).

End PDFProcessor.

(** ** Readings of the data *)

Module Reading.

(** Every character, by code point. *)
Definition all_ascii : list ascii := map ascii_of_nat (seq 0 256).

(** Classes of characters: no point, no blank, no comma, and the
    characters that [replace(',', '.')] turns into a point. *)
Definition not_point (a : ascii) : bool := negb (Ascii.eqb a ".").
Definition not_blank (a : ascii) : bool := negb (Ascii.eqb a " ").
Definition not_comma (a : ascii) : bool := negb (Ascii.eqb "," a).
Definition to_point (a : ascii) : bool :=
  Ascii.eqb (if Ascii.eqb "," a then "." else a) ".".

(** [dates_d.get(key, [])] *)
Fixpoint bucket_get (key : str) (d : DataParser.bucket)
    : list DataParser.document :=
  match d with
  | [] => []
  | (k, docs) :: d' => if str_eqb k key then docs else bucket_get key d'
  end.

(** Does [month_year] give this key for the document? *)
Definition has_key (key : str) (doc : DataParser.document) : bool :=
  match DataParser.month_year doc with
  | Ok k => str_eqb k key
  | Raise _ => false
  end.

(** The period key that [month_year] derives from a date made of day,
    separator, month, separator and year: the text after the first
    point. *)
Definition key_of_date (s1 : ascii) (mm : str) (s2 : ascii) (yyyy : str)
    : result str :=
  if Ascii.eqb s1 "." then Ok (mm ++ s2 :: yyyy)
  else if Ascii.eqb s2 "." then Ok yyyy
  else Raise IndexError.

(** A text that the parts of the first alternative of [RECORD_PATTERN]
    accept one after the other; [name] and [adj] are the texts of its
    groups. *)
Definition discounted_text (name adj w : str) : Prop :=
  exists fields total sep1 pb rabat sep2,
    w = name ++ fields ++ total ++ sep1 ++ pb ++ rabat ++ sep2 ++ adj
    /\ ReSem.accepts DataParser.name_part name
    /\ ReSem.accepts DataParser.item_fields fields
    /\ ReSem.accepts DataParser.comma_total total
    /\ ReSem.accepts (Re.Plus Re.not_word) sep1
    /\ ReSem.accepts DataParser.page_break pb
    /\ ReSem.accepts DataParser.rabat_line rabat
    /\ ReSem.accepts (Re.Plus Re.not_word) sep2
    /\ ReSem.accepts DataParser.adjusted_total adj.

Section Rows.
Variable F : Type.


(** What the loop of [latest_grocery_date] reads in a row: nothing, when
    the first cell is empty or its text does not begin with a date; else
    the result of [strptime] on the date that it begins with. *)
Definition row_date (r : Excel.row F) : option (result datetime) :=
  match Excel.first_value r with
  | Excel.VStr (a :: s) =>
      match Re.match_here Excel.DATE_FORMAT_PATTERN (a :: s) with
      | Some (rest, _) =>
          Some (Strptime.strptime Strptime.fmt_dmY
                  (firstn (length (a :: s) - length rest) (a :: s)))
      | None => None
      end
  | _ => None
  end.

(** The rows of one block: the date row, the header row, a row for every
    item, the summary row over the item rows, two empty rows.  [n] is the
    number of rows that the sheet holds before the block. *)
Definition block_rows (n : nat) (date : str) (items : list (str * F))
    : list (Excel.row F) :=
  [[Excel.plain (Excel.VStr date)];
   map (@Excel.plain F) (Excel.header_row F)]
  ++ map (fun it => Excel.item_cells (fst it) (snd it)) items
  ++ [Excel.summary_cells F (n + 3) (n + 2 + length items); []; []].

(** A record and the item that [write_item] makes of it: the name as the
    cell holds it, and the price as the number that [float] gives. *)
Definition parses (float : str -> result F) (rec : DataParser.record)
    (it : str * F) : Prop :=
  exists item_name item_price,
    rec = [item_name; item_price]
    /\ float item_price = Ok (snd it)
    /\ Excel.check_string item_name = Ok (fst it).

(** A document and what the document loop writes of it: the date as the
    cell holds it, and the items. *)
Definition writes (float : str -> result F) (doc : DataParser.document)
    (b : str * list (str * F)) : Prop :=
  Excel.check_string (fst doc) = Ok (fst b)
  /\ Forall2 (parses float) (snd doc) (snd b).

(** The blocks of several documents, one after the other; the first
    begins after row [n]. *)
Fixpoint blocks (n : nat) (bs : list (str * list (str * F)))
    : list (Excel.row F) :=
  match bs with
  | [] => []
  | b :: bs' =>
      block_rows n (fst b) (snd b) ++ blocks (n + 5 + length (snd b)) bs'
  end.

(** The two empty rows that are put before the blocks in a sheet whose
    last row with cells is beyond the fourth. *)
Definition gap (ws : Excel.worksheet F) : list (Excel.row F) :=
  if 4 <? Excel.max_row ws then [[]; []] else [].

(** The rows of a sheet once the blocks of a period are written to it. *)
Definition month_rows (ws : Excel.worksheet F)
    (bs : list (str * list (str * F))) : list (Excel.row F) :=
  Excel.rows ws ++ gap ws
  ++ blocks (length (Excel.rows ws) + length (gap ws)) bs.

End Rows.

End Reading.

(** ** More sample data *)

Module MoreSamples.

(** A path as [download_files] makes it on Windows. *)
Definition receipt_path : str :=
  L "C:\receipts.d\240310_receipt.pdf".

(** A sheet whose first column holds a text that looks like a date and
    names no day of the calendar. *)
Definition february_31_ledger : Excel.dumper Excel.decimal :=
  Excel.Dumper
    [Excel.Worksheet (L "02.2024") [Samples.date_row "31.02.2024"]]
    [Excel.Worksheet (L "02.2024") [Samples.date_row "31.02.2024"]]
    false [].

(** A receipt whose date is written day, slash, month, point, year. *)
Definition mixed_date_doc : str :=
  L "15/03.2024 18:42" ++ Samples.nl ++ L "Milk A 1.000 x 4,50 4,50".

End MoreSamples.

(** * Properties *)

(** ** Strings and loops *)

Lemma str_eqb_eq : forall s t, str_eqb s t = true <-> s = t.
Proof.
  induction s as [|a s IH]; destruct t as [|b t]; simpl; split;
    try congruence; try reflexivity.
  - intro H. apply andb_true_iff in H. destruct H as [H1 H2].
    apply Ascii.eqb_eq in H1. apply IH in H2. congruence.
  - intro H. inversion H; subst. apply andb_true_iff. split.
    + apply Ascii.eqb_refl.
    + apply IH. reflexivity.
Qed.

Lemma str_eqb_refl : forall s, str_eqb s s = true.
Proof. intro s. apply str_eqb_eq. reflexivity. Qed.

Lemma strip_prefix_app : forall p s s',
  strip_prefix p s = Some s' -> s = p ++ s'.
Proof.
  induction p as [|a p IH]; simpl; intros s s' H.
  - congruence.
  - destruct s as [|b s]; [discriminate|].
    destruct (Ascii.eqb a b) eqn:E; [|discriminate].
    apply Ascii.eqb_eq in E. subst b. f_equal. apply IH. exact H.
Qed.

Lemma for_each_snoc : forall (A S : Type) (body : S -> A -> result S) xs x st,
  for_each body (xs ++ [x]) st = (st' <- for_each body xs st ;; body st' x).
Proof.
  induction xs as [|y xs IH]; simpl; intros x st.
  - destruct (body st x); reflexivity.
  - destruct (body st y); simpl; [apply IH | reflexivity].
Qed.

(** A loop that appends one value per element, as long as no turn raises. *)
Lemma for_each_collect : forall (A B : Type) (f : A -> result B) xs acc,
  (forall x, In x xs -> exists y, f x = Ok y) ->
  exists ys,
    for_each (fun a x => y <- f x ;; Ok (a ++ [y])) xs acc = Ok (acc ++ ys)
    /\ length ys = length xs
    /\ Forall2 (fun x y => f x = Ok y) xs ys.
Proof.
  induction xs as [|x xs IH]; simpl; intros acc H.
  - exists []. rewrite app_nil_r. auto.
  - destruct (H x (or_introl eq_refl)) as [y Hy]. rewrite Hy. simpl.
    destruct (IH (acc ++ [y])) as [ys [E [Hl HF]]].
    + intros z Hz. apply H. right. exact Hz.
    + exists (y :: ys). rewrite E, <- app_assoc. simpl. auto.
Qed.

(** The first turn that raises ends the loop with its exception. *)
Lemma for_each_raise : forall (A B : Type) (f : A -> result B) e xs acc,
  (forall x, In x xs -> (exists y, f x = Ok y) \/ f x = Raise e) ->
  (exists x, In x xs /\ f x = Raise e) ->
  for_each (fun a x => y <- f x ;; Ok (a ++ [y])) xs acc = Raise e.
Proof.
  induction xs as [|x xs IH]; simpl; intros acc Hall [z [Hin Hz]].
  - contradiction.
  - destruct (Hall x (or_introl eq_refl)) as [[y Hy] | Hr].
    + rewrite Hy. simpl. apply IH.
      * intros u Hu. apply Hall. right. exact Hu.
      * destruct Hin as [-> | Hin]; [congruence|]. exists z. auto.
    + rewrite Hr. reflexivity.
Qed.

(** ** Soundness of the matcher *)

Module ReFacts.
Import Re ReSem.

Lemma many_sound : forall (A : Type) p s (k : str -> option A) x,
  many p s k = Some x ->
  exists w s', s = w ++ s' /\ forallb p w = true /\ k s' = Some x.
Proof.
  induction s as [|a s IH]; simpl; intros k x H.
  - exists [], []. auto.
  - destruct (p a) eqn:Pa.
    + destruct (many p s k) eqn:E.
      * inversion H; subst. destruct (IH k x E) as [w [s' [E1 [E2 E3]]]].
        exists (a :: w), s'. simpl. rewrite Pa, E2. subst s. auto.
      * exists [], (a :: s). auto.
    + exists [], (a :: s). auto.
Qed.

Lemma firstn_consumed : forall (w s' : str),
  firstn (length (w ++ s') - length s') (w ++ s') = w.
Proof.
  intros w s'. rewrite length_app.
  replace (length w + length s' - length s') with (length w) by lia.
  rewrite firstn_app, Nat.sub_diag, firstn_all. simpl. apply app_nil_r.
Qed.

(** Whatever the matcher finds is a possible match: the text splits into
    the part consumed and the rest handed to the continuation. *)
Lemma exec_sound : forall (A : Type) r s c (k : str -> caps -> option A) x,
  exec r s c k = Some x ->
  exists w s' c', s = w ++ s' /\ matches r c w c' /\ k s' c' = Some x.
Proof.
  induction r as [|p|l|r1 IH1 r2 IH2|r1 IH1 r2 IH2|r1 IH1|p|n r1 IH1];
    simpl; intros s c k x H.
  - exists [], s, c. repeat split; auto. constructor.
  - destruct s as [|a s]; [discriminate|].
    destruct (p a) eqn:Pa; [|discriminate].
    exists [a], s, c. repeat split; auto. constructor. exact Pa.
  - destruct (strip_prefix l s) as [s'|] eqn:E; [|discriminate].
    exists l, s', c. repeat split; auto.
    + apply strip_prefix_app. exact E.
    + constructor.
  - apply IH1 in H. destruct H as [w1 [s1 [c1 [E1 [M1 H]]]]].
    apply IH2 in H. destruct H as [w2 [s2 [c2 [E2 [M2 H]]]]].
    exists (w1 ++ w2), s2, c2. subst. rewrite <- app_assoc.
    repeat split; auto. econstructor; eauto.
  - destruct (exec r1 s c k) eqn:E.
    + inversion H; subst. apply IH1 in E.
      destruct E as [w [s' [c' [E1 [M1 E]]]]].
      exists w, s', c'. repeat split; auto. apply M_AltL. exact M1.
    + apply IH2 in H. destruct H as [w [s' [c' [E1 [M1 H]]]]].
      exists w, s', c'. repeat split; auto. apply M_AltR. exact M1.
  - destruct (exec r1 s c k) eqn:E.
    + inversion H; subst. apply IH1 in E.
      destruct E as [w [s' [c' [E1 [M1 E]]]]].
      exists w, s', c'. repeat split; auto. apply M_OptSome. exact M1.
    + exists [], s, c. repeat split; auto. apply M_OptNone.
  - destruct s as [|a s]; [discriminate|].
    destruct (p a) eqn:Pa; [|discriminate].
    apply many_sound in H. destruct H as [w [s' [E1 [E2 H]]]].
    exists (a :: w), s', c. subst s. repeat split; auto.
    apply M_Plus; [discriminate|]. simpl. rewrite Pa, E2. reflexivity.
  - apply IH1 in H. destruct H as [w [s' [c' [E1 [M1 H]]]]].
    exists w, s', ((n, w) :: c'). subst s.
    rewrite firstn_consumed in H. repeat split; auto.
    constructor. exact M1.
Qed.

Lemma strip_prefix_self : forall p s, strip_prefix p (p ++ s) = Some s.
Proof.
  induction p as [|a p IH]; simpl; intro s; [reflexivity|].
  rewrite Ascii.eqb_refl. apply IH.
Qed.

Lemma many_base : forall (A : Type) p s (k : str -> option A),
  k s <> None -> many p s k <> None.
Proof.
  intros A p [|a s] k H; simpl; [exact H|].
  destruct (p a); [|exact H].
  destruct (many p s k); [discriminate | exact H].
Qed.

Lemma many_complete : forall (A : Type) p w s (k : str -> option A),
  forallb p w = true -> k s <> None -> many p (w ++ s) k <> None.
Proof.
  induction w as [|a w IH]; intros s k Hw Hk.
  - apply many_base. exact Hk.
  - simpl in Hw. apply andb_true_iff in Hw. destruct Hw as [Pa Hw].
    simpl. rewrite Pa. specialize (IH s k Hw Hk).
    destruct (many p (w ++ s) k); [discriminate | contradiction].
Qed.

(** The matcher misses no match: where the pattern can consume a text
    after which the continuation succeeds, the matcher succeeds, perhaps
    with a match that it prefers. *)
Lemma exec_complete : forall (A : Type) r c w c',
  matches r c w c' ->
  forall s (k : str -> caps -> option A),
    k s c' <> None -> exec r (w ++ s) c k <> None.
Proof.
  induction 1 as [c|p a c Pa|l c|r1 r2 c w1 c1 w2 c2 _ IH1 _ IH2
                 |r1 r2 c w c' _ IH|r1 r2 c w c' _ IH|r c w c' _ IH|r c
                 |p w c Hne Hw|n r c w c' _ IH];
    intros s k Hk; cbn [exec app].
  - exact Hk.
  - rewrite Pa. exact Hk.
  - rewrite strip_prefix_self. exact Hk.
  - rewrite <- app_assoc. apply IH1. apply IH2. exact Hk.
  - specialize (IH s k Hk).
    destruct (exec r1 (w ++ s) c k); [discriminate | contradiction].
  - destruct (exec r1 (w ++ s) c k); [discriminate|]. apply IH. exact Hk.
  - specialize (IH s k Hk).
    destruct (exec r (w ++ s) c k); [discriminate | contradiction].
  - destruct (exec r s c k); [discriminate | exact Hk].
  - destruct w as [|a w]; [congruence|].
    cbn [forallb] in Hw. apply andb_true_iff in Hw. destruct Hw as [Pa Hw].
    cbn [app]. rewrite Pa. apply many_complete; assumption.
  - apply IH. rewrite firstn_consumed. exact Hk.
Qed.

Lemma match_here_complete : forall r w c rest,
  matches r [] w c -> match_here r (w ++ rest) <> None.
Proof.
  intros r w c rest M. unfold match_here.
  eapply exec_complete; [exact M | discriminate].
Qed.

Lemma match_here_sound : forall r s rest c,
  match_here r s = Some (rest, c) ->
  exists w, s = w ++ rest /\ matches r [] w c.
Proof.
  unfold match_here. intros r s rest c H. apply exec_sound in H.
  destruct H as [w [s' [c' [E [M H]]]]]. inversion H; subst.
  exists w. auto.
Qed.

(** A pattern without groups leaves the bindings alone. *)
Lemma matches_no_group : forall r c w c',
  matches r c w c' -> has_group r = false -> c' = c.
Proof.
  induction 1; simpl; intro G; auto; try discriminate.
  - apply orb_false_iff in G. destruct G as [G1 G2].
    rewrite IHmatches2, IHmatches1; auto.
  - apply orb_false_iff in G. destruct G. auto.
  - apply orb_false_iff in G. destruct G. auto.
Qed.

(** A pattern that is not nullable consumes something. *)
Lemma matches_nonempty : forall r c w c',
  matches r c w c' -> nullable r = false -> w <> [].
Proof.
  induction 1; simpl; intro G; try discriminate; auto.
  - destruct l; [discriminate | discriminate].
  - apply andb_false_iff in G. destruct G as [G|G].
    + intro E. apply app_eq_nil in E. destruct E. apply IHmatches1; auto.
    + intro E. apply app_eq_nil in E. destruct E. apply IHmatches2; auto.
  - apply orb_false_iff in G. destruct G. auto.
  - apply orb_false_iff in G. destruct G. auto.
Qed.

Lemma matches_Cat_inv : forall r1 r2 c w c2,
  matches (Cat r1 r2) c w c2 ->
  exists w1 w2 c1, w = w1 ++ w2 /\ matches r1 c w1 c1 /\ matches r2 c1 w2 c2.
Proof. intros r1 r2 c w c2 H. inversion H; subst. eauto 8. Qed.

Lemma matches_Grp_inv : forall n r c w c2,
  matches (Grp n r) c w c2 ->
  exists c1, c2 = (n, w) :: c1 /\ matches r c w c1.
Proof. intros n r c w c2 H. inversion H; subst. eauto. Qed.

Lemma matches_Plus_inv : forall p c w c2,
  matches (Plus p) c w c2 -> c2 = c /\ w <> [] /\ forallb p w = true.
Proof. intros p c w c2 H. inversion H; subst. auto. Qed.

End ReFacts.

(** ** The matches of [finditer] *)

Module FinditerFacts.
Import Re ReSem ReFacts.

Lemma match_here_progress : forall r s rest c,
  nullable r = false -> match_here r s = Some (rest, c) ->
  length rest < length s.
Proof.
  intros r s rest c N H. apply match_here_sound in H.
  destruct H as [w [E M]]. apply matches_nonempty in M; auto.
  subst s. rewrite length_app. destruct w; [congruence | simpl; lia].
Qed.

Lemma finditer_from_cons : forall r pos a s,
  finditer_from r pos 0 (a :: s) =
  match match_here r (a :: s) with
  | Some (rest, c) =>
      Match pos (pos + (length (a :: s) - length rest)) c
        :: finditer_from r (S pos) (pred (length (a :: s) - length rest)) s
  | None => finditer_from r (S pos) 0 s
  end.
Proof. intros. simpl. destruct (match_here r (a :: s)) as [[? ?]|]; reflexivity. Qed.

(** Every match that [finditer] reports is the match of the pattern at
    its start position, and the matches follow one another. *)
Lemma finditer_from_spec : forall r, nullable r = false ->
  forall s pos skip,
    in_sequence (pos + skip) (finditer_from r pos skip s)
    /\ Forall (fun mt =>
                 pos <= m_start mt
                 /\ exists rest,
                      match_here r (skipn (m_start mt - pos) s)
                        = Some (rest, m_caps mt)
                      /\ m_end mt = m_start mt
                           + (length (skipn (m_start mt - pos) s) - length rest))
              (finditer_from r pos skip s).
Proof.
  intros r N. induction s as [|a s IH]; intros pos skip.
  - destruct skip; simpl; [|split; [exact I | constructor]].
    destruct (match_here r []) as [[rest c]|] eqn:E;
      [|split; [exact I | constructor]].
    apply match_here_progress in E; auto. simpl in E. lia.
  - destruct skip as [|k].
    + rewrite finditer_from_cons.
      destruct (match_here r (a :: s)) as [[rest c]|] eqn:E.
      * pose proof (match_here_progress _ _ N E) as P.
        remember (length (a :: s) - length rest) as n eqn:En.
        assert (Hn : 0 < n) by lia.
        destruct (IH (S pos) (pred n)) as [Hs HF].
        split.
        -- simpl. repeat split; try lia.
           replace (pos + n) with (S pos + pred n) by lia.
           exact Hs.
        -- constructor.
           ++ cbn [m_start m_end m_caps]. split; [lia|]. exists rest.
              rewrite Nat.sub_diag. cbn [skipn].
              split; [exact E | congruence].
           ++ eapply Forall_impl; [|exact HF].
              intros mt [Hp [rest' [Hm He]]]. split; [lia|].
              exists rest'.
              replace (m_start mt - pos) with (S (m_start mt - S pos)) by lia.
              simpl. auto.
      * destruct (IH (S pos) 0) as [Hs HF]. split.
        -- destruct (finditer_from r (S pos) 0 s) as [|mt ms]; [exact I|].
           simpl in *. repeat split; try tauto; lia.
        -- eapply Forall_impl; [|exact HF].
           intros mt [Hp [rest' [Hm He]]]. split; [lia|].
           exists rest'.
           replace (m_start mt - pos) with (S (m_start mt - S pos)) by lia.
           simpl. auto.
    + simpl. destruct (IH (S pos) k) as [Hs HF]. split.
      * replace (pos + S k) with (S pos + k) by lia. exact Hs.
      * eapply Forall_impl; [|exact HF].
        intros mt [Hp [rest' [Hm He]]]. split; [lia|].
        exists rest'.
        replace (m_start mt - pos) with (S (m_start mt - S pos)) by lia.
        simpl. auto.
Qed.


(** The text of a reported match is what the pattern consumed there. *)
Lemma finditer_match : forall r doc mt,
  nullable r = false -> In mt (finditer r doc) ->
  exists rest,
    match_here r (skipn (m_start mt) doc) = Some (rest, m_caps mt)
    /\ skipn (m_start mt) doc = span doc mt ++ rest
    /\ matches r [] (span doc mt) (m_caps mt).
Proof.
  intros r doc mt N Hin.
  destruct (@finditer_from_spec r N doc 0 0) as [_ HF].
  rewrite Forall_forall in HF. destruct (HF mt Hin) as [_ [rest [Hm He]]].
  rewrite Nat.sub_0_r in Hm, He. exists rest. split; [exact Hm|].
  destruct (match_here_sound _ _ Hm) as [w [E M]].
  assert (S : span doc mt = w).
  { unfold span. rewrite He, E.
    replace (m_start mt + (length (w ++ rest) - length rest) - m_start mt)
      with (length (w ++ rest) - length rest) by lia.
    apply firstn_consumed. }
  rewrite S. auto.
Qed.

End FinditerFacts.

(** ** The record pattern *)

Module ParserFacts.
Import Re ReSem ReFacts FinditerFacts DataParser.

Lemma matches_accepts : forall r c w c',
  matches r c w c' -> has_group r = false -> forall d, matches r d w d.
Proof.
  induction 1; simpl; intros G d; try discriminate.
  - constructor.
  - constructor. assumption.
  - constructor.
  - apply orb_false_iff in G. destruct G. econstructor; eauto.
  - apply orb_false_iff in G. destruct G. apply M_AltL. auto.
  - apply orb_false_iff in G. destruct G. apply M_AltR. auto.
  - apply M_OptSome. auto.
  - apply M_OptNone.
  - apply M_Plus; assumption.
Qed.

Ltac split_cat H :=
  let w1 := fresh "w" in
  let w2 := fresh "w" in
  let c1 := fresh "c" in
  let E := fresh "E" in
  let M := fresh "M" in
  apply matches_Cat_inv in H; destruct H as [w1 [w2 [c1 [E [M H]]]]].

Ltac no_group M :=
  let E := fresh "E" in
  let A := fresh "A" in
  pose proof (matches_no_group M eq_refl) as E;
  pose proof (matches_accepts M eq_refl []) as A;
  clear M.

(** A match of the first alternative reads: name, item fields, line
    total, separator, optional page break, discount line, separator,
    adjusted total; groups 1 and 2 are the name and the adjusted total. *)
Lemma discounted_shape : forall w c,
  matches discounted [] w c ->
  exists name fields total sep1 pb rabat sep2 adj,
    w = name ++ fields ++ total ++ sep1 ++ pb ++ rabat ++ sep2 ++ adj
    /\ c = [(2, adj); (1, name)]
    /\ accepts name_part name /\ accepts item_fields fields
    /\ accepts comma_total total /\ accepts (Plus not_word) sep1
    /\ accepts page_break pb /\ accepts rabat_line rabat
    /\ accepts (Plus not_word) sep2 /\ accepts adjusted_total adj.
Proof.
  unfold discounted. cbn [cat]. intros w c H.
  do 7 split_cat H.
  apply matches_Grp_inv in M. destruct M as [c7 [Ec M]].
  apply matches_Grp_inv in H. destruct H as [c8 [Ec' H]].
  no_group M. no_group M0. no_group M1. no_group M2. no_group M3.
  no_group M4. no_group M5. no_group H.
  subst. exists w0, w2, w4, w6, w8, w10, w12, w13.
  unfold accepts. repeat split; auto.
Qed.

(** A match of the second alternative: name, item fields, line total;
    groups 3 and 4 are the name and the line total. *)
Lemma plain_shape : forall w c,
  matches plain [] w c ->
  exists name fields total,
    w = name ++ fields ++ total
    /\ c = [(4, total); (3, name)]
    /\ accepts name_part name /\ accepts item_fields fields
    /\ accepts line_total total.
Proof.
  unfold plain. cbn [cat]. intros w c H.
  do 2 split_cat H.
  apply matches_Grp_inv in M. destruct M as [c7 [Ec M]].
  apply matches_Grp_inv in H. destruct H as [c8 [Ec' H]].
  no_group M. no_group M0. no_group H.
  subst. exists w0, w2, w3. unfold accepts. repeat split; auto.
Qed.

Lemma RECORD_PATTERN_not_nullable : nullable RECORD_PATTERN = false.
Proof. reflexivity. Qed.

(** The first alternative has priority wherever it matches. *)
Lemma discounted_first : forall s r,
  match_here discounted s = Some r -> match_here RECORD_PATTERN s = Some r.
Proof.
  unfold match_here, RECORD_PATTERN. intros s r H.
  cbn [exec]. fold discounted. rewrite H. reflexivity.
Qed.

Lemma record_match_cases : forall s rest c,
  match_here RECORD_PATTERN s = Some (rest, c) ->
  match_here discounted s = Some (rest, c)
  \/ (match_here discounted s = None /\ match_here plain s = Some (rest, c)).
Proof.
  unfold match_here, RECORD_PATTERN. intros s rest c H. cbn [exec] in H.
  destruct (exec discounted s [] (fun s' c0 => Some (s', c0))) eqn:E.
  - left. exact H.
  - right. split; [reflexivity | exact H].
Qed.

(** Every match of [RECORD_PATTERN] gives one record of two strings. *)
Lemma record_of_match : forall doc mt,
  In mt (finditer RECORD_PATTERN doc) ->
  exists name price,
    normalize_price (non_none_groups mt)
      = Ok [name; replace (L ",") (L ".") price]
    /\ (m_caps mt = [(2, price); (1, name)]
        \/ m_caps mt = [(4, price); (3, name)]).
Proof.
  intros doc mt Hin.
  destruct (@finditer_match _ doc mt RECORD_PATTERN_not_nullable Hin)
    as [rest [Hm [_ _]]].
  destruct (@record_match_cases _ _ _ Hm) as [Hd | [_ Hp]].
  - apply match_here_sound in Hd. destruct Hd as [w [_ M]].
    apply discounted_shape in M.
    destruct M as [name [? [? [? [? [? [? [adj [_ [Ec _]]]]]]]]]].
    exists name, adj. unfold non_none_groups. rewrite Ec. simpl. auto.
  - apply match_here_sound in Hp. destruct Hp as [w [_ M]].
    apply plain_shape in M.
    destruct M as [name [? [total [_ [Ec _]]]]].
    exists name, total. unfold non_none_groups. rewrite Ec. simpl. auto.
Qed.

(** The record loop never raises. *)
Lemma doc_records_total : forall doc,
  exists recs,
    doc_records doc = Ok recs
    /\ length recs = length (finditer RECORD_PATTERN doc)
    /\ Forall2 (fun mt rec => normalize_price (non_none_groups mt) = Ok rec)
               (finditer RECORD_PATTERN doc) recs.
Proof.
  intro doc. unfold doc_records.
  destruct (@for_each_collect _ _
              (fun mt => normalize_price (non_none_groups mt))
              (finditer RECORD_PATTERN doc) [])
    as [ys [E [Hl HF]]].
  - intros mt Hin. destruct (@record_of_match doc mt Hin) as [n [p [H _]]].
    eauto.
  - exists ys. simpl in E. auto.
Qed.

Lemma Forall2_in_l : forall (A B : Type) (P Q : A -> B -> Prop) xs ys,
  Forall2 P xs ys ->
  (forall x y, In x xs -> P x y -> Q x y) ->
  Forall2 Q xs ys.
Proof.
  induction 1; intros HPQ; constructor.
  - apply HPQ; [left; reflexivity | assumption].
  - apply IHForall2. intros u v Hu. apply HPQ. right. exact Hu.
Qed.

End ParserFacts.

(** ** The extractor *)

Section Extractor.
Import Re ReSem ReFacts FinditerFacts DataParser ParserFacts.

(** The price of the item of [page_break_doc] is the adjusted total. *)
Example discounted_price_example :
  doc_records Samples.page_break_doc = Ok [[L "Milk"; L "3.50"]]
  /\ match_here discounted Samples.page_break_doc <> None.
Proof. split; [reflexivity | discriminate]. Qed.

(** Claim C1 fails as it is stated: in the three texts an item line is
    followed by a discount line and the adjusted total 3,50, and the price
    that the extractor captures is the line total 4.50.  The line total
    is written with a point in the first; the page-break line begins with
    the word Strona in the second and ends with it in the third. *)
Lemma C1_line_total_captured :
  doc_records Samples.dotted_total_doc = Ok [[L "Ser"; L "4.50"]]
  /\ doc_records Samples.bare_page_break_doc = Ok [[L "Milk"; L "4.50"]]
  /\ doc_records Samples.trailing_page_break_doc = Ok [[L "Milk"; L "4.50"]]
  /\ L "4.50" <> replace (L ",") (L ".") (L "3,50").
Proof. repeat split; try reflexivity. discriminate. Qed.


(** The date pattern binds its group 1 in every match. *)
Lemma date_group_bound : forall s rest c,
  match_here DATE_PATTERN s = Some (rest, c) ->
  exists date, c = [(1, date)].
Proof.
  intros s rest c H. apply match_here_sound in H. destruct H as [w [_ M]].
  unfold DATE_PATTERN in M. cbn [cat] in M.
  do 2 split_cat M.
  apply matches_Grp_inv in M0. destruct M0 as [c2 [Ec M0]].
  no_group M0. no_group M1. no_group M. subst. eauto.
Qed.

Lemma search_from_some : forall r s pos mt,
  search_from r pos s = Some mt ->
  exists k rest, match_here r (skipn k s) = Some (rest, m_caps mt).
Proof.
  induction s as [|a s IH]; intros pos mt H; simpl in H.
  - destruct (match_here r []) as [[rest c]|] eqn:E; [|discriminate].
    inversion H; subst. exists 0, rest. exact E.
  - destruct (match_here r (a :: s)) as [[rest c]|] eqn:E.
    + inversion H; subst. exists 0, rest. exact E.
    + apply IH in H. destruct H as [k [rest H]]. exists (S k), rest. exact H.
Qed.

(** A document is parsed unless it has no date, and then the exception is
    [AttributeError]. *)
Lemma parse_document_cases : forall doc,
  match search DATE_PATTERN doc with
  | None => parse_document doc = Raise AttributeError
  | Some mt =>
      exists date recs,
        m_caps mt = [(1, date)]
        /\ doc_records doc = Ok recs
        /\ parse_document doc = Ok (date, recs)
  end.
Proof.
  intro doc. unfold parse_document.
  destruct (search DATE_PATTERN doc) as [mt|] eqn:E; [|reflexivity].
  destruct (search_from_some _ _ _ E) as [k [rest H]].
  destruct (date_group_bound _ H) as [date Ec].
  destruct (doc_records_total doc) as [recs [Er _]].
  exists date, recs. rewrite Ec, Er. simpl. auto.
Qed.

(** Claim C2, as amended.  A document in which nothing matches the date
    pattern is not dropped: it ends [parse_data_from_pdf] with an
    [AttributeError], and the call returns no result for any document of
    the batch. *)
Theorem C2_missing_date_aborts_batch : forall documents doc,
  In doc documents ->
  search DATE_PATTERN doc = None ->
  parse_data_from_pdf documents = Raise AttributeError.
Proof.
  intros documents doc Hin Hnone. unfold parse_data_from_pdf.
  apply for_each_raise.
  - intros d _. pose proof (parse_document_cases d) as H.
    destruct (search DATE_PATTERN d).
    + left. destruct H as [date [recs [_ [_ H]]]]. eauto.
    + right. exact H.
  - exists doc. split; [exact Hin|].
    pose proof (parse_document_cases doc) as H. rewrite Hnone in H. exact H.
Qed.

Lemma C2_missing_date_aborts_batch_witness :
  parse_data_from_pdf [Samples.receipt_doc; Samples.no_date_doc]
    = Raise AttributeError.
Proof.
  apply (@C2_missing_date_aborts_batch
           [Samples.receipt_doc; Samples.no_date_doc] Samples.no_date_doc).
  - simpl. auto.
  - reflexivity.
Defined.

(** Claim C2 fails as it is stated: the dated receipt that comes after the
    undated text is not parsed; the batch gives no result at all, while
    the receipt alone gives one. *)
Lemma C2_batch_aborted :
  parse_data_from_pdf [Samples.no_date_doc; Samples.receipt_doc]
    = Raise AttributeError
  /\ parse_data_from_pdf [Samples.receipt_doc]
     = Ok [(L "15.03.2024",
            [[L "Milk"; L "4.50"]; [L "Bread"; L "11.00"]])].
Proof. split; reflexivity. Qed.

(** When every document has a date, every document is parsed. *)
Lemma parse_data_from_pdf_total : forall documents,
  (forall doc, In doc documents -> search DATE_PATTERN doc <> None) ->
  exists data,
    parse_data_from_pdf documents = Ok data
    /\ length data = length documents.
Proof.
  intros documents H. unfold parse_data_from_pdf.
  destruct (@for_each_collect _ _ parse_document documents [])
    as [ys [E [Hl _]]].
  - intros d Hd. pose proof (parse_document_cases d) as P.
    destruct (search DATE_PATTERN d) eqn:S.
    + destruct P as [date [recs [_ [_ P]]]]. eauto.
    + exfalso. apply (H d Hd). exact S.
  - exists ys. simpl in E. auto.
Qed.

End Extractor.

(** ** The sync plan *)

Section SyncPlan.
Import SyncSpec GoogleDrive.

Lemma dt_eqb_eq : forall a b, dt_eqb a b = true -> a = b.
Proof.
  intros [y1 m1 d1 h1 mi1 s1 u1] [y2 m2 d2 h2 mi2 s2 u2]. unfold dt_eqb.
  simpl. intro H. repeat (apply andb_true_iff in H; destruct H as [H ?]).
  repeat match goal with
         | E : (_ =? _)%N = true |- _ => apply N.eqb_eq in E
         end.
  congruence.
Qed.

Lemma is_digit_in_digits : forall a, Re.is_digit a = true -> In a digits.
Proof.
  intros [b0 b1 b2 b3 b4 b5 b6 b7] H.
  destruct b0, b1, b2, b3, b4, b5, b6, b7; vm_compute in H;
    try discriminate H; vm_compute;
    repeat (first [left; reflexivity | right]).
Qed.

Lemma forallb_digits : forall f : ascii -> bool,
  forallb f digits = true -> forall a, Re.is_digit a = true -> f a = true.
Proof.
  intros f H a D. rewrite forallb_forall in H. apply H.
  apply is_digit_in_digits. exact D.
Qed.

(** [strptime] agrees with [prefix_date] on all prefixes of six digits:
    checked by running it on each of them that names a month. *)
Lemma agrees_everywhere :
  forallb (fun y1 => forallb (fun y2 => forallb (fun m1 => forallb (fun m2 =>
    if month_ok m1 m2
    then forallb (fun d1 => forallb (fun d2 =>
           agrees [y1; y2; m1; m2; d1; d2]) digits) digits
    else true)
  digits) digits) digits) digits = true.
Proof. vm_cast_no_check (eq_refl true). Qed.

Lemma agrees_six : forall y1 y2 m1 m2 d1 d2,
  Re.is_digit y1 = true -> Re.is_digit y2 = true ->
  Re.is_digit m1 = true -> Re.is_digit m2 = true ->
  Re.is_digit d1 = true -> Re.is_digit d2 = true ->
  month_ok m1 m2 = true ->
  agrees [y1; y2; m1; m2; d1; d2] = true.
Proof.
  intros y1 y2 m1 m2 d1 d2 H1 H2 H3 H4 H5 H6 Hm.
  pose proof (forallb_digits _
               (forallb_digits _
                 (forallb_digits _
                   (forallb_digits _ agrees_everywhere y1 H1) y2 H2)
                 m1 H3) m2 H4) as G.
  cbv beta in G. rewrite Hm in G.
  exact (forallb_digits _ (forallb_digits _ G d1 H5) d2 H6).
Qed.

(** On a prefix of six digits that names a day, [strptime] returns
    midnight of that day of the year 20YY. *)
Lemma strptime_prefix : forall p,
  valid_yymmdd p = true ->
  Strptime.strptime Strptime.fmt_Ymd (L "20" ++ p) = Ok (prefix_date p).
Proof.
  intros p V.
  assert (A : agrees p = true).
  { pose proof V as V'. unfold valid_yymmdd in V'.
    destruct p as [|y1 [|y2 [|m1 [|m2 [|d1 [|d2 [|? ?]]]]]]];
      try discriminate V'.
    apply andb_true_iff in V'. destruct V' as [V' _].
    apply andb_true_iff in V'. destruct V' as [D Hm].
    rewrite forallb_forall in D.
    apply agrees_six; try exact Hm; apply D; simpl; auto 7. }
  unfold agrees in A. rewrite V in A.
  destruct (Strptime.strptime Strptime.fmt_Ymd (L "20" ++ p)) as [d|e];
    [|discriminate A].
  apply dt_eqb_eq in A. congruence.
Qed.

(** [strptime] raises nothing but [ValueError]. *)
Lemma strptime_raises_ValueError : forall fmt s e,
  Strptime.strptime fmt s = Raise e -> e = ValueError.
Proof.
  intros fmt s e. unfold Strptime.strptime.
  destruct (Re.match_here fmt s) as [[[|? ?] c]|]; try congruence.
  destruct (Re.group c 1), (Re.group c 2), (Re.group c 3); try congruence.
  match goal with |- context [if ?b then _ else _] => destruct b end;
    congruence.
Qed.

Lemma compare_dates_from : forall cutoff items acc,
  (forall it, In it items -> valid_yymmdd (firstn 6 (name it)) = true) ->
  for_each (fun groceries_after_threshold item =>
              d <- file_grocery_date item ;;
              Ok (if dt_gtb d cutoff
                  then groceries_after_threshold ++ [item]
                  else groceries_after_threshold))
           items acc
  = Ok (acc ++ filter (fun it => dt_gtb (prefix_date (firstn 6 (name it)))
                                        cutoff) items).
Proof.
  induction items as [|it items IH]; intros acc V; cbn [for_each filter].
  - rewrite app_nil_r. reflexivity.
  - unfold file_grocery_date at 1.
    rewrite (strptime_prefix _ (V it (or_introl eq_refl))). cbn [bind].
    rewrite IH by (intros; apply V; right; assumption).
    destruct (dt_gtb (prefix_date (firstn 6 (name it))) cutoff).
    + rewrite <- app_assoc. reflexivity.
    + reflexivity.
Qed.

Lemma filter_filter : forall (A : Type) (f g : A -> bool) l,
  filter f (filter g l) = filter (fun x => g x && f x) l.
Proof.
  induction l as [|x l IH]; simpl; [reflexivity|].
  destruct (g x); simpl; [destruct (f x)|]; rewrite IH; reflexivity.
Qed.

(** A file counts as present when some directory of the staging area
    holds its name with every [.pdf] replaced by [.txt]. *)
Lemma is_in_local_dir_spec : forall f w,
  is_in_local_dir f w = true <->
  exists files,
    In files w /\ In (replace (L ".pdf") (L ".txt") (name f)) files.
Proof.
  intros f w. unfold is_in_local_dir. rewrite existsb_exists.
  split; intros [files [H1 H2]]; exists files; split; auto.
  - rewrite existsb_exists in H2. destruct H2 as [x [Hx E]].
    apply str_eqb_eq in E. congruence.
  - rewrite existsb_exists. eexists. split; [exact H2|]. apply str_eqb_refl.
Qed.

(** Claim C4, as amended.  For a listing of files whose names begin with
    six digits YYMMDD naming a day, the plan is the listing, in its order,
    restricted to exactly the files whose day 20YY-MM-DD is strictly
    after the cutoff and whose name, with [.pdf] replaced by [.txt], is
    the name of no file of a local directory. *)
Theorem C4_sync_plan : forall items cutoff w,
  (forall it, In it items -> valid_yymmdd (firstn 6 (name it)) = true) ->
  exists keep,
    validate_to_download items cutoff w = Ok (filter keep items)
    /\ forall it, keep it = true <-> planned cutoff w it.
Proof.
  intros items cutoff w V.
  exists (fun it => dt_gtb (prefix_date (firstn 6 (name it))) cutoff
                    && negb (is_in_local_dir it w)).
  split.
  - unfold validate_to_download, compare_dates.
    rewrite compare_dates_from by exact V. cbn [bind app].
    unfold find_files_missing_locally. rewrite filter_filter. reflexivity.
  - intro it. unfold planned, present_locally.
    rewrite andb_true_iff, negb_true_iff, <- (is_in_local_dir_spec it w).
    destruct (is_in_local_dir it w); intuition congruence.
Qed.

(** The two scenarios of the specification, and a third: the receipt of
    10 March 2024 is planned with the cutoff 1 March and not with the
    cutoff 15 March, and it is not planned either when a local folder
    holds its text. *)
Lemma C4_sync_plan_witness :
  validate_to_download [Samples.receipt_file] (Datetime 2024 3 1 0 0 0 0) []
    = Ok [Samples.receipt_file]
  /\ validate_to_download [Samples.receipt_file] (Datetime 2024 3 15 0 0 0 0) []
     = Ok []
  /\ validate_to_download [Samples.receipt_file] (Datetime 2024 3 1 0 0 0 0)
                          Samples.staged
     = Ok [].
Proof.
  assert (V : forall it, In it [Samples.receipt_file] ->
                valid_yymmdd (firstn 6 (name it)) = true)
    by (intros it [<- | []]; reflexivity).
  split; [|split].
  - destruct (@C4_sync_plan [Samples.receipt_file]
                (Datetime 2024 3 1 0 0 0 0) [] V) as [keep [E K]].
    rewrite E. cbn [filter].
    rewrite (proj2 (K Samples.receipt_file)); [reflexivity|].
    split; [reflexivity|]. intros [files [[] _]].
  - destruct (@C4_sync_plan [Samples.receipt_file]
                (Datetime 2024 3 15 0 0 0 0) [] V) as [keep [E K]].
    rewrite E. cbn [filter].
    destruct (keep Samples.receipt_file) eqn:Kp; [|reflexivity].
    apply K in Kp. destruct Kp as [Kp _]. discriminate Kp.
  - destruct (@C4_sync_plan [Samples.receipt_file]
                (Datetime 2024 3 1 0 0 0 0) Samples.staged V)
      as [keep [E K]].
    rewrite E. cbn [filter].
    destruct (keep Samples.receipt_file) eqn:Kp; [|reflexivity].
    apply K in Kp. destruct Kp as [_ Kp]. exfalso. apply Kp.
    exists [L "240310_receipt.txt"]. split; left; reflexivity.
Defined.

(** Claim C4 fails as it is stated, for every listing: the name of
    [short_name_file] does not begin with six digits, and the file is
    planned, with the date 1 November 2024 that [strptime] reads from
    ['20' + '24111']; the name of [unnamed_file] has no digit, and with it
    in the listing there is no plan at all. *)
Lemma C4_names_without_date_prefix :
  yymmdd (firstn 6 (name Samples.short_name_file)) = None
  /\ file_grocery_date Samples.short_name_file
     = Ok (Datetime 2024 11 1 0 0 0 0)
  /\ validate_to_download [Samples.short_name_file]
                          (Datetime 2024 3 1 0 0 0 0) []
     = Ok [Samples.short_name_file]
  /\ validate_to_download [Samples.unnamed_file; Samples.receipt_file]
                          (Datetime 2024 3 1 0 0 0 0) []
     = Raise ValueError.
Proof. repeat split; reflexivity. Qed.

(** Claim C7, as amended.  A file whose name does not begin with a date
    that [strptime] accepts is not skipped: [compare_dates] raises
    [ValueError] and no plan is returned, whatever the other files are. *)
Theorem C7_bad_name_aborts_plan : forall items cutoff w it,
  In it items ->
  file_grocery_date it = Raise ValueError ->
  compare_dates items cutoff = Raise ValueError
  /\ validate_to_download items cutoff w = Raise ValueError.
Proof.
  intros items cutoff w it Hin Hbad.
  assert (C : forall acc,
             for_each (fun groceries_after_threshold item =>
                         d <- file_grocery_date item ;;
                         Ok (if dt_gtb d cutoff
                             then groceries_after_threshold ++ [item]
                             else groceries_after_threshold))
                      items acc = Raise ValueError).
  { clear w. induction items as [|x items IH]; intro acc; [contradiction|].
    cbn [for_each]. destruct (file_grocery_date x) as [d|e] eqn:E; cbn [bind].
    - destruct Hin as [-> | Hin]; [congruence|]. apply IH. exact Hin.
    - apply strptime_raises_ValueError in E. congruence. }
  unfold validate_to_download, compare_dates. rewrite C. split; reflexivity.
Qed.

Lemma C7_bad_name_aborts_plan_witness :
  compare_dates [Samples.receipt_file; Samples.unnamed_file]
                (Datetime 2024 3 1 0 0 0 0) = Raise ValueError
  /\ validate_to_download [Samples.receipt_file; Samples.unnamed_file]
                          (Datetime 2024 3 1 0 0 0 0) [] = Raise ValueError.
Proof.
  apply (@C7_bad_name_aborts_plan
           [Samples.receipt_file; Samples.unnamed_file]
           (Datetime 2024 3 1 0 0 0 0) [] Samples.unnamed_file).
  - simpl. auto.
  - reflexivity.
Defined.

(** Claim C7 fails as it is stated: with a file named [receipt.pdf] in
    the listing there is no plan for the well-named receipt either, which
    alone would be planned. *)
Lemma C7_no_plan_returned :
  validate_to_download [Samples.unnamed_file; Samples.receipt_file]
                       (Datetime 2024 3 1 0 0 0 0) [] = Raise ValueError
  /\ validate_to_download [Samples.receipt_file]
                          (Datetime 2024 3 1 0 0 0 0) []
     = Ok [Samples.receipt_file].
Proof. split; reflexivity. Qed.

End SyncPlan.

(** ** Order on dates and strings *)

Section Orders.

Lemma lex_compare_refl : forall l, lex_compare l l = Eq.
Proof.
  induction l as [|x l IH]; simpl; [reflexivity|].
  rewrite N.compare_refl. exact IH.
Qed.

(** "Not greater" is transitive. *)
Lemma lex_compare_le_trans : forall l1 l2 l3,
  lex_compare l1 l2 <> Gt -> lex_compare l2 l3 <> Gt ->
  lex_compare l1 l3 <> Gt.
Proof.
  induction l1 as [|x l1 IH]; intros [|y l2] [|z l3]; simpl;
    try congruence.
  destruct (N.compare_spec x y), (N.compare_spec y z),
           (N.compare_spec x z); subst; try congruence; try lia;
    try (intros; discriminate); try apply IH.
Qed.

Lemma lex_compare_antisym : forall l1 l2,
  lex_compare l1 l2 = Gt -> lex_compare l2 l1 <> Gt.
Proof.
  induction l1 as [|x l1 IH]; intros [|y l2]; simpl; try congruence.
  destruct (N.compare_spec x y), (N.compare_spec y x); subst;
    try congruence; try lia. apply IH.
Qed.

Lemma dt_gtb_false : forall a b, dt_gtb a b = false <-> dt_compare a b <> Gt.
Proof.
  intros a b. unfold dt_gtb. destruct (dt_compare a b); split;
    congruence.
Qed.

Lemma dt_le_refl : forall a, dt_le a a.
Proof.
  intro a. apply dt_gtb_false. unfold dt_compare.
  rewrite lex_compare_refl. discriminate.
Qed.

Lemma dt_le_trans : forall a b c, dt_le a b -> dt_le b c -> dt_le a c.
Proof.
  unfold dt_le. intros a b c H1 H2. rewrite dt_gtb_false in *.
  unfold dt_compare in *. eapply lex_compare_le_trans; eauto.
Qed.

Lemma dt_gtb_le : forall a b, dt_gtb a b = true -> dt_le b a.
Proof.
  intros a b H. apply dt_gtb_false. unfold dt_gtb in H.
  destruct (dt_compare a b) eqn:E; try discriminate.
  apply lex_compare_antisym. exact E.
Qed.

Lemma str_ltb_irrefl : forall s, str_ltb s s = false.
Proof.
  induction s as [|a s IH]; simpl; [reflexivity|].
  rewrite N.ltb_irrefl. exact IH.
Qed.

Lemma str_ltb_asym : forall s t, str_ltb s t = true -> str_ltb t s = false.
Proof.
  induction s as [|a s IH]; intros [|b t]; simpl; try congruence.
  destruct (N.ltb_spec (code a) (code b)), (N.ltb_spec (code b) (code a));
    try congruence; try lia. apply IH.
Qed.

(** "Not smaller" is transitive. *)
Lemma str_ltb_false_trans : forall s t u,
  str_ltb t s = false -> str_ltb u t = false -> str_ltb u s = false.
Proof.
  induction s as [|a s IH]; intros [|b t] [|c u]; simpl; try congruence.
  destruct (N.ltb_spec (code b) (code a)), (N.ltb_spec (code a) (code b)),
           (N.ltb_spec (code c) (code b)), (N.ltb_spec (code b) (code c)),
           (N.ltb_spec (code c) (code a)), (N.ltb_spec (code a) (code c));
    try congruence; try lia. apply IH.
Qed.

End Orders.

(** ** Sorting *)

Section SortFacts.
Variable A : Type.
Variable ltb : A -> A -> bool.

Lemma insert_sorted_perm : forall x l,
  Permutation (insert_sorted ltb x l) (x :: l).
Proof.
  induction l as [|y l IH]; simpl; [apply Permutation_refl|].
  destruct (ltb y x).
  - eapply Permutation_trans; [apply perm_skip; exact IH | apply perm_swap].
  - apply Permutation_refl.
Qed.

(** [sorted] rearranges its argument. *)
Lemma sorted_perm : forall l, Permutation (sorted ltb l) l.
Proof.
  induction l as [|x l IH]; simpl; [apply perm_nil|].
  eapply Permutation_trans; [apply insert_sorted_perm|].
  apply perm_skip. exact IH.
Qed.

Variable K : Type.
Variable key : A -> K.
Variable le : K -> K -> Prop.
Hypothesis le_trans : forall a b c, le a b -> le b c -> le a c.
Hypothesis ltb_le : forall x y, ltb x y = true -> le (key x) (key y).
Hypothesis not_ltb_le : forall x y, ltb x y = false -> le (key y) (key x).

Lemma insert_sorted_sorted : forall x l,
  StronglySorted (fun a b => le (key a) (key b)) l ->
  StronglySorted (fun a b => le (key a) (key b)) (insert_sorted ltb x l).
Proof.
  induction l as [|y l IH]; simpl; intro S.
  - constructor; constructor.
  - inversion S as [|? ? S' Fy]; subst.
    destruct (ltb y x) eqn:E.
    + constructor; [apply IH; exact S'|].
      rewrite Forall_forall in *. intros z Hz.
      apply (Permutation_in _ (insert_sorted_perm x l)) in Hz.
      destruct Hz as [<- | Hz]; [apply ltb_le; exact E | apply Fy; exact Hz].
    + constructor; [exact S|].
      constructor; [apply not_ltb_le; exact E|].
      rewrite Forall_forall in *. intros z Hz.
      eapply le_trans; [apply not_ltb_le; exact E | apply Fy; exact Hz].
Qed.

(** The keys of a sorted list do not decrease. *)
Lemma sorted_sorted : forall l,
  StronglySorted le (map key (sorted ltb l)).
Proof.
  intro l.
  assert (S : StronglySorted (fun a b => le (key a) (key b)) (sorted ltb l)).
  { induction l as [|x l IH]; simpl; [constructor|].
    apply insert_sorted_sorted. exact IH. }
  induction S as [|a l' S' IH Fa]; simpl; constructor; [exact IH|].
  rewrite Forall_forall in *. intros k Hk. apply in_map_iff in Hk.
  destruct Hk as [b [<- Hb]]. apply Fa. exact Hb.
Qed.

End SortFacts.

(** The documents of a period are written by date, the strings compared
    as Python compares them. *)
Lemma sorted_documents_by_date : forall data : list DataParser.document,
  StronglySorted (fun d1 d2 => str_ltb d2 d1 = false)
                 (map fst (sorted document_ltb data))
  /\ Permutation (map fst (sorted document_ltb data)) (map fst data).
Proof.
  intro data. split.
  - apply sorted_sorted.
    + intros a b c H1 H2. eapply str_ltb_false_trans; eauto.
    + intros x y. unfold document_ltb, pair_ltb.
      destruct (str_eqb (fst x) (fst y)) eqn:E.
      * apply str_eqb_eq in E. rewrite E. intros _. apply str_ltb_irrefl.
      * apply str_ltb_asym.
    + intros x y. unfold document_ltb, pair_ltb.
      destruct (str_eqb (fst x) (fst y)) eqn:E.
      * apply str_eqb_eq in E. rewrite E. intros _. apply str_ltb_irrefl.
      * auto.
  - apply Permutation_map. apply sorted_perm.
Qed.

(** ** The order of [sorted] on documents

    Python compares tuples and lists element by element.  On texts this
    is a strict total order, and so it is on lists and pairs built from
    them. *)

Section Lexicographic.
Variable A : Type.
Variables eqb ltb : A -> A -> bool.
Hypothesis eqb_eq : forall a b, eqb a b = true <-> a = b.
Hypothesis ltb_irrefl : forall a, ltb a a = false.
Hypothesis ltb_asym : forall a b, ltb a b = true -> ltb b a = false.
Hypothesis ltb_ntrans : forall a b c,
  ltb b a = false -> ltb c b = false -> ltb c a = false.
Hypothesis ltb_total : forall a b,
  ltb a b = false -> ltb b a = false -> a = b.

Lemma eqb_same : forall a, eqb a a = true.
Proof. intro a. apply eqb_eq. reflexivity. Qed.

Lemma eqb_swap : forall a b, eqb a b = false -> eqb b a = false.
Proof.
  intros a b H. destruct (eqb b a) eqn:E; [|reflexivity].
  apply eqb_eq in E. subst. rewrite eqb_same in H. discriminate H.
Qed.

Lemma list_eqb_eq : forall l1 l2, list_eqb eqb l1 l2 = true <-> l1 = l2.
Proof.
  clear ltb ltb_irrefl ltb_asym ltb_ntrans ltb_total.
  induction l1 as [|a l1 IH]; intros [|b l2]; cbn [list_eqb];
    try (split; [discriminate | congruence]); [tauto|].
  rewrite andb_true_iff, eqb_eq, IH. split.
  - intros [-> ->]. reflexivity.
  - intro E. inversion E. auto.
Qed.

Lemma list_ltb_irrefl : forall l, list_ltb eqb ltb l l = false.
Proof.
  induction l as [|a l IH]; cbn [list_ltb]; [reflexivity|].
  rewrite eqb_same. exact IH.
Qed.

Lemma list_ltb_asym : forall l1 l2,
  list_ltb eqb ltb l1 l2 = true -> list_ltb eqb ltb l2 l1 = false.
Proof.
  induction l1 as [|a l1 IH]; intros [|b l2]; cbn [list_ltb];
    try congruence.
  destruct (eqb a b) eqn:E.
  - apply eqb_eq in E. subst b. rewrite eqb_same. apply IH.
  - rewrite (eqb_swap E). apply ltb_asym.
Qed.

Lemma list_ltb_ntrans : forall l1 l2 l3,
  list_ltb eqb ltb l2 l1 = false -> list_ltb eqb ltb l3 l2 = false ->
  list_ltb eqb ltb l3 l1 = false.
Proof.
  induction l1 as [|a l1 IH]; intros [|b l2] [|c l3]; cbn [list_ltb];
    try congruence.
  destruct (eqb b a) eqn:E1; destruct (eqb c b) eqn:E2; intros H1 H2.
  - apply eqb_eq in E1. apply eqb_eq in E2. subst. rewrite eqb_same.
    eapply IH; eauto.
  - apply eqb_eq in E1. subst b. rewrite E2. exact H2.
  - apply eqb_eq in E2. subst c. rewrite E1. exact H1.
  - destruct (eqb c a) eqn:E3.
    + apply eqb_eq in E3. subst c. exfalso.
      pose proof (ltb_total H2 H1) as T. subst b.
      rewrite eqb_same in E1. discriminate E1.
    + eapply ltb_ntrans; eauto.
Qed.

Lemma list_ltb_total : forall l1 l2,
  list_ltb eqb ltb l1 l2 = false -> list_ltb eqb ltb l2 l1 = false ->
  l1 = l2.
Proof.
  induction l1 as [|a l1 IH]; intros [|b l2]; cbn [list_ltb];
    try congruence.
  destruct (eqb a b) eqn:E.
  - apply eqb_eq in E. subst b. rewrite eqb_same. intros H1 H2.
    f_equal. apply IH; assumption.
  - rewrite (eqb_swap E). intros H1 H2.
    pose proof (ltb_total H1 H2) as T. subst b.
    rewrite eqb_same in E. discriminate E.
Qed.

Variable B : Type.
Variable ltb' : B -> B -> bool.
Hypothesis ltb'_asym : forall a b, ltb' a b = true -> ltb' b a = false.
Hypothesis ltb'_ntrans : forall a b c,
  ltb' b a = false -> ltb' c b = false -> ltb' c a = false.

Lemma pair_ltb_asym : forall p q : A * B,
  pair_ltb eqb ltb ltb' p q = true -> pair_ltb eqb ltb ltb' q p = false.
Proof.
  intros p q. unfold pair_ltb. destruct (eqb (fst p) (fst q)) eqn:E.
  - apply eqb_eq in E. rewrite E, eqb_same. apply ltb'_asym.
  - rewrite (eqb_swap E). apply ltb_asym.
Qed.

Lemma pair_ltb_ntrans : forall p q r : A * B,
  pair_ltb eqb ltb ltb' q p = false -> pair_ltb eqb ltb ltb' r q = false ->
  pair_ltb eqb ltb ltb' r p = false.
Proof.
  intros p q r. unfold pair_ltb.
  destruct (eqb (fst q) (fst p)) eqn:E1;
    destruct (eqb (fst r) (fst q)) eqn:E2; intros H1 H2.
  - apply eqb_eq in E1. apply eqb_eq in E2. rewrite E2, E1, eqb_same.
    eapply ltb'_ntrans; eauto.
  - apply eqb_eq in E1. rewrite <- E1, E2. exact H2.
  - apply eqb_eq in E2. rewrite E2, E1. exact H1.
  - destruct (eqb (fst r) (fst p)) eqn:E3.
    + apply eqb_eq in E3. rewrite E3 in H2. exfalso.
      pose proof (ltb_total H2 H1) as T. rewrite T, eqb_same in E1.
      discriminate E1.
    + eapply ltb_ntrans; eauto.
Qed.

End Lexicographic.

Lemma code_inj : forall a b, code a = code b -> a = b.
Proof.
  intros a b H. unfold code in H.
  rewrite <- (ascii_N_embedding a), <- (ascii_N_embedding b), H.
  reflexivity.
Qed.

Lemma str_ltb_total : forall s t,
  str_ltb s t = false -> str_ltb t s = false -> s = t.
Proof.
  induction s as [|a s IH]; intros [|b t]; simpl; try congruence.
  destruct (N.ltb_spec (code a) (code b)), (N.ltb_spec (code b) (code a));
    try congruence; try lia.
  intros H1 H2. f_equal; [apply code_inj; lia | apply IH; assumption].
Qed.

Lemma record_ltb_asym : forall r1 r2,
  record_ltb r1 r2 = true -> record_ltb r2 r1 = false.
Proof.
  apply list_ltb_asym; [exact str_eqb_eq | exact str_ltb_asym].
Qed.

Lemma record_ltb_ntrans : forall r1 r2 r3,
  record_ltb r2 r1 = false -> record_ltb r3 r2 = false ->
  record_ltb r3 r1 = false.
Proof.
  apply list_ltb_ntrans;
    [exact str_eqb_eq | exact str_ltb_false_trans | exact str_ltb_total].
Qed.

Lemma record_ltb_total : forall r1 r2,
  record_ltb r1 r2 = false -> record_ltb r2 r1 = false -> r1 = r2.
Proof.
  apply list_ltb_total; [exact str_eqb_eq | exact str_ltb_total].
Qed.

Lemma record_eqb_eq : forall r1 r2, record_eqb r1 r2 = true <-> r1 = r2.
Proof. apply list_eqb_eq. exact str_eqb_eq. Qed.

Lemma document_ltb_asym : forall d1 d2,
  document_ltb d1 d2 = true -> document_ltb d2 d1 = false.
Proof.
  apply pair_ltb_asym; [exact str_eqb_eq | exact str_ltb_asym|].
  apply list_ltb_asym; [exact record_eqb_eq | exact record_ltb_asym].
Qed.

Lemma document_ltb_ntrans : forall d1 d2 d3,
  document_ltb d2 d1 = false -> document_ltb d3 d2 = false ->
  document_ltb d3 d1 = false.
Proof.
  apply pair_ltb_ntrans;
    [exact str_eqb_eq | exact str_ltb_false_trans | exact str_ltb_total|].
  apply list_ltb_ntrans;
    [exact record_eqb_eq | exact record_ltb_ntrans | exact record_ltb_total].
Qed.

(** What "not before" means for two documents: the date of the second is
    not smaller, and with equal dates its records are not smaller. *)
Lemma document_order : forall d1 d2 : DataParser.document,
  document_ltb d2 d1 = false ->
  str_ltb (fst d2) (fst d1) = false
  /\ (fst d1 = fst d2 ->
      list_ltb record_eqb record_ltb (snd d2) (snd d1) = false).
Proof.
  intros d1 d2. unfold document_ltb, pair_ltb.
  destruct (str_eqb (fst d2) (fst d1)) eqn:E; intro H.
  - apply str_eqb_eq in E. rewrite E. split; [apply str_ltb_irrefl|].
    intros _. exact H.
  - split; [exact H|]. intro E'. rewrite E', str_eqb_refl in E.
    discriminate E.
Qed.

(** [sorted] puts the documents of a period in this order. *)
Lemma sorted_documents : forall data : list DataParser.document,
  StronglySorted
    (fun d1 d2 =>
       str_ltb (fst d2) (fst d1) = false
       /\ (fst d1 = fst d2 ->
           list_ltb record_eqb record_ltb (snd d2) (snd d1) = false))
    (sorted document_ltb data).
Proof.
  intro data.
  pose proof (@sorted_sorted _ document_ltb _ (fun d => d)
                (fun d1 d2 => document_ltb d2 d1 = false)
                document_ltb_ntrans document_ltb_asym
                (fun x y H => H) data) as S.
  rewrite map_id in S.
  induction S as [|d l _ IH Fd]; constructor; [exact IH|].
  eapply Forall_impl; [|exact Fd]. intros d2. apply document_order.
Qed.

(** In a strongly sorted list, what comes later is related to what comes
    earlier. *)
Lemma StronglySorted_later : forall (A : Type) (R : A -> A -> Prop) l1 a l2 b l3,
  StronglySorted R (l1 ++ a :: l2 ++ b :: l3) -> R a b.
Proof.
  induction l1 as [|x l1 IH]; intros a l2 b l3 S; cbn [app] in S.
  - inversion S as [|? ? _ Fa]; subst. rewrite Forall_forall in Fa.
    apply Fa. apply in_or_app. right. left. reflexivity.
  - inversion S; subst. eapply IH; eauto.
Qed.

(** ** Rows written to a sheet *)

Section SheetFacts.
Import Excel Reading.
Variable F : Type.
Variable float : str -> result F.

Lemma last_used_snoc : forall (rs : list (row F)) r,
  r <> [] -> last_used (rs ++ [r]) = S (length rs).
Proof.
  induction rs as [|a rs IH]; simpl; intros r H.
  - destruct r; [congruence | reflexivity].
  - rewrite IH by exact H. reflexivity.
Qed.

Lemma last_used_blank : forall rs : list (row F),
  last_used (rs ++ [[]]) = last_used rs.
Proof.
  induction rs as [|a rs IH]; simpl; [reflexivity|].
  rewrite IH. reflexivity.
Qed.

Lemma last_used_tail : forall (rs tl : list (row F)),
  Forall (fun r => r <> []) tl -> tl <> [] ->
  last_used (rs ++ tl) = length rs + length tl.
Proof.
  intros rs tl Hall Hne.
  destruct (exists_last Hne) as [tl' [r E]]. subst tl.
  rewrite app_assoc, last_used_snoc.
  - rewrite !length_app. simpl. lia.
  - rewrite Forall_forall in Hall. apply Hall.
    apply in_or_app. right. left. reflexivity.
Qed.

Lemma update_row_last : forall (f : row F -> row F) rs r,
  update_row (S (length rs)) f (rs ++ [r]) = rs ++ [f r].
Proof.
  induction rs as [|a rs IH]; intro r; [reflexivity|].
  change (update_row (S (length (a :: rs))) f ((a :: rs) ++ [r]))
    with (a :: update_row (S (length rs)) f (rs ++ [r])).
  rewrite IH. reflexivity.
Qed.

Lemma format_column_nonempty : forall col (a : cell F) r,
  format_column col (a :: r) <> [].
Proof.
  intros [|[|col]] a r; simpl; discriminate.
Qed.

Lemma format_last_row : forall col t (rs : list (row F)) r,
  r <> [] ->
  update_row (max_row (Worksheet t (rs ++ [r]))) (format_column col)
             (rs ++ [r])
  = rs ++ [format_column col r].
Proof.
  intros col t rs r H. unfold max_row. cbn [rows].
  rewrite last_used_snoc by exact H. cbn [Nat.max].
  apply update_row_last.
Qed.

(** Formatting cells right after a row with cells was appended changes
    that row and no other. *)
Lemma set_number_format_last : forall columns t (rs : list (row F)) r,
  r <> [] ->
  set_number_format (Worksheet t (rs ++ [r])) columns
  = Worksheet t (rs ++ [fold_left (fun r col => format_column col r)
                                  columns r]).
Proof.
  induction columns as [|col columns IH]; intros t rs r H; [reflexivity|].
  unfold set_number_format. cbn [fold_left title rows].
  rewrite format_last_row by exact H.
  apply (IH t rs (format_column col r)).
  destruct r as [|a r]; [congruence|]. apply format_column_nonempty.
Qed.

(** *** Texts that go into cells *)

Lemma existsb_firstn : forall (f : ascii -> bool) n s,
  existsb f s = false -> existsb f (firstn n s) = false.
Proof.
  intros f n. induction n as [|n IH]; intros [|a s] H; try reflexivity.
  cbn [firstn existsb] in *. apply orb_false_iff in H. destruct H as [H1 H2].
  rewrite H1, (IH _ H2). reflexivity.
Qed.

Lemma check_string_stored : forall s s',
  check_string s = Ok s' -> s' = firstn max_text s.
Proof.
  intros s s' H. unfold check_string in H.
  destruct (existsb illegal_character (firstn max_text s));
    [discriminate H | congruence].
Qed.

(** A text without control characters is accepted. *)
Lemma check_string_legal : forall s,
  existsb illegal_character s = false ->
  check_string s = Ok (firstn max_text s).
Proof.
  intros s H. unfold check_string.
  rewrite (existsb_firstn _ max_text _ H). reflexivity.
Qed.

Lemma legal_app : forall s1 s2,
  existsb illegal_character s1 = false ->
  existsb illegal_character s2 = false ->
  existsb illegal_character (s1 ++ s2) = false.
Proof. intros s1 s2 H1 H2. rewrite existsb_app, H1, H2. reflexivity. Qed.

Lemma legal_str_of_nat : forall n,
  existsb illegal_character (str_of_nat n) = false.
Proof.
  intro n. unfold str_of_nat. generalize (Nat.to_uint n). clear n.
  induction u as [|u IH|u IH|u IH|u IH|u IH|u IH|u IH|u IH|u IH|u IH];
    [reflexivity| | | | | | | | | |];
    cbn [NilEmpty.string_of_uint L list_ascii_of_string existsb];
    exact IH.
Qed.

Lemma legal_col_range : forall col a b,
  existsb illegal_character (L col) = false ->
  existsb illegal_character (col_range col a b) = false.
Proof.
  intros col a b H. unfold col_range.
  repeat apply legal_app; auto using legal_str_of_nat.
Qed.

(** *** Rows appended *)

Lemma append_blank : forall ws : worksheet F,
  append ws [] = Ok (Worksheet (title ws) (rows ws ++ [[]])).
Proof. reflexivity. Qed.

Lemma append_text : forall (ws : worksheet F) s,
  append ws [VStr s]
  = (s' <- check_string s ;;
     Ok (Worksheet (title ws) (rows ws ++ [[plain (VStr s')]]))).
Proof.
  intros ws s. unfold append. cbn [for_each bind_value].
  destruct (check_string s); reflexivity.
Qed.

Lemma append_header : forall ws : worksheet F,
  append ws (header_row F)
  = Ok (Worksheet (title ws) (rows ws ++ [map (@plain F) (header_row F)])).
Proof.
  intro ws. unfold append.
  assert (E : for_each (fun cells v => c <- bind_value v ;; Ok (cells ++ [c]))
                       (header_row F) []
              = Ok (map (@plain F) (header_row F)))
    by (vm_compute; reflexivity).
  rewrite E. reflexivity.
Qed.

Lemma append_item : forall (ws : worksheet F) item_name price,
  append ws [VStr item_name; VFloat price; VNone; VNone]
  = (n <- check_string item_name ;;
     Ok (Worksheet (title ws)
           (rows ws ++ [[plain (VStr n); plain (VFloat price);
                         plain VNone; plain VNone]]))).
Proof.
  intros ws n x. unfold append. cbn [for_each bind_value].
  destruct (check_string n); reflexivity.
Qed.

Lemma append_summary : forall (ws : worksheet F) a b,
  append ws (summary_row F a b)
  = Ok (Worksheet (title ws)
          (rows ws ++ [map (@plain F) (map (@stored F) (summary_row F a b))])).
Proof.
  intros ws a b. unfold append, summary_row. cbv zeta.
  cbn [for_each bind_value map stored].
  assert (B : existsb illegal_character (col_range "B" a b) = false)
    by (apply legal_col_range; reflexivity).
  assert (C : existsb illegal_character (col_range "C" a b) = false)
    by (apply legal_col_range; reflexivity).
  assert (D : existsb illegal_character (col_range "D" a b) = false)
    by (apply legal_col_range; reflexivity).
  rewrite !check_string_legal;
    first [ reflexivity
          | repeat apply legal_app;
            first [assumption | apply legal_str_of_nat | reflexivity] ].
Qed.

Lemma summary_formatted : forall start_row end_row,
  fold_left (fun r col => format_column col r) [2; 3; 4]
            (map (@plain F) (map (@stored F) (summary_row F start_row end_row)))
  = summary_cells F start_row end_row.
Proof. reflexivity. Qed.

Lemma item_formatted : forall n (x : F),
  fold_left (fun r col => format_column col r) [2]
            [plain (VStr n); plain (VFloat x); plain VNone; plain VNone]
  = item_cells n x.
Proof. reflexivity. Qed.

(** What one turn of the item loop writes, and when it runs through. *)
Lemma write_item_layout : forall ws rec ws',
  write_item float ws rec = Ok ws' <->
  exists it,
    parses float rec it
    /\ ws' = Worksheet (title ws)
               (rows ws ++ [item_cells (fst it) (snd it)]).
Proof.
  intros ws rec ws'. split.
  - intro H. unfold write_item in H.
    destruct rec as [|n [|p [|? ?]]]; try discriminate H.
    destruct (float p) as [x|e] eqn:E; [|discriminate H].
    cbn [bind] in H. rewrite append_item in H.
    destruct (check_string n) as [n'|e] eqn:C; [|discriminate H].
    cbn [bind] in H. rewrite set_number_format_last in H by discriminate.
    rewrite item_formatted in H. inversion H.
    exists (n', x). split; [|reflexivity]. exists n, p. auto.
  - intros [[n' x] [[n [p [Er [Ef Ec]]]] E]]. cbn [fst snd] in *. subst rec.
    unfold write_item. rewrite Ef. cbn [bind]. rewrite append_item, Ec.
    cbn [bind]. rewrite set_number_format_last by discriminate.
    rewrite item_formatted, E. reflexivity.
Qed.

Lemma write_items_layout : forall grocery ws ws',
  for_each (write_item float) grocery ws = Ok ws' ->
  exists items,
    Forall2 (parses float) grocery items
    /\ ws' = Worksheet (title ws)
               (rows ws ++ map (fun it => item_cells (fst it) (snd it)) items).
Proof.
  induction grocery as [|rec grocery IH]; intros ws ws' H; cbn [for_each] in H.
  - inversion H; subst. exists []. cbn [map]. rewrite app_nil_r.
    split; [constructor | destruct ws'; reflexivity].
  - destruct (write_item float ws rec) as [ws1|e] eqn:E; [|discriminate H].
    cbn [bind] in H. apply write_item_layout in E.
    destruct E as [it [Hp E]].
    apply IH in H. destruct H as [items [HF H]].
    exists (it :: items). split; [constructor; assumption|].
    subst ws1. cbn [title rows] in H. rewrite <- app_assoc in H. exact H.
Qed.

Lemma write_items_back : forall grocery items ws,
  Forall2 (parses float) grocery items ->
  for_each (write_item float) grocery ws
  = Ok (Worksheet (title ws)
          (rows ws ++ map (fun it => item_cells (fst it) (snd it)) items)).
Proof.
  intros grocery items ws H. revert ws.
  induction H as [|rec it grocery items Hp _ IH]; intro ws;
    cbn [for_each map].
  - rewrite app_nil_r. destruct ws; reflexivity.
  - rewrite (proj2 (write_item_layout ws rec _)
               (ex_intro _ it (conj Hp eq_refl))).
    cbn [bind]. rewrite IH. cbn [title rows]. rewrite <- app_assoc.
    reflexivity.
Qed.

Lemma parses_functional : forall grocery items items',
  Forall2 (parses float) grocery items ->
  Forall2 (parses float) grocery items' ->
  items = items'.
Proof.
  intros grocery items items' H. revert items'.
  induction H as [|rec [n x] grocery items [n0 [p [Er [Ef Ec]]]] _ IH];
    intros items' H';
    inversion H' as [|? [n' x'] ? ? [n1 [p' [Er' [Ef' Ec']]]] HF];
    subst; [reflexivity|].
  cbn [fst snd] in *. inversion Er'; subst.
  f_equal; [congruence | apply IH; exact HF].
Qed.

Lemma block_rows_length : forall n date (items : list (str * F)),
  length (block_rows n date items) = 5 + length items.
Proof.
  intros. unfold block_rows. rewrite !length_app, length_map.
  cbn [length]. lia.
Qed.

(** What one turn of the document loop writes: the date row, the header
    row, the item rows, the summary row over the item rows, two empty
    rows. *)
Lemma write_document_layout : forall (ws ws' : worksheet F) date grocery,
  write_document float ws (date, grocery) = Ok ws' ->
  exists b,
    writes float (date, grocery) b
    /\ ws' = Worksheet (title ws)
               (rows ws ++ block_rows (length (rows ws)) (fst b) (snd b)).
Proof.
  intros ws ws' date grocery H. unfold write_document in H.
  rewrite append_text in H.
  destruct (check_string date) as [sdate|e] eqn:C; [|discriminate H].
  cbn [bind] in H. rewrite append_header in H. cbn [bind title rows] in H.
  destruct (for_each (write_item float) grocery _) as [ws1|e] eqn:E;
    [|discriminate H].
  cbn [bind] in H. pose proof (write_items_layout _ _ E) as E'.
  destruct E' as [items [HF E']]. exists (sdate, items).
  split; [split; assumption|].
  cbn [title rows fst snd] in *.
  set (n := length (rows ws)) in *.
  assert (M0 : max_row (Worksheet (title ws)
                 ((rows ws ++ [[plain (VStr sdate)]])
                    ++ [map (@plain F) (header_row F)])) = n + 2).
  { unfold max_row. cbn [rows]. rewrite last_used_snoc by discriminate.
    rewrite length_app. simpl. subst n. lia. }
  assert (M1 : max_row ws1 = n + 2 + length items).
  { rewrite E'. unfold max_row. cbn [rows].
    rewrite <- !app_assoc. cbn [app].
    rewrite (last_used_tail (rows ws)).
    - cbn [length]. rewrite length_map. subst n. lia.
    - constructor; [discriminate|]. constructor; [discriminate|].
      apply Forall_forall. intros r Hr. apply in_map_iff in Hr.
      destruct Hr as [it [<- _]]. discriminate.
    - discriminate. }
  rewrite M0, M1, append_summary in H. cbn [bind] in H.
  rewrite (set_number_format_last [2; 3; 4]) in H
    by (unfold summary_row; discriminate).
  rewrite summary_formatted, append_blank in H. cbn [bind] in H.
  rewrite append_blank in H.
  inversion H. rewrite E'. cbn [title rows]. f_equal.
  unfold block_rows. rewrite <- !app_assoc. cbn [app].
  replace (n + 2 + 1) with (n + 3) by lia. reflexivity.
Qed.

Lemma write_document_back : forall (ws : worksheet F) date grocery b,
  writes float (date, grocery) b ->
  write_document float ws (date, grocery)
  = Ok (Worksheet (title ws)
          (rows ws ++ block_rows (length (rows ws)) (fst b) (snd b))).
Proof.
  intros ws date grocery [sdate items] [C HF]. cbn [fst snd] in *.
  destruct (write_document float ws (date, grocery)) as [ws'|e] eqn:W.
  - apply write_document_layout in W.
    destruct W as [[sdate' items'] [[C' HF'] W]]. cbn [fst snd] in *.
    rewrite W, (parses_functional HF HF'). congruence.
  - exfalso. unfold write_document in W. rewrite append_text, C in W.
    cbn [bind] in W. rewrite append_header in W. cbn [bind] in W.
    rewrite (write_items_back _ HF) in W. cbn [bind] in W.
    rewrite append_summary in W. cbn [bind] in W.
    rewrite append_blank in W. cbn [bind] in W.
    rewrite append_blank in W. discriminate W.
Qed.

(** The loop over the documents of a period appends their blocks, one
    after the other, in the order of the loop. *)
Lemma write_documents_layout : forall docs (ws ws' : worksheet F),
  for_each (write_document float) docs ws = Ok ws' ->
  exists bs,
    Forall2 (writes float) docs bs
    /\ ws' = Worksheet (title ws)
               (rows ws ++ blocks (length (rows ws)) bs).
Proof.
  induction docs as [|[date grocery] docs IH]; intros ws ws' H;
    cbn [for_each] in H.
  - inversion H; subst. exists []. cbn [blocks]. rewrite app_nil_r.
    split; [constructor | destruct ws'; reflexivity].
  - destruct (write_document float ws (date, grocery)) as [ws1|e] eqn:E;
      [|discriminate H].
    cbn [bind] in H. apply write_document_layout in E.
    destruct E as [b [Hb E]].
    apply IH in H. destruct H as [bs [HF H]].
    exists (b :: bs). split; [constructor; assumption|].
    subst ws1. cbn [title rows] in H.
    rewrite length_app, block_rows_length, <- app_assoc, Nat.add_assoc in H.
    cbn [blocks]. exact H.
Qed.


(** What the body of the loop over the periods writes to a sheet. *)
Lemma write_month_layout : forall (ws ws' : worksheet F) data,
  write_month float ws data = Ok ws' ->
  exists bs,
    Forall2 (writes float) (sorted document_ltb data) bs
    /\ ws' = Worksheet (title ws) (month_rows ws bs).
Proof.
  intros ws ws' data H. unfold write_month in H.
  unfold month_rows, gap. destruct (4 <? max_row ws).
  - rewrite append_blank in H. cbn [bind] in H.
    rewrite append_blank in H. cbn [bind title rows] in H.
    apply write_documents_layout in H. destruct H as [bs [HF H]].
    exists bs. split; [exact HF|]. rewrite H. cbn [title rows].
    rewrite !length_app, <- !app_assoc. cbn [length app].
    replace (length (rows ws) + 1 + 1) with (length (rows ws) + 2) by lia.
    reflexivity.
  - cbn [bind] in H.
    apply write_documents_layout in H. destruct H as [bs [HF H]].
    exists bs. split; [exact HF|]. rewrite H. cbn [length app].
    rewrite Nat.add_0_r. reflexivity.
Qed.


(** [save_excel_workbook] always returns; behind a locked file it
    writes nothing and prints a line. *)
Lemma save_excel_workbook_cases : forall x : dumper F,
  save_excel_workbook x
  = Ok (if locked x
        then print x (L "Please close the file that script tries to write to,")
        else Dumper (wb x) (wb x) (locked x) (stdout x)).
Proof.
  intro x. unfold save_excel_workbook, wb_save. destruct (locked x); reflexivity.
Qed.

Lemma save_excel_workbook_wb : forall x x' : dumper F,
  save_excel_workbook x = Ok x' -> wb x' = wb x /\ locked x' = locked x.
Proof.
  intros x x' H. rewrite save_excel_workbook_cases in H. inversion H.
  destruct (locked x) eqn:E; cbn; auto.
Qed.

Lemma existsb_name : forall key names,
  existsb (fun sheetname => str_eqb sheetname key) names = true
  <-> In key names.
Proof.
  intros key names. rewrite existsb_exists. split.
  - intros [n [Hn E]]. apply str_eqb_eq in E. congruence.
  - intro H. exists key. split; [exact H | apply str_eqb_refl].
Qed.

(** The loop of [create_sheets] adds empty sheets after the existing ones
    and leaves a sheet for every key. *)
Lemma create_loop_ok : forall keys (w w' : workbook F),
  for_each (fun w key =>
              if existsb (fun sheetname => str_eqb sheetname key)
                         (sheetnames w)
              then Ok w
              else create_sheet w key) keys w = Ok w' ->
  exists extra,
    w' = w ++ extra
    /\ Forall (fun ws => rows ws = [] /\ valid_title (title ws) = true) extra
    /\ forall key, In key keys -> In key (sheetnames w').
Proof.
  induction keys as [|key keys IH]; intros w w' H; cbn [for_each] in H.
  - inversion H; subst. exists []. rewrite app_nil_r.
    repeat split; auto. intros k [].
  - destruct (existsb (fun sheetname => str_eqb sheetname key) (sheetnames w))
      eqn:E; cbn [bind] in H.
    + apply IH in H. destruct H as [extra [H1 [H2 H3]]].
      exists extra. repeat split; auto.
      intros k [<- | Hk]; [|apply H3; exact Hk].
      apply existsb_name in E. subst w'. unfold sheetnames in *.
      rewrite map_app. apply in_or_app. left. exact E.
    + unfold create_sheet in H.
      destruct (valid_title key) eqn:V; [|discriminate H].
      cbn [bind] in H. apply IH in H. destruct H as [extra [H1 [H2 H3]]].
      exists (Worksheet key [] :: extra). rewrite <- app_assoc in H1.
      repeat split; auto.
      intros k [<- | Hk]; [|apply H3; exact Hk].
      subst w'. unfold sheetnames. rewrite !map_app.
      apply in_or_app. right. left. reflexivity.
Qed.

(** When every key has its sheet, the loop creates nothing. *)
Lemma create_loop_nothing : forall keys (w : workbook F),
  (forall key, In key keys -> In key (sheetnames w)) ->
  for_each (fun w key =>
              if existsb (fun sheetname => str_eqb sheetname key)
                         (sheetnames w)
              then Ok w
              else create_sheet w key) keys w = Ok w.
Proof.
  induction keys as [|key keys IH]; intros w H; cbn [for_each]; [reflexivity|].
  rewrite (proj2 (existsb_name key (sheetnames w)) (H key (or_introl eq_refl))).
  cbn [bind]. apply IH. intros k Hk. apply H. right. exact Hk.
Qed.

(** What [first_sheet_rename] does to the workbook: with exactly one
    sheet it gives that sheet the first key as its title, and otherwise
    nothing. *)
Lemma first_sheet_rename_ok : forall (x x' : dumper F) data_keys,
  first_sheet_rename x data_keys = Ok x' ->
  locked x' = locked x
  /\ ((exists ws key rest,
         wb x = [ws] /\ data_keys = key :: rest /\ valid_title key = true
         /\ wb x' = [Worksheet key (rows ws)])
      \/ (length (wb x) <> 1 /\ wb x' = wb x)).
Proof.
  intros x x' keys H. unfold first_sheet_rename in H.
  unfold sheetnames in H. rewrite length_map in H.
  destruct (Nat.eqb (length (wb x)) 1) eqn:E.
  - apply Nat.eqb_eq in E.
    destruct keys as [|key rest]; [discriminate H|].
    destruct (wb x) as [|ws [|? ?]] eqn:W; try discriminate E.
    destruct (valid_title key) eqn:V; [|discriminate H].
    cbn [bind] in H. apply save_excel_workbook_wb in H. destruct H as [H1 H2].
    split; [exact H2|]. left. exists ws, key, rest. auto.
  - apply Nat.eqb_neq in E. cbn [bind] in H.
    apply save_excel_workbook_wb in H. destruct H as [H1 H2]. auto.
Qed.

End SheetFacts.

(** ** The workbook while data is inserted *)

Section BookFacts.
Import Excel.
Variable F : Type.
Variable float : str -> result F.

Lemma for_each_app : forall (A S : Type) (body : S -> A -> result S) xs ys st,
  for_each body (xs ++ ys) st
  = (st' <- for_each body xs st ;; for_each body ys st').
Proof.
  induction xs as [|x xs IH]; intros ys st; cbn [app for_each].
  - reflexivity.
  - destruct (body st x); cbn [bind]; [apply IH | reflexivity].
Qed.

Lemma grows_refl : forall ws : worksheet F, grows ws ws.
Proof. intro ws. exists []. rewrite app_nil_r. reflexivity. Qed.

Lemma grows_trans : forall ws1 ws2 ws3 : worksheet F,
  grows ws1 ws2 -> grows ws2 ws3 -> grows ws1 ws3.
Proof.
  intros ws1 ws2 ws3 [n1 H1] [n2 H2]. exists (n1 ++ n2).
  rewrite H2, H1, app_assoc. reflexivity.
Qed.

Lemma Forall2_grows_refl : forall w : workbook F, Forall2 (@grows F) w w.
Proof. induction w; constructor; auto using grows_refl. Qed.

Lemma Forall2_grows_trans : forall w1 w2 w3 : workbook F,
  Forall2 (@grows F) w1 w2 -> Forall2 (@grows F) w2 w3 ->
  Forall2 (@grows F) w1 w3.
Proof.
  intros w1 w2 w3 H. revert w3.
  induction H as [|a b l l' Hab _ IH]; intros w3 H3; inversion H3; subst;
    constructor; eauto using grows_trans.
Qed.

Lemma find_sheet_title : forall t (w : workbook F) ws,
  find_sheet t w = Some ws -> title ws = t.
Proof.
  induction w as [|a w IH]; intros ws H; simpl in H; [discriminate|].
  destruct (str_eqb (title a) t) eqn:E.
  - inversion H; subst. apply str_eqb_eq. exact E.
  - apply IH. exact H.
Qed.

(** Updating the sheet of a title in place touches the first sheet of
    that title and no other. *)
Lemma with_sheet_find : forall t f (w w' : workbook F),
  (forall ws ws', f ws = Ok ws' -> title ws' = title ws) ->
  with_sheet t f w = Ok w' ->
  exists ws ws',
    find_sheet t w = Some ws /\ f ws = Ok ws'
    /\ find_sheet t w' = Some ws'
    /\ forall u, u <> t -> find_sheet u w' = find_sheet u w.
Proof.
  intros t f w w' Hf. revert w'.
  induction w as [|a w IH]; intros w' H; cbn [with_sheet] in H;
    [discriminate|].
  destruct (str_eqb (title a) t) eqn:E.
  - destruct (f a) as [a'|e] eqn:Fa; [|discriminate H].
    cbn [bind] in H. inversion H; subst. exists a, a'.
    pose proof (Hf _ _ Fa) as T.
    cbn [find_sheet]. rewrite T, E. repeat split; auto.
    intros u Hu. apply str_eqb_eq in E.
    destruct (str_eqb (title a) u) eqn:E'; [|reflexivity].
    apply str_eqb_eq in E'. congruence.
  - destruct (with_sheet t f w) as [w1|e] eqn:W; [|discriminate H].
    cbn [bind] in H. inversion H; subst.
    destruct (IH w1 eq_refl) as [ws [ws' [H1 [H2 [H3 H4]]]]].
    exists ws, ws'. cbn [find_sheet]. rewrite E. repeat split; auto.
    intros u Hu. rewrite (H4 u Hu). reflexivity.
Qed.

Lemma with_sheet_grows : forall t f (w w' : workbook F),
  (forall ws ws', f ws = Ok ws' -> grows ws ws') ->
  with_sheet t f w = Ok w' ->
  Forall2 (@grows F) w w'.
Proof.
  intros t f w w' Hf. revert w'.
  induction w as [|a w IH]; intros w' H; cbn [with_sheet] in H;
    [discriminate|].
  destruct (str_eqb (title a) t).
  - destruct (f a) as [a'|e] eqn:Fa; [|discriminate H].
    cbn [bind] in H. inversion H; subst.
    constructor; [apply Hf; exact Fa | apply Forall2_grows_refl].
  - destruct (with_sheet t f w) as [w1|e] eqn:W; [|discriminate H].
    cbn [bind] in H. inversion H; subst.
    constructor; [apply grows_refl | apply IH; reflexivity].
Qed.

Lemma write_month_title : forall ws data ws',
  write_month float ws data = Ok ws' -> title ws' = title ws.
Proof.
  intros ws data ws' H. apply write_month_layout in H.
  destruct H as [bs [_ ->]]. reflexivity.
Qed.

Lemma write_month_grows : forall ws data ws',
  write_month float ws data = Ok ws' -> grows ws ws'.
Proof.
  intros ws data ws' H. apply write_month_layout in H.
  destruct H as [bs [_ ->]]. eexists. unfold Reading.month_rows.
  cbn [rows]. reflexivity.
Qed.

(** The loop over the periods: the sheet of every period receives the
    rows of that period, and the other sheets stay as they are. *)
Lemma month_loop_find : forall ps (w w' : workbook F),
  NoDup (map fst ps) ->
  for_each (fun w (p : str * list DataParser.document) =>
              with_sheet (fst p) (fun ws => write_month float ws (snd p)) w)
           ps w = Ok w' ->
  (forall u, ~ In u (map fst ps) -> find_sheet u w' = find_sheet u w)
  /\ forall month data, In (month, data) ps ->
       exists ws ws',
         find_sheet month w = Some ws
         /\ write_month float ws data = Ok ws'
         /\ find_sheet month w' = Some ws'.
Proof.
  induction ps as [|[m d] ps IH]; intros w w' ND H; cbn [for_each] in H.
  - inversion H; subst. split; [reflexivity | intros ? ? []].
  - cbn [fst snd] in H.
    destruct (with_sheet m (fun ws => write_month float ws d) w)
      as [w1|e] eqn:W; [|discriminate H].
    cbn [bind] in H. cbn [map fst] in ND. inversion ND as [|? ? Hm ND']; subst.
    destruct (IH w1 w' ND' H) as [Hother Hin].
    apply with_sheet_find in W;
      [|intros ws ws' Hw; eapply write_month_title; exact Hw].
    destruct W as [ws [ws1 [W1 [W2 [W3 W4]]]]].
    split.
    + intros u Hu. cbn [map fst] in Hu.
      rewrite Hother by (intro; apply Hu; right; assumption).
      apply W4. intro; apply Hu; left; congruence.
    + intros month data [E | Hi].
      * inversion E; subst. exists ws, ws1. repeat split; auto.
        rewrite Hother by exact Hm. exact W3.
      * destruct (Hin month data Hi) as [ws0 [ws0' [A [B C]]]].
        exists ws0, ws0'. repeat split; auto.
        rewrite <- A. symmetry. apply W4. intro; subst.
        apply Hm. apply in_map_iff. exists (m, data). auto.
Qed.

Lemma month_loop_grows : forall ps (w w' : workbook F),
  for_each (fun w (p : str * list DataParser.document) =>
              with_sheet (fst p) (fun ws => write_month float ws (snd p)) w)
           ps w = Ok w' ->
  Forall2 (@grows F) w w'.
Proof.
  induction ps as [|p ps IH]; intros w w' H; cbn [for_each] in H.
  - inversion H. apply Forall2_grows_refl.
  - destruct (with_sheet (fst p) (fun ws => write_month float ws (snd p)) w)
      as [w1|e] eqn:W; [|discriminate H].
    cbn [bind] in H. eapply Forall2_grows_trans; [|apply IH; exact H].
    eapply with_sheet_grows; [|exact W].
    intros ws ws' Hw. eapply write_month_grows. exact Hw.
Qed.

(** [handle_sheets] keeps the rows of every sheet and adds empty sheets
    at the end. *)
Lemma handle_sheets_ok : forall (x x1 : dumper F) data_keys,
  handle_sheets x data_keys = Ok x1 ->
  exists w1 extra,
    wb x1 = w1 ++ extra
    /\ Forall2 (@grows F) (wb x) w1
    /\ Forall (fun ws => rows ws = [] /\ valid_title (title ws) = true) extra
    /\ (forall key, In key data_keys -> In key (sheetnames (wb x1)))
    /\ ((exists ws key rest,
           wb x = [ws] /\ data_keys = key :: rest
           /\ valid_title key = true /\ w1 = [Worksheet key (rows ws)])
        \/ (length (wb x) <> 1 /\ w1 = wb x)).
Proof.
  intros x x1 keys H. unfold handle_sheets in H.
  destruct (first_sheet_rename x keys) as [x0|e] eqn:R; [|discriminate H].
  cbn [bind] in H. apply first_sheet_rename_ok in R. destruct R as [_ R].
  unfold create_sheets in H.
  destruct (for_each _ keys (wb x0)) as [w|e] eqn:C; [|discriminate H].
  cbn [bind] in H. apply save_excel_workbook_wb in H. destruct H as [H _].
  cbn [wb set_wb] in H. apply create_loop_ok in C.
  destruct C as [extra [C1 [C2 C3]]].
  exists (wb x0), extra. rewrite H. repeat split; auto.
  destruct R as [[ws [key [rest [R1 [R2 [R3 R4]]]]]] | [_ R]].
  - rewrite R1, R4. constructor; [|constructor].
    exists []. rewrite app_nil_r. reflexivity.
  - rewrite R. apply Forall2_grows_refl.
Qed.

End BookFacts.

(** ** Sheets and saving *)

Section Sheets.
Import Excel.
Variable F : Type.

(** Claim C8, as amended.  A save attempt on a ledger whose file is held
    open by another process is not reported to the caller:
    [save_excel_workbook] catches the [PermissionError], prints a line and
    returns normally.  What was saved before stays as it was, and so does
    the workbook in memory. *)
Theorem C8_locked_save_returns_normally : forall x : dumper F,
  locked x = true ->
  exists x',
    save_excel_workbook x = Ok x'
    /\ file x' = file x
    /\ wb x' = wb x
    /\ stdout x'
       = stdout x ++ [L "Please close the file that script tries to write to,"].
Proof.
  intros x H. rewrite save_excel_workbook_cases, H.
  eexists. split; [reflexivity|]. cbn. auto.
Qed.

(** A second call of [handle_sheets] finds every sheet in place. *)
Lemma handle_sheets_again : forall (x1 : dumper F) data_keys,
  (forall key, In key data_keys -> In key (sheetnames (wb x1))) ->
  (length (wb x1) = 1 ->
   exists key rest, data_keys = key :: rest /\ valid_title key = true) ->
  exists x2, handle_sheets x1 data_keys = Ok x2 /\ wb x2 = wb x1.
Proof.
  intros x1 keys Hall Hone. unfold handle_sheets.
  assert (R : exists x0, first_sheet_rename x1 keys = Ok x0 /\ wb x0 = wb x1).
  { unfold first_sheet_rename, sheetnames. rewrite length_map.
    destruct (Nat.eqb (length (wb x1)) 1) eqn:E.
    - apply Nat.eqb_eq in E. destruct (Hone E) as [key [rest [-> V]]].
      destruct (wb x1) as [|ws [|? ?]] eqn:W; try discriminate E.
      rewrite V. cbn [bind]. rewrite save_excel_workbook_cases.
      eexists. split; [reflexivity|].
      assert (T : title ws = key).
      { specialize (Hall key (or_introl eq_refl)).
        simpl in Hall. destruct Hall as [T | []]. exact T. }
      destruct ws as [t rs]. cbn [title rows] in *. subst t.
      destruct (locked (set_wb x1 [Worksheet key rs])); reflexivity.
    - cbn [bind]. rewrite save_excel_workbook_cases.
      eexists. split; [reflexivity|]. destruct (locked x1); reflexivity. }
  destruct R as [x0 [R W0]]. rewrite R. cbn [bind]. unfold create_sheets.
  rewrite create_loop_nothing by (rewrite W0; exact Hall).
  cbn [bind]. rewrite save_excel_workbook_cases.
  eexists. split; [reflexivity|].
  destruct (locked (set_wb x0 (wb x0))); cbn; exact W0.
Qed.

Lemma handle_sheets_nil : forall x x1 : dumper F,
  handle_sheets x [] = Ok x1 -> wb x1 = wb x.
Proof.
  intros x x1 H. unfold handle_sheets in H.
  destruct (first_sheet_rename x []) as [x0|e] eqn:R; [|discriminate H].
  cbn [bind] in H. apply first_sheet_rename_ok in R.
  destruct R as [_ [[ws [key [rest [_ [R _]]]]] | [_ R]]]; [discriminate R|].
  unfold create_sheets in H. cbn [for_each bind] in H.
  apply save_excel_workbook_wb in H. destruct H as [H _].
  cbn [wb set_wb] in H. congruence.
Qed.

(** Claim C6, as amended.  [handle_sheets] gives the first key to the
    single sheet of a ledger with exactly one sheet, whether or not rows
    have been written to that sheet; in a ledger with another number of
    sheets it renames none.  In both cases the other sheets that it leaves
    behind are new, empty and at the end, and a second call with the same
    keys changes no sheet and creates none. *)
Theorem C6_rename_and_idempotence : forall (x x1 : dumper F) data_keys,
  handle_sheets x data_keys = Ok x1 ->
  ((exists ws key rest extra,
      wb x = [ws] /\ data_keys = key :: rest
      /\ wb x1 = Worksheet key (rows ws) :: extra
      /\ Forall (fun ws' => rows ws' = []) extra)
   \/ (length (wb x) <> 1
       /\ exists extra,
            wb x1 = wb x ++ extra
            /\ Forall (fun ws' => rows ws' = []) extra))
  /\ exists x2, handle_sheets x1 data_keys = Ok x2 /\ wb x2 = wb x1.
Proof.
  intros x x1 keys H. pose proof (handle_sheets_ok _ _ H) as K.
  destruct K as [w1 [extra [E [_ [Hex [Hall R]]]]]].
  assert (Hex' : Forall (fun ws' : worksheet F => rows ws' = []) extra).
  { eapply Forall_impl; [|exact Hex]. intros ws [A _]. exact A. }
  split.
  - destruct R as [[ws [key [rest [R1 [R2 [R3 R4]]]]]] | [R0 R]].
    + left. exists ws, key, rest, extra. subst w1. auto.
    + right. split; [exact R0|]. exists extra. subst w1. auto.
  - apply handle_sheets_again; [exact Hall|].
    intro Len. destruct R as [[ws [key [rest [R1 [R2 [R3 R4]]]]]] | [R0 R]].
    + exists key, rest. auto.
    + subst w1. rewrite E, length_app in Len.
      destruct (wb x) as [|a [|b w]] eqn:W; cbn [length] in *;
        try congruence; try lia.
      destruct extra as [|ws1 [|? ?]]; cbn [length] in Len; try lia.
      inversion Hex as [|? ? [_ V] _]; subst.
      destruct keys as [|key rest].
      * exfalso. apply handle_sheets_nil in H. rewrite H, W in E.
        discriminate E.
      * exists key, rest. split; [reflexivity|].
        specialize (Hall key (or_introl eq_refl)). rewrite E in Hall.
        simpl in Hall. destruct Hall as [T | []]. rewrite <- T. exact V.
Qed.

End Sheets.

Lemma C8_locked_save_returns_normally_witness :
  exists x',
    Excel.save_excel_workbook Samples.locked_ledger = Ok x'
    /\ Excel.file x' = Samples.march_book
    /\ Excel.wb x' = Samples.march_book
    /\ Excel.stdout x'
       = [L "Please close the file that script tries to write to,"].
Proof.
  exact (@C8_locked_save_returns_normally _ Samples.locked_ledger eq_refl).
Defined.

(** Claim C8 fails as it is stated: the save behind a locked file raises
    inside [save_excel_workbook], and the caller gets a normal return.  A
    whole [insert_data] on the locked ledger returns normally too, with the
    file still holding the old content and none of the new rows. *)
Lemma C8_failure_swallowed :
  Excel.wb_save Samples.locked_ledger = Raise PermissionError
  /\ Excel.save_excel_workbook Samples.locked_ledger
     = Ok (Excel.print Samples.locked_ledger
             (L "Please close the file that script tries to write to,"))
  /\ match Excel.insert_data Excel.decimal_float Samples.locked_ledger
             Samples.march_bucket with
     | Ok x' => Excel.file x' = Samples.march_book
                /\ Excel.wb x' <> Samples.march_book
     | Raise _ => False
     end.
Proof.
  split; [reflexivity|]. split; [reflexivity|].
  vm_compute. split; [reflexivity | discriminate].
Qed.

Lemma C6_rename_and_idempotence_witness :
  ((exists ws key rest extra,
      Excel.wb Samples.march_ledger = [ws] /\ [L "04.2024"] = key :: rest
      /\ [Excel.Worksheet (L "04.2024") [Samples.date_row "15.03.2024"]]
         = Excel.Worksheet key (Excel.rows ws) :: extra
      /\ Forall (fun ws' => Excel.rows ws' = []) extra)
   \/ (length (Excel.wb Samples.march_ledger) <> 1
       /\ exists extra,
            [Excel.Worksheet (L "04.2024") [Samples.date_row "15.03.2024"]]
            = Excel.wb Samples.march_ledger ++ extra
            /\ Forall (fun ws' => Excel.rows ws' = []) extra))
  /\ exists x2,
       Excel.handle_sheets
         (Excel.Dumper
            [Excel.Worksheet (L "04.2024") [Samples.date_row "15.03.2024"]]
            [Excel.Worksheet (L "04.2024") [Samples.date_row "15.03.2024"]]
            false [])
         [L "04.2024"] = Ok x2
       /\ Excel.wb x2
          = [Excel.Worksheet (L "04.2024") [Samples.date_row "15.03.2024"]].
Proof.
  exact (@C6_rename_and_idempotence _ Samples.march_ledger _ [L "04.2024"]
           eq_refl).
Defined.

(** Claim C6 fails as it is stated: the single sheet of [march_ledger]
    holds a row, and [handle_sheets] renames it all the same. *)
Lemma C6_used_sheet_renamed :
  Excel.rows (hd (Excel.Worksheet [] []) (Excel.wb Samples.march_ledger)) <> []
  /\ Excel.sheetnames (Excel.wb Samples.march_ledger) = [L "03.2024"]
  /\ match Excel.handle_sheets Samples.march_ledger [L "04.2024"] with
     | Ok x1 => Excel.wb x1
                = [Excel.Worksheet (L "04.2024")
                     [Samples.date_row "15.03.2024"]]
     | Raise _ => False
     end.
Proof. split; [discriminate|]. split; reflexivity. Qed.

(** ** The latest recorded date *)

Section Latest.
Import Excel.
Variable F : Type.
Variable float : str -> result F.

Lemma blank_after_last_used : forall (rs : list (row F)) k,
  last_used rs <= k -> Forall (fun r => r = []) (skipn k rs).
Proof.
  induction rs as [|r rs IH]; intros k H.
  - rewrite skipn_nil. constructor.
  - cbn [last_used] in H. destruct k as [|k]; cbn [skipn].
    + destruct (last_used rs) eqn:E; [|lia].
      destruct r; [|lia]. constructor; [reflexivity|].
      apply (IH 0). lia.
    + apply IH. destruct (last_used rs); lia.
Qed.

Lemma scan_blank : forall (rs : list (row F)) d,
  Forall (fun r => r = []) rs -> for_each (@scan_row F) rs d = Ok d.
Proof.
  induction 1 as [|r rs Hr _ IH]; [reflexivity|].
  subst r. cbn [for_each]. exact IH.
Qed.

(** The empty rows after the last row with cells do not count. *)
Lemma scan_all_rows : forall (ws : worksheet F) d,
  for_each (@scan_row F) (firstn (max_row ws) (rows ws)) d
  = for_each (@scan_row F) (rows ws) d.
Proof.
  intros ws d.
  rewrite <- (firstn_skipn (max_row ws) (rows ws)) at 2.
  rewrite for_each_app.
  destruct (for_each (@scan_row F) (firstn (max_row ws) (rows ws)) d)
    as [d1|e]; [|reflexivity].
  cbn [bind]. symmetry. apply scan_blank. apply blank_after_last_used.
  unfold max_row. lia.
Qed.

Lemma scan_row_le : forall d (r : row F) d',
  scan_row d r = Ok d' -> dt_le d d'.
Proof.
  intros d r d' H. unfold scan_row in H.
  destruct (first_value r) as [|[|a s]|?];
    try (inversion H; subst; apply dt_le_refl).
  destruct (Re.match_here DATE_FORMAT_PATTERN (a :: s)) as [[rest c]|];
    [|inversion H; subst; apply dt_le_refl].
  destruct (Strptime.strptime _ _) as [g|e]; [|discriminate H].
  cbn [bind] in H. destruct (dt_gtb g d) eqn:G; inversion H; subst.
  - apply dt_gtb_le. exact G.
  - apply dt_le_refl.
Qed.

(** Scanning more rows never lowers the latest date. *)
Lemma scan_le : forall (rs : list (row F)) d d',
  for_each (@scan_row F) rs d = Ok d' -> dt_le d d'.
Proof.
  induction rs as [|r rs IH]; intros d d' H; cbn [for_each] in H.
  - inversion H; subst. apply dt_le_refl.
  - destruct (scan_row d r) as [d1|e] eqn:E; [|discriminate H].
    cbn [bind] in H. eapply dt_le_trans.
    + eapply scan_row_le. exact E.
    + apply IH. exact H.
Qed.

Lemma Forall2_rev : forall (A B : Type) (R : A -> B -> Prop) l l',
  Forall2 R l l' -> Forall2 R (rev l) (rev l').
Proof.
  induction 1; cbn [rev]; [constructor|].
  apply Forall2_app; [assumption | constructor; [assumption | constructor]].
Qed.

End Latest.

(** Claim C5 fails as it is stated: the ledger holds February and March
    2024, its latest date is 15 March; appending a receipt of January
    creates the sheet of January after them, and the latest date becomes
    5 January. *)
Lemma C5_cutoff_decreases :
  Excel.latest_grocery_date Samples.two_month_ledger
    = Ok (Datetime 2024 3 15 0 0 0 0)
  /\ (x' <- Excel.insert_data Excel.decimal_float Samples.two_month_ledger
              Samples.january_bucket ;;
      Excel.latest_grocery_date x') = Ok (Datetime 2024 1 5 0 0 0 0)
  /\ dt_gtb (Datetime 2024 3 15 0 0 0 0) (Datetime 2024 1 5 0 0 0 0) = true.
Proof. repeat split; reflexivity. Qed.

(** Two dates of the same month, written [dd] and then the same text:
    the order of the strings is the order of the days. *)
Lemma same_month_day_order : forall a1 b1 a2 b2 rest,
  Re.is_digit a1 = true -> Re.is_digit b1 = true ->
  Re.is_digit a2 = true -> Re.is_digit b2 = true ->
  (str_ltb (a1 :: b1 :: rest) (a2 :: b2 :: rest) = true
   <-> (10 * SyncSpec.digit a1 + SyncSpec.digit b1
        < 10 * SyncSpec.digit a2 + SyncSpec.digit b2)%N).
Proof.
  intros a1 b1 a2 b2 rest H1 H2 H3 H4.
  unfold Re.is_digit, in_range in *.
  repeat match goal with
         | H : _ && _ = true |- _ => apply andb_true_iff in H; destruct H
         | H : (_ <=? _)%N = true |- _ => apply N.leb_le in H
         end.
  cbn [str_ltb]. unfold SyncSpec.digit. rewrite str_ltb_irrefl.
  destruct (N.ltb_spec (code a1) (code a2)), (N.ltb_spec (code a2) (code a1)),
           (N.ltb_spec (code b1) (code b2)), (N.ltb_spec (code b2) (code b1));
    split; intro; try lia; try discriminate; try reflexivity.
Qed.

(** Claim C3 fails as it is stated: the two receipts are of the same day,
    the captured dates are equal, and the block of the receipt of 18:42,
    whose item list sorts first, is written before the block of the
    receipt of 09:15. *)
Lemma C3_evening_before_morning :
  match (b <- DataParser.parse_data [Samples.morning_doc; Samples.evening_doc] ;;
         Excel.insert_data Excel.decimal_float Samples.fresh_ledger b) with
  | Ok x' =>
      map (@Excel.first_column _) (Excel.wb x')
      = [[Excel.VStr (L "15.03.2024"); Excel.VStr (L "Nazwa");
          Excel.VStr (L "Apple"); Excel.VStr (L "Suma");
          Excel.VNone; Excel.VNone;
          Excel.VStr (L "15.03.2024"); Excel.VStr (L "Nazwa");
          Excel.VStr (L "Zebra"); Excel.VStr (L "Suma");
          Excel.VNone; Excel.VNone]]
  | Raise _ => False
  end.
Proof. vm_compute. reflexivity. Qed.

(** The whole way of [no_items_doc] into a ledger that has just been
    created: the default sheet becomes the sheet of March 2024 and
    receives the block without item rows, with the sum over rows 3 to 2. *)
Example insert_document_without_items :
  match (b <- DataParser.parse_data [Samples.no_items_doc] ;;
         Excel.insert_data Excel.decimal_float Samples.fresh_ledger b) with
  | Ok x' =>
      Excel.wb x'
      = [Excel.Worksheet (L "03.2024")
           [[Excel.plain (Excel.VStr (L "10.03.2024"))];
            map (@Excel.plain _) (Excel.header_row _);
            [Excel.plain (Excel.VStr (L "Suma"));
             Excel.Cell (Excel.VStr (L "=SUM(B3:B2)")) Excel.CURRENCY_FORMAT;
             Excel.Cell
               (Excel.VStr
                  (L "=SUMIF(C3:C2,TRUE,B3:B2)-SUMIFS(B3:B2,D3:D2,TRUE,C3:C2,TRUE)/2"))
               Excel.CURRENCY_FORMAT;
             Excel.Cell
               (Excel.VStr
                  (L "=SUMIF(D3:D2,TRUE,B3:B2)-SUMIFS(B3:B2,D3:D2,TRUE,C3:C2,TRUE)/2"))
               Excel.CURRENCY_FORMAT];
            []; []]]
      /\ Excel.file x' = Excel.wb x'
  | Raise _ => False
  end.
Proof. vm_compute. split; reflexivity. Qed.


(** ** Grouping by period *)

Section Grouping.
Import DataParser Reading.

Lemma str_eqb_sym : forall s t, str_eqb s t = str_eqb t s.
Proof.
  intros s t. destruct (str_eqb s t) eqn:E.
  - apply str_eqb_eq in E. subst t. symmetry. apply str_eqb_refl.
  - destruct (str_eqb t s) eqn:E'; [|reflexivity].
    apply str_eqb_eq in E'. subst t. rewrite str_eqb_refl in E. discriminate E.
Qed.

Lemma bucket_get_setdefault : forall key doc d key',
  bucket_get key' (setdefault_append key doc d)
  = if str_eqb key key' then bucket_get key' d ++ [doc] else bucket_get key' d.
Proof.
  induction d as [|[k docs] d IH]; intro key'; cbn [setdefault_append bucket_get].
  - destruct (str_eqb key key'); reflexivity.
  - destruct (str_eqb k key) eqn:E; cbn [bucket_get].
    + apply str_eqb_eq in E. subst k.
      destruct (str_eqb key key'); reflexivity.
    + destruct (str_eqb k key') eqn:E'.
      * apply str_eqb_eq in E'. subst k.
        rewrite (str_eqb_sym key key'), E. reflexivity.
      * apply IH.
Qed.

Lemma keys_setdefault : forall key doc d,
  map fst (setdefault_append key doc d)
  = if existsb (str_eqb key) (map fst d) then map fst d
    else map fst d ++ [key].
Proof.
  induction d as [|[k docs] d IH]; cbn [setdefault_append map fst existsb].
  - reflexivity.
  - destruct (str_eqb k key) eqn:E; cbn [map fst].
    + apply str_eqb_eq in E. subst k. rewrite str_eqb_refl. reflexivity.
    + rewrite (str_eqb_sym key k), E, IH. cbn [orb].
      destruct (existsb (str_eqb key) (map fst d)); reflexivity.
Qed.

Lemma keys_setdefault_NoDup : forall key doc d,
  NoDup (map fst d) -> NoDup (map fst (setdefault_append key doc d)).
Proof.
  intros key doc d ND. rewrite keys_setdefault.
  destruct (existsb (str_eqb key) (map fst d)) eqn:E; [exact ND|].
  apply NoDup_app; [exact ND | repeat constructor; intros [] |].
  intros k Hk [Ek | []]. subst k.
  assert (existsb (str_eqb key) (map fst d) = true); [|congruence].
  apply existsb_exists. exists key. split; [exact Hk | apply str_eqb_refl].
Qed.

Lemma bucket_get_in : forall key docs d,
  NoDup (map fst d) -> In (key, docs) d -> bucket_get key d = docs.
Proof.
  induction d as [|[k l] d IH]; intros ND Hin; [contradiction|].
  cbn [map fst] in ND. inversion ND as [|? ? Hk ND']; subst.
  cbn [bucket_get]. destruct Hin as [E | Hin].
  - inversion E; subst. rewrite str_eqb_refl. reflexivity.
  - destruct (str_eqb k key) eqn:E; [|apply IH; assumption].
    apply str_eqb_eq in E. subst k. exfalso. apply Hk.
    apply in_map_iff. exists (key, docs). auto.
Qed.

Lemma has_key_ok : forall key doc,
  month_year doc = Ok key -> forall key',
  has_key key' doc = str_eqb key key'.
Proof. intros key doc H key'. unfold has_key. rewrite H. reflexivity. Qed.

(** The loop of [assign_to_months], from any dictionary. *)
Lemma assign_loop : forall data d0 d,
  for_each (fun dates_d doc => key <- month_year doc ;;
                               Ok (setdefault_append key doc dates_d))
           data d0 = Ok d ->
  NoDup (map fst d0) ->
  Forall (fun p => snd p <> []) d0 ->
  NoDup (map fst d)
  /\ Forall (fun p => snd p <> []) d
  /\ (forall key, bucket_get key d
                  = bucket_get key d0 ++ filter (has_key key) data)
  /\ Forall (fun doc => exists key, month_year doc = Ok key) data.
Proof.
  induction data as [|doc data IH]; intros d0 d H ND NE; cbn [for_each] in H.
  - inversion H; subst. repeat split; auto.
    intro key. cbn [filter]. rewrite app_nil_r. reflexivity.
  - destruct (month_year doc) as [k|e] eqn:K; [|discriminate H].
    cbn [bind] in H. apply IH in H.
    + destruct H as [H1 [H2 [H3 H4]]]. repeat split; eauto.
      intro key. rewrite H3, bucket_get_setdefault. cbn [filter].
      rewrite (has_key_ok _ K). destruct (str_eqb k key).
      * rewrite <- app_assoc. reflexivity.
      * reflexivity.
    + apply keys_setdefault_NoDup. exact ND.
    + clear - NE. induction d0 as [|[k' l] d0 IH]; cbn [setdefault_append].
      * repeat constructor. discriminate.
      * inversion NE; subst. destruct (str_eqb k' k).
        -- constructor; [|assumption]. cbn [snd]. destruct l; discriminate.
        -- constructor; [assumption | apply IH; assumption].
Qed.

(** Extra X1.  [assign_to_months] loses no document and merges none: the
    period keys of the result are distinct, the list under a key is never
    empty and holds exactly the documents whose date gives that key, in
    the order in which they came, and every document has such a key. *)
Theorem X1_grouping_is_exact : forall data d,
  assign_to_months data = Ok d ->
  NoDup (map fst d)
  /\ (forall key docs, In (key, docs) d ->
        docs <> [] /\ docs = filter (has_key key) data)
  /\ (forall doc, In doc data ->
        exists key, month_year doc = Ok key
                    /\ In doc (bucket_get key d)).
Proof.
  intros data d H. unfold assign_to_months in H.
  apply assign_loop in H; [|constructor|constructor].
  destruct H as [H1 [H2 [H3 H4]]]. split; [exact H1|]. split.
  - intros key docs Hin. split.
    + rewrite Forall_forall in H2. apply (H2 (key, docs) Hin).
    + rewrite <- (@bucket_get_in key docs d H1 Hin), H3. reflexivity.
  - intros doc Hin. rewrite Forall_forall in H4.
    destruct (H4 doc Hin) as [key K]. exists key. split; [exact K|].
    rewrite H3. cbn [bucket_get app]. apply filter_In. split; [exact Hin|].
    rewrite (has_key_ok _ K). apply str_eqb_refl.
Qed.

Lemma X1_grouping_is_exact_witness :
  NoDup (map fst
           ([(L "03.2024", [(L "15.03.2024", []); (L "01.03.2024", [])]);
             (L "04.2024", [(L "02.04.2024", [])])] : bucket)).
Proof.
  apply (@X1_grouping_is_exact
           [(L "15.03.2024", []); (L "02.04.2024", []); (L "01.03.2024", [])]
           [(L "03.2024", [(L "15.03.2024", []); (L "01.03.2024", [])]);
            (L "04.2024", [(L "02.04.2024", [])])]
           eq_refl).
Defined.

End Grouping.

(** ** The shape of what the patterns capture *)

Module Shapes.
Import Re ReSem ReFacts FinditerFacts DataParser ParserFacts Reading.

Lemma all_ascii_complete : forall a, In a all_ascii.
Proof.
  intro a. unfold all_ascii. rewrite <- (ascii_nat_embedding a).
  apply in_map. apply in_seq. pose proof (nat_ascii_bounded a). lia.
Qed.

(** An inclusion of character classes, decided by trying every
    character. *)
Lemma ascii_implies : forall p q : ascii -> bool,
  forallb (fun a => implb (p a) (q a)) all_ascii = true ->
  forall a, p a = true -> q a = true.
Proof.
  intros p q H a Pa. rewrite forallb_forall in H.
  specialize (H a (all_ascii_complete a)). rewrite Pa in H. exact H.
Qed.

(** From [H : p a = true], the fact [q a = true]. *)
Ltac ascii_fact H q :=
  match type of H with
  | ?p ?a = true =>
      let N := fresh "N" in
      assert (N : q a = true)
        by (revert H; apply (ascii_implies p q); vm_compute; reflexivity)
  end.

Ltac inv_matches :=
  repeat match goal with
         | H : matches (Cat _ _) _ _ _ |- _ => inversion H; subst; clear H
         | H : matches (Alt _ _) _ _ _ |- _ => inversion H; subst; clear H
         | H : matches (Cls _) _ _ _ |- _ => inversion H; subst; clear H
         | H : matches (Lit _) _ _ _ |- _ => inversion H; subst; clear H
         | H : matches (Opt _) _ _ _ |- _ => inversion H; subst; clear H
         | H : matches Eps _ _ _ |- _ => inversion H; subst; clear H
         end.

(** [s.replace(c, d)] for single characters changes every [c] and nothing
    else. *)
Lemma replace_char : forall c d s,
  replace [c] [d] s = map (fun a => if Ascii.eqb c a then d else a) s.
Proof.
  intros c d. unfold replace. induction s as [|a s IH]; [reflexivity|].
  cbn [replace_from strip_prefix length pred map].
  destruct (Ascii.eqb c a); cbn [app]; rewrite IH; reflexivity.
Qed.

(** What a character of the classes of the patterns can be. *)
Ltac char_facts :=
  repeat match goal with
         | H : ?p ?a = true |- _ =>
             is_var a;
             lazymatch p with
             | is_digit => fail
             | one_of (L "/-.") => fail
             | one_of (L ",.") => fail
             | not_point => fail
             | not_blank => fail
             | not_comma => fail
             | to_point => fail
             | _ => ascii_fact H is_digit; clear H
             end
         end;
  repeat match goal with
         | H : is_digit ?a = true |- _ =>
             lazymatch goal with
             | _ : not_point a = true |- _ => fail
             | _ => ascii_fact H not_point; ascii_fact H not_blank;
                    ascii_fact H not_comma
             end
         end;
  repeat match goal with
         | H : one_of (L "/-.") ?a = true |- _ =>
             lazymatch goal with
             | _ : not_blank a = true |- _ => fail
             | _ => ascii_fact H not_blank
             end
         | H : one_of (L ",.") ?a = true |- _ =>
             lazymatch goal with
             | _ : to_point a = true |- _ => fail
             | _ => ascii_fact H to_point
             end
         end.

Ltac use_char_facts :=
  repeat match goal with
         | H : not_point ?a = true |- _ =>
             apply negb_true_iff in H; try rewrite H
         | H : not_blank ?a = true |- _ =>
             apply negb_true_iff in H; try rewrite H
         | H : not_comma ?a = true |- _ =>
             apply negb_true_iff in H; try rewrite H
         | H : to_point ?a = true |- _ =>
             apply Ascii.eqb_eq in H; try rewrite H
         end.

(** The date that [DATE_PATTERN] captures: two digits, a separator, two
    digits, a separator, four digits. *)
Lemma date_shape : forall c w c',
  matches (cat [day; date_sep; month; date_sep; year]) c w c' ->
  exists d1 d2 s1 m1 m2 s2 y1 y2 y3 y4,
    w = [d1; d2; s1; m1; m2; s2; y1; y2; y3; y4]
    /\ forallb is_digit [d1; d2; m1; m2; y1; y2; y3; y4] = true
    /\ forallb (one_of (L "/-.")) [s1; s2] = true.
Proof.
  intros c w c' H.
  cbv [cat day month year date_sep alt chr rng d19 d09 dd] in H.
  inv_matches; char_facts; cbn [app L list_ascii_of_string];
    do 10 eexists; (split; [reflexivity|]);
    cbn [forallb];
    repeat match goal with
           | H : _ = true |- _ => rewrite H
           end; split; reflexivity.
Qed.

Lemma date_group_shape : forall s rest c,
  match_here DATE_PATTERN s = Some (rest, c) ->
  exists date,
    c = [(1, date)]
    /\ matches (cat [day; date_sep; month; date_sep; year]) [] date [].
Proof.
  intros s rest c H. apply match_here_sound in H. destruct H as [w [_ M]].
  unfold DATE_PATTERN in M.
  change (cat [Grp 1 (cat [day; date_sep; month; date_sep; year]);
               chr " "; clock])
    with (Cat (Grp 1 (cat [day; date_sep; month; date_sep; year]))
              (Cat (chr " ") clock)) in M.
  do 2 split_cat M.
  apply matches_Grp_inv in M0. destruct M0 as [c2 [Ec M0]].
  no_group M0. no_group M1. no_group M. subst. eauto.
Qed.

End Shapes.

(** ** Dates and period keys *)

Section PeriodKeys.
Import Re ReSem DataParser Reading Shapes.

(** Extra X2.  The date of a parsed document is two digits, a separator,
    two digits, a separator and four digits, the separators among slash,
    hyphen and point.  Its period key is the text after the first point:
    month, separator and year when the first separator is a point, the
    bare year when only the second one is, and when neither is,
    [month_year] raises [IndexError]. *)
Theorem X2_period_key_of_date : forall doc date recs,
  parse_document doc = Ok (date, recs) ->
  exists d1 d2 s1 m1 m2 s2 y1 y2 y3 y4,
    date = [d1; d2; s1; m1; m2; s2; y1; y2; y3; y4]
    /\ forallb is_digit [d1; d2; m1; m2; y1; y2; y3; y4] = true
    /\ forallb (one_of (L "/-.")) [s1; s2] = true
    /\ month_year (date, recs)
       = key_of_date s1 [m1; m2] s2 [y1; y2; y3; y4].
Proof.
  intros doc date recs H.
  pose proof (parse_document_cases doc) as P.
  destruct (search DATE_PATTERN doc) as [mt|] eqn:S;
    [|rewrite P in H; discriminate H].
  destruct P as [date' [recs' [Ec [_ P]]]]. rewrite P in H.
  inversion H; subst date' recs'. clear H P.
  destruct (search_from_some _ _ _ S) as [k [rest M]].
  apply date_group_shape in M. destruct M as [date' [Ec' M]].
  rewrite Ec in Ec'. inversion Ec'; subst date'. clear Ec'.
  apply date_shape in M.
  destruct M as [d1 [d2 [s1 [m1 [m2 [s2 [y1 [y2 [y3 [y4 [E [D Sp]]]]]]]]]]]].
  exists d1, d2, s1, m1, m2, s2, y1, y2, y3, y4.
  split; [exact E|]. split; [exact D|]. split; [exact Sp|].
  subst date. cbn [forallb] in D, Sp.
  repeat match goal with
         | H : _ && _ = true |- _ => apply andb_true_iff in H; destruct H
         end.
  char_facts. unfold month_year, key_of_date. cbn [fst split_first].
  use_char_facts. cbn [fst snd split_first].
  repeat match goal with
         | H : Ascii.eqb _ "." = false |- _ => rewrite H
         end.
  cbn [fst snd].
  destruct (Ascii.eqb s1 "."); [reflexivity|]. cbn [fst snd].
  repeat match goal with
         | H : Ascii.eqb _ "." = false |- _ => rewrite H
         end.
  cbn [fst snd].
  destruct (Ascii.eqb s2 "."); [reflexivity|]. cbn [fst snd].
  repeat match goal with
         | H : Ascii.eqb _ "." = false |- _ => rewrite H
         end.
  reflexivity.
Qed.

Lemma X2_period_key_of_date_witness :
  month_year (L "15/03.2024", [[L "Milk"; L "4.50"]]) = Ok (L "2024").
Proof.
  destruct (@X2_period_key_of_date MoreSamples.mixed_date_doc
              (L "15/03.2024") [[L "Milk"; L "4.50"]] eq_refl)
    as [d1 [d2 [s1 [m1 [m2 [s2 [y1 [y2 [y3 [y4 [E [_ [_ K]]]]]]]]]]]]].
  inversion E; subst. exact K.
Defined.

End PeriodKeys.

(** ** The records of a document *)

Section RecordShape.
Import Re ReSem ReFacts FinditerFacts DataParser ParserFacts Reading Shapes.

Ltac eqb_subst :=
  repeat match goal with
         | H : Ascii.eqb _ _ = true |- _ => apply Ascii.eqb_eq in H; subst
         end.

Ltac all_true :=
  cbn [forallb];
  repeat match goal with
         | H : _ = true |- _ => rewrite H
         end;
  reflexivity.

(** A total as the patterns capture it: one to three digits, a comma or a
    point, two digits. *)
Lemma raw_price_shape : forall c w c',
  matches adjusted_total c w c' \/ matches line_total c w c' ->
  exists int sep frac,
    w = int ++ sep :: frac
    /\ 1 <= length int <= 3
    /\ forallb is_digit int = true
    /\ one_of (L ",.") sep = true
    /\ length frac = 2
    /\ forallb is_digit frac = true.
Proof.
  intros c w c' [H | H];
    cbv [adjusted_total line_total amount comma_or_dot cat alt chr rng d19 d09]
      in H;
    inv_matches; eqb_subst; char_facts; cbn [app];
    match goal with
    | |- exists int sep frac, [?a; ?b; ?c; ?s; ?d; ?e] = _ /\ _ =>
        exists [a; b; c], s, [d; e]
    | |- exists int sep frac, [?a; ?b; ?s; ?d; ?e] = _ /\ _ =>
        exists [a; b], s, [d; e]
    | |- exists int sep frac, [?a; ?s; ?d; ?e] = _ /\ _ =>
        exists [a], s, [d; e]
    end;
    cbn [length];
    (split; [reflexivity|]); (split; [lia|]); (split; [all_true|]);
    (split; [first [assumption | reflexivity]|]);
    (split; [reflexivity | all_true]).
Qed.

Lemma normalize_digits : forall l,
  forallb is_digit l = true ->
  map (fun a => if Ascii.eqb "," a then "."%char else a) l = l.
Proof.
  induction l as [|a l IH]; [reflexivity|]. cbn [forallb map]. intro H.
  apply andb_true_iff in H. destruct H as [Ha Hl].
  ascii_fact Ha not_comma. apply negb_true_iff in N.
  rewrite N, IH by exact Hl. reflexivity.
Qed.

(** ... and after [replace(',', '.')]: the same with a point. *)
Lemma normalized_price : forall int sep frac,
  forallb is_digit int = true -> one_of (L ",.") sep = true ->
  forallb is_digit frac = true ->
  replace (L ",") (L ".") (int ++ sep :: frac) = int ++ "."%char :: frac.
Proof.
  intros int sep frac Hi Hs Hf.
  change (L ",") with [","%char]. change (L ".") with ["."%char].
  rewrite replace_char, map_app. cbn [map].
  rewrite !normalize_digits by assumption.
  ascii_fact Hs to_point. apply Ascii.eqb_eq in N. rewrite N. reflexivity.
Qed.

Lemma record_of_match_shape : forall doc mt,
  In mt (finditer RECORD_PATTERN doc) ->
  exists name price,
    normalize_price (non_none_groups mt)
      = Ok [name; replace (L ",") (L ".") price]
    /\ accepts name_part name
    /\ (accepts adjusted_total price \/ accepts line_total price).
Proof.
  intros doc mt Hin.
  destruct (@finditer_match _ doc mt RECORD_PATTERN_not_nullable Hin)
    as [rest [Hm [_ _]]].
  destruct (@record_match_cases _ _ _ Hm) as [Hd | [_ Hp]].
  - apply match_here_sound in Hd. destruct Hd as [w [_ M]].
    apply discounted_shape in M.
    destruct M as [name [? [? [? [? [? [? [adj M]]]]]]]].
    destruct M as [_ [Ec [A1 [_ [_ [_ [_ [_ [_ A2]]]]]]]]].
    exists name, adj. unfold non_none_groups. rewrite Ec. simpl. auto.
  - apply match_here_sound in Hp. destruct Hp as [w [_ M]].
    apply plain_shape in M.
    destruct M as [name [? [total [_ [Ec [A1 [_ A2]]]]]]].
    exists name, total. unfold non_none_groups. rewrite Ec. simpl. auto.
Qed.

(** Extra X3.  Every record that the extractor returns is a name and a
    price; the name is not empty and has no line feed; the price is one to
    three digits, a point and two digits, whichever alternative matched
    and whether the text had a comma or a point. *)
Theorem X3_record_shape : forall doc,
  exists recs,
    doc_records doc = Ok recs
    /\ Forall (fun rec =>
                 exists name int frac,
                   rec = [name; int ++ "."%char :: frac]
                   /\ name <> [] /\ forallb is_dot name = true
                   /\ 1 <= length int <= 3
                   /\ forallb is_digit int = true
                   /\ length frac = 2
                   /\ forallb is_digit frac = true) recs.
Proof.
  intro doc. destruct (doc_records_total doc) as [recs [E [_ HF]]].
  exists recs. split; [exact E|].
  assert (G : Forall2 (fun (_ : m) rec =>
                exists name int frac,
                  rec = [name; int ++ "."%char :: frac]
                  /\ name <> [] /\ forallb is_dot name = true
                  /\ 1 <= length int <= 3
                  /\ forallb is_digit int = true
                  /\ length frac = 2
                  /\ forallb is_digit frac = true)
              (finditer RECORD_PATTERN doc) recs).
  { eapply Forall2_in_l; [exact HF|].
    intros mt rec Hin Hrec. cbv beta in Hrec.
    destruct (@record_of_match_shape doc mt Hin)
      as [name [price [Hn [An Ap]]]].
    rewrite Hn in Hrec. inversion Hrec; subst rec. clear Hrec.
    apply matches_Plus_inv in An. destruct An as [_ [Ne Dot]].
    apply raw_price_shape in Ap.
    destruct Ap as [int [sep [frac [Ew [Li [Di [Hs [Lf Df]]]]]]]].
    exists name, int, frac. subst price.
    rewrite normalized_price by assumption. repeat split; auto; lia. }
  clear - G. induction G; constructor; auto.
Qed.

End RecordShape.

(** ** What [insert_data] keeps *)

Section Kept.
Import Excel.
Variable F : Type.
Variable float : str -> result F.

Lemma app_eq_length : forall (A : Type) (l1 l2 l1' l2' : list A),
  l1 ++ l2 = l1' ++ l2' -> length l1 = length l1' -> l1 = l1' /\ l2 = l2'.
Proof.
  induction l1 as [|a l1 IH]; intros l2 [|a' l1'] l2' E Len;
    cbn [length] in Len; try discriminate Len.
  - auto.
  - cbn [app] in E. inversion E; subst.
    destruct (IH l2 l1' l2' H1) as [-> ->]; [lia | auto].
Qed.

Lemma with_sheet_names : forall t f (w w' : workbook F),
  (forall ws ws', f ws = Ok ws' -> title ws' = title ws) ->
  with_sheet t f w = Ok w' -> sheetnames w' = sheetnames w.
Proof.
  intros t f w w' Hf. revert w'.
  induction w as [|a w IH]; intros w' H; cbn [with_sheet] in H;
    [discriminate|].
  destruct (str_eqb (title a) t).
  - destruct (f a) as [a'|e] eqn:Fa; [|discriminate H].
    cbn [bind] in H. inversion H; subst. cbn [sheetnames map].
    rewrite (Hf _ _ Fa). reflexivity.
  - destruct (with_sheet t f w) as [w1|e] eqn:W; [|discriminate H].
    cbn [bind] in H. inversion H; subst. cbn [sheetnames map].
    f_equal. apply IH. reflexivity.
Qed.

(** The loop over the periods renames no sheet. *)
Lemma month_loop_names : forall ps (w w' : workbook F),
  for_each (fun w (p : str * list DataParser.document) =>
              with_sheet (fst p) (fun ws => write_month float ws (snd p)) w)
           ps w = Ok w' ->
  sheetnames w' = sheetnames w.
Proof.
  induction ps as [|p ps IH]; intros w w' H; cbn [for_each] in H.
  - inversion H. reflexivity.
  - destruct (with_sheet (fst p) (fun ws => write_month float ws (snd p)) w)
      as [w1|e] eqn:W; [|discriminate H].
    cbn [bind] in H. rewrite (IH _ _ H).
    eapply with_sheet_names; [|exact W].
    intros ws ws' Hw. eapply write_month_title. exact Hw.
Qed.

(** The parts of [insert_data]. *)
Lemma insert_data_parts : forall (x x' : dumper F) data_by_month,
  insert_data float x data_by_month = Ok x' ->
  exists x1 w,
    handle_sheets x (sorted str_ltb (map fst data_by_month)) = Ok x1
    /\ for_each (fun w (p : str * list DataParser.document) =>
                   with_sheet (fst p)
                              (fun ws => write_month float ws (snd p)) w)
                (sorted period_ltb data_by_month) (wb x1) = Ok w
    /\ save_excel_workbook (set_wb x1 w) = Ok x'.
Proof.
  intros x x' b H. unfold insert_data in H.
  destruct (handle_sheets x _) as [x1|e] eqn:Hs; [|discriminate H].
  cbn [bind] in H.
  destruct (for_each _ (sorted period_ltb b) (wb x1)) as [w|e] eqn:Lp;
    [|discriminate H].
  cbn [bind] in H. exists x1, w. auto.
Qed.

(** Extra X4.  [insert_data] only appends: the sheets that the workbook
    had are still there, in the same places and each with its former rows
    unchanged at the top; what is new are rows after them and sheets after
    the former sheets.  Unless the workbook had exactly one sheet, the
    former sheets also keep their titles. *)
Theorem X4_insert_data_appends_only :
  forall (x x' : dumper F) data_by_month,
    insert_data float x data_by_month = Ok x' ->
    exists kept added,
      wb x' = kept ++ added
      /\ Forall2 (@grows F) (wb x) kept
      /\ (length (wb x) <> 1 -> sheetnames kept = sheetnames (wb x)).
Proof.
  intros x x' b H. apply insert_data_parts in H.
  destruct H as [x1 [w [Hs [Lp Sv]]]].
  apply save_excel_workbook_wb in Sv. destruct Sv as [Sv _].
  cbn [wb set_wb] in Sv.
  pose proof (month_loop_names _ _ Lp) as Nm.
  apply handle_sheets_ok in Hs.
  destruct Hs as [w1 [extra [E [G1 [_ [_ R]]]]]].
  apply month_loop_grows in Lp. rewrite E in Lp, Nm.
  apply Forall2_app_inv_l in Lp.
  destruct Lp as [w1' [extra' [G2 [G3 Ew]]]].
  exists w1', extra'. rewrite Sv. split; [exact Ew|]. split.
  - eapply Forall2_grows_trans; eauto.
  - intro Len. destruct R as [[ws [? [? [R1 _]]]] | [_ R]].
    + rewrite R1 in Len. cbn [length] in Len. congruence.
    + subst w1. rewrite Ew in Nm. unfold sheetnames in *.
      rewrite !map_app in Nm. apply app_eq_length in Nm.
      * tauto.
      * rewrite !length_map. symmetry. eapply Forall2_length. exact G2.
Qed.

Lemma create_loop_NoDup : forall keys (w w' : workbook F),
  for_each (fun w key =>
              if existsb (fun sheetname => str_eqb sheetname key)
                         (sheetnames w)
              then Ok w
              else create_sheet w key) keys w = Ok w' ->
  NoDup (sheetnames w) -> NoDup (sheetnames w').
Proof.
  induction keys as [|key keys IH]; intros w w' H ND; cbn [for_each] in H.
  - inversion H; subst. exact ND.
  - destruct (existsb (fun sheetname => str_eqb sheetname key) (sheetnames w))
      eqn:E; cbn [bind] in H.
    + eapply IH; eauto.
    + unfold create_sheet in H. destruct (valid_title key); [|discriminate H].
      cbn [bind] in H. eapply IH; [exact H|].
      unfold sheetnames. rewrite map_app. cbn [map title].
      apply NoDup_app; [exact ND | repeat constructor; intros [] |].
      intros k Hk [Ek | []]. subst k.
      apply (proj2 (existsb_name key (sheetnames w))) in Hk. congruence.
Qed.

(** Extra X8.  [insert_data] keeps the titles of the sheets distinct. *)
Theorem X8_titles_stay_distinct :
  forall (x x' : dumper F) data_by_month,
    NoDup (sheetnames (wb x)) ->
    insert_data float x data_by_month = Ok x' ->
    NoDup (sheetnames (wb x')).
Proof.
  intros x x' b ND H. apply insert_data_parts in H.
  destruct H as [x1 [w [Hs [Lp Sv]]]].
  apply save_excel_workbook_wb in Sv. destruct Sv as [Sv _].
  cbn [wb set_wb] in Sv. rewrite Sv, (month_loop_names _ _ Lp).
  unfold handle_sheets in Hs.
  destruct (first_sheet_rename x _) as [x0|e] eqn:R; [|discriminate Hs].
  cbn [bind] in Hs. apply first_sheet_rename_ok in R. destruct R as [_ R].
  unfold create_sheets in Hs.
  destruct (for_each _ _ (wb x0)) as [w0|e] eqn:C; [|discriminate Hs].
  cbn [bind] in Hs. apply save_excel_workbook_wb in Hs.
  destruct Hs as [Hs _]. cbn [wb set_wb] in Hs. rewrite Hs.
  eapply create_loop_NoDup; [exact C|].
  destruct R as [[ws [key [rest [_ [_ [_ R]]]]]] | [_ R]]; rewrite R.
  - cbn. repeat constructor. intros [].
  - exact ND.
Qed.

(** Extra X9.  With an empty dictionary, [insert_data] raises
    [IndexError] on a workbook of exactly one sheet, whose rename reads
    the first of no keys, and leaves any other workbook as it is. *)
Theorem X9_nothing_to_insert : forall x : dumper F,
  (length (wb x) = 1 -> insert_data float x [] = Raise IndexError)
  /\ (length (wb x) <> 1 ->
      exists x', insert_data float x [] = Ok x' /\ wb x' = wb x).
Proof.
  intro x. unfold insert_data, handle_sheets, first_sheet_rename.
  cbn [map sorted fold_right]. unfold sheetnames. rewrite length_map.
  split; intro Len.
  - rewrite Len. reflexivity.
  - apply Nat.eqb_neq in Len. rewrite Len.
    destruct x as [w f [|] o]; cbn; eexists; split; reflexivity.
Qed.

(** What one save does to the dumper. *)
Lemma save_state : forall x x' : dumper F,
  save_excel_workbook x = Ok x' ->
  wb x' = wb x /\ locked x' = locked x
  /\ file x' = (if locked x then file x else wb x)
  /\ stdout x'
     = (if locked x
        then stdout x
             ++ [L "Please close the file that script tries to write to,"]
        else stdout x).
Proof.
  intros x x' H. rewrite save_excel_workbook_cases in H.
  inversion H as [H']. clear H H'.
  destruct x as [w f l o]. destruct l; cbn; auto.
Qed.

Lemma first_sheet_rename_saves : forall (x x0 : dumper F) data_keys,
  first_sheet_rename x data_keys = Ok x0 ->
  exists w, save_excel_workbook (set_wb x w) = Ok x0.
Proof.
  intros x x0 keys R. unfold first_sheet_rename in R.
  destruct (Nat.eqb _ 1).
  - destruct keys as [|key rest]; [discriminate R|].
    destruct (wb x) as [|ws ?]; [discriminate R|].
    destruct (valid_title key); [|discriminate R].
    cbn [bind] in R. eauto.
  - cbn [bind] in R. exists (wb x). destruct x. exact R.
Qed.

(** Extra X13.  A call of [insert_data] that returns has saved three
    times.  With the file free, the file then holds the workbook as it is
    in memory; with the file locked, the file holds what it held, and the
    message was printed three times. *)
Theorem X13_what_is_saved :
  forall (x x' : dumper F) data_by_month,
    insert_data float x data_by_month = Ok x' ->
    locked x' = locked x
    /\ file x' = (if locked x then file x else wb x')
    /\ stdout x'
       = (if locked x
          then stdout x
               ++ [L "Please close the file that script tries to write to,";
                   L "Please close the file that script tries to write to,";
                   L "Please close the file that script tries to write to,"]
          else stdout x).
Proof.
  intros x x' b H. apply insert_data_parts in H.
  destruct H as [x1 [w [Hs [_ Sv]]]].
  unfold handle_sheets in Hs.
  destruct (first_sheet_rename x _) as [x0|e] eqn:R; [|discriminate Hs].
  cbn [bind] in Hs. unfold create_sheets in Hs.
  destruct (for_each _ _ (wb x0)) as [w0|e] eqn:C; [|discriminate Hs].
  cbn [bind] in Hs.
  apply first_sheet_rename_saves in R. destruct R as [wr R].
  apply save_state in R. destruct R as [_ [L0 [F0 S0]]].
  apply save_state in Hs. destruct Hs as [_ [L1 [F1 S1]]].
  apply save_state in Sv. destruct Sv as [W2 [L2 [F2 S2]]].
  cbn [wb file locked stdout set_wb] in *.
  rewrite L2, L1, L0. split; [reflexivity|].
  rewrite L1, L0 in F2, S2. rewrite L0 in F1, S1.
  destruct (locked x).
  - rewrite F2, F1, F0, S2, S1, S0, <- !app_assoc. cbn [app]. auto.
  - rewrite F2, W2, S2, S1, S0. auto.
Qed.

End Kept.

Lemma X4_insert_data_appends_only_witness :
  exists kept added,
    Excel.wb
      (match Excel.insert_data Excel.decimal_float Samples.two_month_ledger
               Samples.january_bucket with
       | Ok x' => x'
       | Raise _ => Samples.two_month_ledger
       end) = kept ++ added
    /\ Forall2 (@Excel.grows _) Samples.two_month_book kept
    /\ (length Samples.two_month_book <> 1 ->
        Excel.sheetnames kept = [L "02.2024"; L "03.2024"]).
Proof.
  exact (@X4_insert_data_appends_only _ Excel.decimal_float
           Samples.two_month_ledger _ Samples.january_bucket eq_refl).
Defined.

Lemma X8_titles_stay_distinct_witness :
  NoDup
    (Excel.sheetnames
       (Excel.wb
          (match Excel.insert_data Excel.decimal_float
                   Samples.two_month_ledger Samples.january_bucket with
           | Ok x' => x'
           | Raise _ => Samples.two_month_ledger
           end))).
Proof.
  apply (@X8_titles_stay_distinct _ Excel.decimal_float
           Samples.two_month_ledger _ Samples.january_bucket).
  - repeat constructor; simpl; intuition discriminate.
  - reflexivity.
Defined.

Lemma X13_what_is_saved_witness :
  Excel.file
    (match Excel.insert_data Excel.decimal_float Samples.locked_ledger
             Samples.march_bucket with
     | Ok x' => x'
     | Raise _ => Samples.locked_ledger
     end) = Samples.march_book.
Proof.
  destruct (@X13_what_is_saved _ Excel.decimal_float Samples.locked_ledger
              _ Samples.march_bucket eq_refl) as [_ [H _]].
  exact H.
Defined.

Lemma X9_nothing_to_insert_witness :
  Excel.insert_data Excel.decimal_float Samples.march_ledger []
  = Raise IndexError
  /\ exists x',
       Excel.insert_data Excel.decimal_float Samples.two_month_ledger []
       = Ok x'
       /\ Excel.wb x' = Excel.wb Samples.two_month_ledger.
Proof.
  split.
  - exact (proj1 (@X9_nothing_to_insert _ Excel.decimal_float
                    Samples.march_ledger) eq_refl).
  - apply (proj2 (@X9_nothing_to_insert _ Excel.decimal_float
                    Samples.two_month_ledger)).
    cbn. discriminate.
Defined.

(** ** The latest date of a sheet *)

Section LatestFacts.
Import Excel Reading.
Variable F : Type.

Lemma scan_row_row_date : forall d (r : row F),
  scan_row d r
  = match row_date r with
    | None => Ok d
    | Some res => g <- res ;; Ok (if dt_gtb g d then g else d)
    end.
Proof.
  intros d r. unfold scan_row, row_date.
  destruct (first_value r) as [|[|a s]|?]; try reflexivity.
  destruct (Re.match_here DATE_FORMAT_PATTERN (a :: s)) as [[rest c]|];
    reflexivity.
Qed.

(** The result of the scan is the greatest of the start value and the
    dates of the rows. *)
Lemma scan_maximum : forall (rs : list (row F)) d0 d,
  for_each (@scan_row F) rs d0 = Ok d ->
  dt_le d0 d
  /\ (forall r g, In r rs -> row_date r = Some (Ok g) -> dt_le g d)
  /\ (d = d0 \/ exists r, In r rs /\ row_date r = Some (Ok d)).
Proof.
  induction rs as [|r rs IH]; intros d0 d H; cbn [for_each] in H.
  - inversion H; subst. split; [apply dt_le_refl|]. split.
    + intros r g [].
    + left. reflexivity.
  - destruct (scan_row d0 r) as [d1|e] eqn:E; [|discriminate H].
    cbn [bind] in H. destruct (IH _ _ H) as [L1 [M1 A1]].
    pose proof (scan_row_le _ _ E) as L0.
    rewrite scan_row_row_date in E.
    split; [eapply dt_le_trans; eauto|]. split.
    + intros r' g [Er | Hin] Hr; [subst r'|eapply M1; eauto].
      rewrite Hr in E. cbn [bind] in E.
      eapply dt_le_trans; [|exact L1].
      destruct (dt_gtb g d0) eqn:G; inversion E; subst d1.
      * apply dt_le_refl.
      * exact G.
    + destruct A1 as [A1 | [r' [Hin Hr]]];
        [subst d1|right; exists r'; split; [right; exact Hin|exact Hr]].
      destruct (row_date r) as [[g|e]|] eqn:Hr.
      * cbn [bind] in E.
        destruct (dt_gtb g d0); inversion E; [|left; reflexivity].
        right. exists r. split; [left; reflexivity|]. congruence.
      * discriminate E.
      * inversion E. left. reflexivity.
Qed.

Lemma row_date_raises : forall (r : row F) e,
  row_date r = Some (Raise e) -> e = ValueError.
Proof.
  intros r e H. unfold row_date in H.
  destruct (first_value r) as [|[|a s]|?]; try discriminate H.
  destruct (Re.match_here DATE_FORMAT_PATTERN (a :: s)) as [[rest c]|];
    [|discriminate H].
  inversion H as [Hs]. eapply strptime_raises_ValueError. exact Hs.
Qed.

(** A row whose date [strptime] refuses ends the scan. *)
Lemma scan_refused : forall (rs : list (row F)) d0 r e,
  In r rs -> row_date r = Some (Raise e) ->
  for_each (@scan_row F) rs d0 = Raise ValueError.
Proof.
  induction rs as [|r0 rs IH]; intros d0 r e Hin Hr; [destruct Hin|].
  cbn [for_each]. rewrite scan_row_row_date.
  destruct Hin as [E | Hin].
  - subst r0. rewrite Hr. apply row_date_raises in Hr. subst e.
    reflexivity.
  - destruct (row_date r0) as [[g|e0]|] eqn:E0.
    + cbn [bind]. eapply IH; eauto.
    + apply row_date_raises in E0. subst e0. reflexivity.
    + eapply IH; eauto.
Qed.

(** Extra X6.  What [latest_grocery_date] returns is the greatest of
    1 January 1800 and the dates that begin the first cells of the rows
    of the last sheet: no row of that sheet begins with a later date,
    and the date returned is 1 January 1800 or begins a row. *)
Theorem X6_latest_is_the_maximum : forall (x : dumper F) ws before d,
  wb x = before ++ [ws] ->
  latest_grocery_date x = Ok d ->
  dt_le epoch d
  /\ (forall r g, In r (rows ws) -> row_date r = Some (Ok g) -> dt_le g d)
  /\ (d = epoch \/ exists r, In r (rows ws) /\ row_date r = Some (Ok d)).
Proof.
  intros x ws before d W H. unfold latest_grocery_date in H.
  rewrite W, rev_app_distr in H. cbn [rev app] in H.
  rewrite scan_all_rows in H. apply scan_maximum in H.
  destruct H as [L0 [M A]]. auto.
Qed.

(** Extra X7.  A first cell of the last sheet whose text begins like a
    date, two digits, point, two digits, point, four digits, and names
    no day of the calendar makes [latest_grocery_date] raise
    [ValueError], wherever the row is and whatever the other rows
    hold. *)
Theorem X7_latest_refuses_bad_date : forall (x : dumper F) ws before r e,
  wb x = before ++ [ws] ->
  In r (rows ws) ->
  row_date r = Some (Raise e) ->
  latest_grocery_date x = Raise ValueError.
Proof.
  intros x ws before r e W Hin Hr. unfold latest_grocery_date.
  rewrite W, rev_app_distr. cbn [rev app].
  rewrite scan_all_rows. eapply scan_refused; eauto.
Qed.

End LatestFacts.

Lemma X6_latest_is_the_maximum_witness :
  dt_le Excel.epoch (Datetime 2024 3 15 0 0 0 0)
  /\ (forall r g, In r (Excel.rows (Excel.Worksheet (L "03.2024")
                                      [Samples.date_row "15.03.2024"])) ->
        Reading.row_date r = Some (Ok g) -> dt_le g (Datetime 2024 3 15 0 0 0 0))
  /\ (Datetime 2024 3 15 0 0 0 0 = Excel.epoch
      \/ exists r, In r (Excel.rows (Excel.Worksheet (L "03.2024")
                                       [Samples.date_row "15.03.2024"]))
                   /\ Reading.row_date r = Some (Ok (Datetime 2024 3 15 0 0 0 0))).
Proof.
  apply (@X6_latest_is_the_maximum Excel.decimal
           (Excel.Dumper [Excel.Worksheet (L "03.2024")
                            [Samples.date_row "15.03.2024"]] [] false [])
           _ [] _ eq_refl).
  vm_compute. reflexivity.
Defined.

Lemma X7_latest_refuses_bad_date_witness :
  Excel.latest_grocery_date MoreSamples.february_31_ledger
  = Raise ValueError.
Proof.
  apply (@X7_latest_refuses_bad_date Excel.decimal
           MoreSamples.february_31_ledger _ []
           (Samples.date_row "31.02.2024") ValueError eq_refl).
  - left. reflexivity.
  - vm_compute. reflexivity.
Defined.

(** ** The dates of the file names *)

Section FileDates.
Import Re ReSem ReFacts ParserFacts Shapes SyncSpec GoogleDrive.

Lemma year_of_20 : forall y3 y4,
  is_digit y3 = true -> is_digit y4 = true ->
  ((2000 <=? int_of ["2"%char; "0"%char; y3; y4])
   && (int_of ["2"%char; "0"%char; y3; y4] <=? 2099))%N = true.
Proof.
  intros y3 y4 D3 D4.
  assert (H : forallb (fun a =>
                forallb (fun b =>
                  ((2000 <=? int_of ["2"%char; "0"%char; a; b])
                   && (int_of ["2"%char; "0"%char; a; b] <=? 2099))%N) digits)
                digits = true) by (vm_compute; reflexivity).
  pose proof (forallb_digits _ H y3 D3) as H3. cbv beta in H3.
  exact (forallb_digits _ H3 y4 D4).
Qed.

(** What [%Y%m%d] reads after ['20']: a year made of ['20'] and two
    digits. *)
Lemma ymd_groups : forall p c,
  matches Strptime.fmt_Ymd [] ("2"%char :: "0"%char :: p) c ->
  exists y3 y4 gm gd,
    is_digit y3 = true /\ is_digit y4 = true
    /\ c = [(3, gd); (2, gm); (1, ["2"%char; "0"%char; y3; y4])].
Proof.
  intros p c M. unfold Strptime.fmt_Ymd in M. cbn [cat] in M.
  apply matches_Cat_inv in M. destruct M as [wy [w' [cy [E [My M]]]]].
  apply matches_Cat_inv in M. destruct M as [wm [wd [cm [E' [Mm Md]]]]].
  apply matches_Grp_inv in My. destruct My as [c1 [Ey My]].
  apply matches_Grp_inv in Mm. destruct Mm as [c2 [Em Mm]].
  apply matches_Grp_inv in Md. destruct Md as [c3 [Ed Md]].
  pose proof (matches_no_group Mm eq_refl) as N2.
  pose proof (matches_no_group Md eq_refl) as N3.
  cbv [Strptime.dir_Y cat] in My. inv_matches.
  cbn [app] in E. inversion E; subst.
  do 4 eexists. repeat split; eassumption.
Qed.

(** The date of a file name is a day of the years 2000 to 2099. *)
Lemma file_date_year : forall it d,
  file_grocery_date it = Ok d ->
  (2000 <= year d <= 2099)%N
  /\ d = Datetime (year d) (month d) (day d) 0 0 0 0.
Proof.
  intros it d H. unfold file_grocery_date, Strptime.strptime in H.
  change (L "20" ++ firstn 6 (name it))
    with ("2"%char :: "0"%char :: firstn 6 (name it)) in H.
  destruct (match_here Strptime.fmt_Ymd _) as [[[|? ?] c]|] eqn:E;
    try discriminate H.
  apply match_here_sound in E. destruct E as [w [Ew M]].
  rewrite app_nil_r in Ew. subst w.
  apply ymd_groups in M.
  destruct M as [y3 [y4 [gm [gd [D3 [D4 Ec]]]]]]. subst c.
  cbn [group Nat.eqb] in H.
  pose proof (year_of_20 _ _ D3 D4) as Y.
  apply andb_true_iff in Y. destruct Y as [Y1 Y2].
  apply N.leb_le in Y1. apply N.leb_le in Y2.
  match type of H with
  | (if ?b then _ else _) = _ => destruct b; [|discriminate H]
  end.
  inversion H; subst d. cbn [year month day]. auto.
Qed.

Lemma after_epoch : forall y mo dd,
  (2000 <= y)%N -> dt_gtb (Datetime y mo dd 0 0 0 0) Excel.epoch = true.
Proof.
  intros y mo dd Hy. unfold dt_gtb, dt_compare, fields, Excel.epoch.
  cbn [year month day hour minute second microsecond lex_compare].
  assert (G : (y ?= 1800)%N = Gt) by (apply N.compare_gt_iff; lia).
  rewrite G. reflexivity.
Qed.

Lemma compare_dates_epoch_from : forall items acc kept,
  for_each (fun groceries_after_threshold item =>
              d <- file_grocery_date item ;;
              Ok (if dt_gtb d Excel.epoch
                  then groceries_after_threshold ++ [item]
                  else groceries_after_threshold))
           items acc = Ok kept ->
  kept = acc ++ items.
Proof.
  induction items as [|it items IH]; intros acc kept H; cbn [for_each] in H.
  - inversion H. rewrite app_nil_r. reflexivity.
  - destruct (file_grocery_date it) as [d|e] eqn:E; [|discriminate H].
    cbn [bind] in H. destruct (file_date_year _ E) as [[Y _] Ed].
    rewrite Ed, (after_epoch _ _ Y) in H.
    apply IH in H. rewrite H, <- app_assoc. reflexivity.
Qed.

(** Extra X10.  The date that [compare_dates] reads from a file name is
    midnight of a day of the years 2000 to 2099, whatever the name. *)
Theorem X10_file_dates_in_this_century : forall it d,
  file_grocery_date it = Ok d ->
  (2000 <= year d <= 2099)%N
  /\ hour d = 0%N /\ minute d = 0%N /\ second d = 0%N
  /\ microsecond d = 0%N.
Proof.
  intros it d H. destruct (file_date_year _ H) as [Y E].
  split; [exact Y|]. rewrite E. cbn. auto.
Qed.

(** Extra X11.  With the cutoff of a ledger that holds no date,
    1 January 1800, no file is held back for its date: when
    [validate_to_download] returns, its plan is every listed file that
    is not in a local directory, in the order of the listing. *)
Theorem X11_first_run_takes_every_file : forall biedronka_pdfs w plan,
  validate_to_download biedronka_pdfs Excel.epoch w = Ok plan ->
  compare_dates biedronka_pdfs Excel.epoch = Ok biedronka_pdfs
  /\ plan = find_files_missing_locally biedronka_pdfs w.
Proof.
  intros pdfs w plan H. unfold validate_to_download in H.
  destruct (compare_dates pdfs Excel.epoch) as [items|e] eqn:E;
    [|discriminate H].
  cbn [bind] in H. unfold compare_dates in E.
  apply compare_dates_epoch_from in E. cbn [app] in E. subst items.
  inversion H. auto.
Qed.

End FileDates.

Lemma X10_file_dates_in_this_century_witness :
  (2000 <= year (Datetime 2024 3 10 0 0 0 0) <= 2099)%N
  /\ hour (Datetime 2024 3 10 0 0 0 0) = 0%N
  /\ minute (Datetime 2024 3 10 0 0 0 0) = 0%N
  /\ second (Datetime 2024 3 10 0 0 0 0) = 0%N
  /\ microsecond (Datetime 2024 3 10 0 0 0 0) = 0%N.
Proof.
  apply (@X10_file_dates_in_this_century Samples.receipt_file).
  vm_compute. reflexivity.
Defined.

Lemma X11_first_run_takes_every_file_witness :
  GoogleDrive.compare_dates [Samples.receipt_file] Excel.epoch
  = Ok [Samples.receipt_file]
  /\ [Samples.receipt_file]
     = GoogleDrive.find_files_missing_locally [Samples.receipt_file] [].
Proof.
  apply (@X11_first_run_takes_every_file [Samples.receipt_file] []).
  vm_compute. reflexivity.
Defined.

(** ** The names of the text files *)

Section TextFiles.
Import PDFProcessor GoogleDrive.

Lemma split_first_none : forall sep s t,
  ~ In sep s -> fst (split_first sep (s ++ sep :: t)) = s.
Proof.
  intros sep s t. induction s as [|a s IH]; intro H; cbn [app split_first].
  - rewrite Ascii.eqb_refl. reflexivity.
  - destruct (Ascii.eqb a sep) eqn:E.
    + apply Ascii.eqb_eq in E. exfalso. apply H. left. exact E.
    + destruct (split_first sep (s ++ sep :: t)) as [h r] eqn:S.
      cbn [fst] in *. rewrite IH; [reflexivity|].
      intro I. apply H. right. exact I.
Qed.

Lemma split_first_whole : forall sep s,
  ~ In sep s -> fst (split_first sep s) = s.
Proof.
  intros sep s. induction s as [|a s IH]; intro H; cbn [split_first].
  - reflexivity.
  - destruct (Ascii.eqb a sep) eqn:E.
    + apply Ascii.eqb_eq in E. exfalso. apply H. left. exact E.
    + destruct (split_first sep s) as [h r] eqn:S.
      cbn [fst] in *. rewrite IH; [reflexivity|].
      intro I. apply H. right. exact I.
Qed.

Lemma split_first_short : forall sep s t,
  In sep s -> length (fst (split_first sep (s ++ t))) < length s.
Proof.
  intros sep s t. induction s as [|a s IH]; intro H; [destruct H|].
  cbn [app split_first]. destruct (Ascii.eqb a sep) eqn:E.
  - cbn [fst length]. lia.
  - destruct H as [H | H]; [subst a; rewrite Ascii.eqb_refl in E;
                            discriminate E|].
    specialize (IH H).
    destruct (split_first sep (s ++ t)) as [h r].
    cbn [fst length] in *. lia.
Qed.

Lemma after_last_name : forall sep dir n,
  ~ In sep n -> after_last sep (dir ++ sep :: n) = n.
Proof.
  intros sep dir n H. unfold after_last.
  rewrite rev_app_distr. cbn [rev]. rewrite <- app_assoc. cbn [app].
  rewrite split_first_none; [apply rev_involutive|].
  intro I. apply H. apply in_rev. exact I.
Qed.

Lemma strip_prefix_length : forall p s r,
  strip_prefix p s = Some r -> length s = length p + length r.
Proof.
  induction p as [|a p IH]; intros s r H; cbn [strip_prefix] in H.
  - inversion H. reflexivity.
  - destruct s as [|b s]; [discriminate H|].
    destruct (Ascii.eqb a b); [|discriminate H].
    apply IH in H. cbn [length]. lia.
Qed.

(** Replacing a text by one of the same length keeps the length. *)
Lemma replace_from_length : forall old new,
  length new = length old -> old <> [] ->
  forall s skip,
    length (replace_from old new skip s) = length s - skip.
Proof.
  intros old new El Hn. induction s as [|a s IH]; intro skip;
    cbn [replace_from]; [reflexivity|].
  destruct skip as [|k].
  - destruct (strip_prefix old (a :: s)) as [r|] eqn:E.
    + apply strip_prefix_length in E. rewrite length_app, IH.
      destruct old; [congruence|]. cbn [length pred] in *. lia.
    + cbn [length]. rewrite IH. lia.
  - rewrite IH. reflexivity.
Qed.

Lemma replace_extension : forall stem,
  ~ In "."%char stem ->
  replace (L ".pdf") (L ".txt") (stem ++ L ".pdf") = stem ++ L ".txt".
Proof.
  unfold replace. induction stem as [|a stem IH]; intro H.
  - reflexivity.
  - cbn [app replace_from].
    change (strip_prefix (L ".pdf") (a :: stem ++ L ".pdf"))
      with (if Ascii.eqb "." a
            then strip_prefix (L "pdf") (stem ++ L ".pdf") else None).
    destruct (Ascii.eqb "." a) eqn:E.
    + apply Ascii.eqb_eq in E. exfalso. apply H. left. symmetry. exact E.
    + rewrite IH; [reflexivity|]. intro I. apply H. right. exact I.
Qed.

Lemma is_in_local_dir_added : forall item ds1 f files ds2,
  is_in_local_dir item (ds1 ++ (f :: files) :: ds2)
  = str_eqb (replace (L ".pdf") (L ".txt") (name item)) f
    || is_in_local_dir item (ds1 ++ files :: ds2).
Proof.
  intros item ds1 f files ds2. unfold is_in_local_dir.
  rewrite !existsb_app. cbn [existsb].
  destruct (existsb _ ds1); [rewrite orb_true_r; reflexivity|].
  cbn [orb]. rewrite orb_assoc. reflexivity.
Qed.

(** Extra X12.  The text of a downloaded file [dir\stem.pdf] is stored
    under the first part of its name, up to the first point, with
    [.txt].  When [stem] holds no point, this is the name that
    [is_in_local_dir] looks for, and the file counts as present in every
    listing of directories that has the text file.  When [stem] holds a
    point it is another name: the text file does not make the file count
    as present. *)
Theorem X12_text_file_and_lookup :
  forall dir stem (item : drive_file) ds1 files ds2,
  name item = stem ++ L ".pdf" ->
  ~ In "\"%char stem ->
  let written := txt_file (txt_stem (dir ++ "\"%char :: name item)) in
  (~ In "."%char stem ->
     written = stem ++ L ".txt"
     /\ is_in_local_dir item (ds1 ++ (written :: files) :: ds2) = true)
  /\ (In "."%char stem ->
        is_in_local_dir item (ds1 ++ (written :: files) :: ds2)
        = is_in_local_dir item (ds1 ++ files :: ds2)).
Proof.
  intros dir stem item ds1 files ds2 En Hb written.
  assert (Ea : after_last "\" (dir ++ "\"%char :: name item)
               = stem ++ L ".pdf").
  { rewrite En. apply after_last_name. intro I. apply in_app_or in I.
    destruct I as [I | I]; [exact (Hb I)|].
    cbn in I. repeat (destruct I as [I | I]; [discriminate I|]). exact I. }
  assert (Ew : written = fst (split_first "." (stem ++ L ".pdf"))
                         ++ L ".txt").
  { unfold written, txt_file, txt_stem. rewrite Ea. reflexivity. }
  split.
  - intro Hp.
    assert (E : written = stem ++ L ".txt").
    { rewrite Ew.
      change (stem ++ L ".pdf") with (stem ++ "."%char :: L "pdf").
      rewrite split_first_none by exact Hp. reflexivity. }
    split; [exact E|].
    rewrite is_in_local_dir_added, En, replace_extension by exact Hp.
    rewrite E, str_eqb_refl. reflexivity.
  - intro Hp. rewrite is_in_local_dir_added.
    assert (N : str_eqb (replace (L ".pdf") (L ".txt") (name item)) written
                = false); [|rewrite N; reflexivity].
    destruct (str_eqb _ written) eqn:E; [|reflexivity].
    apply str_eqb_eq in E. apply (f_equal (@length ascii)) in E.
    unfold replace in E.
    rewrite replace_from_length in E by (reflexivity || discriminate).
    rewrite En, Ew, !length_app in E.
    pose proof (@split_first_short "."%char stem (L ".pdf") Hp) as S.
    cbn [length L list_ascii_of_string] in E, S. lia.
Qed.

End TextFiles.

Lemma X12_text_file_and_lookup_witness :
  (PDFProcessor.txt_file (PDFProcessor.txt_stem MoreSamples.receipt_path)
   = L "240310_receipt.txt"
   /\ GoogleDrive.is_in_local_dir Samples.receipt_file
        [[PDFProcessor.txt_file
            (PDFProcessor.txt_stem MoreSamples.receipt_path)]] = true)
  /\ GoogleDrive.is_in_local_dir
       (DriveFile (L "3") (L "240310.receipt.pdf"))
       [[PDFProcessor.txt_file
           (PDFProcessor.txt_stem (L "C:\receipts.d\240310.receipt.pdf"))]]
     = GoogleDrive.is_in_local_dir
         (DriveFile (L "3") (L "240310.receipt.pdf")) [[]].
Proof.
  split.
  - apply (proj1 (@X12_text_file_and_lookup (L "C:\receipts.d")
                    (L "240310_receipt") Samples.receipt_file [] [] []
                    eq_refl
                    ltac:(cbn; intro H;
                          repeat (destruct H as [H | H];
                                  [discriminate H|]); exact H))).
    cbn. intro H.
    repeat (destruct H as [H | H]; [discriminate H|]). exact H.
  - apply (proj2 (@X12_text_file_and_lookup (L "C:\receipts.d")
                    (L "240310.receipt")
                    (DriveFile (L "3") (L "240310.receipt.pdf")) [] [] []
                    eq_refl
                    ltac:(cbn; intro H;
                          repeat (destruct H as [H | H];
                                  [discriminate H|]); exact H))).
    cbn. auto 10.
Defined.

(** ** What [insert_data] leaves in the sheets *)

Section Inserted.
Import Excel Reading.
Variable F : Type.
Variable float : str -> result F.

Lemma find_sheet_last : forall (front : workbook F) ws,
  ~ In (title ws) (sheetnames front) ->
  find_sheet (title ws) (front ++ [ws]) = Some ws.
Proof.
  induction front as [|a front IH]; intros ws H; cbn [app find_sheet].
  - rewrite str_eqb_refl. reflexivity.
  - destruct (str_eqb (title a) (title ws)) eqn:E.
    + apply str_eqb_eq in E. exfalso. apply H. left. exact E.
    + apply IH. intro I. apply H. right. exact I.
Qed.


(** When the loop of [create_sheets] creates a sheet, the last sheet of
    the workbook is one that it created: an empty sheet under a key that
    was the title of no sheet before it. *)
Lemma create_loop_last : forall keys (w w' : workbook F),
  for_each (fun w key =>
              if existsb (fun sheetname => str_eqb sheetname key)
                         (sheetnames w)
              then Ok w
              else create_sheet w key) keys w = Ok w' ->
  w' = w
  \/ exists front key,
       w' = front ++ [Worksheet key []]
       /\ In key keys /\ ~ In key (sheetnames front)
       /\ length w <= length front.
Proof.
  induction keys as [|key keys IH]; intros w w' H; cbn [for_each] in H.
  - inversion H. left. reflexivity.
  - destruct (existsb (fun sheetname => str_eqb sheetname key) (sheetnames w))
      eqn:E; cbn [bind] in H.
    + destruct (IH _ _ H) as [-> | [front [k [E1 [E2 [E3 E4]]]]]];
        [left; reflexivity|].
      right. exists front, k. repeat split; auto. right. exact E2.
    + unfold create_sheet in H.
      destruct (valid_title key); [|discriminate H].
      cbn [bind] in H.
      destruct (IH _ _ H) as [-> | [front [k [E1 [E2 [E3 E4]]]]]].
      * right. exists w, key. repeat split; auto.
        -- left. reflexivity.
        -- intro I. apply existsb_name in I. congruence.
      * right. exists front, k. repeat split; auto.
        -- right. exact E2.
        -- rewrite length_app in E4. cbn [length] in E4. lia.
Qed.

(** The scan of [latest_grocery_date] returns a date or raises
    [ValueError]. *)
Lemma scan_outcome : forall (rs : list (row F)) d,
  (exists d', for_each (@scan_row F) rs d = Ok d')
  \/ for_each (@scan_row F) rs d = Raise ValueError.
Proof.
  induction rs as [|r rs IH]; intro d; cbn [for_each]; [left; eauto|].
  destruct (scan_row d r) as [d1|e] eqn:E; cbn [bind]; [apply IH|].
  right. rewrite scan_row_row_date in E.
  destruct (row_date r) as [[g|e']|] eqn:R; try discriminate E.
  cbn [bind] in E. apply row_date_raises in R. congruence.
Qed.

Lemma latest_of_last : forall (x : dumper F) before ws,
  wb x = before ++ [ws] ->
  latest_grocery_date x = for_each (@scan_row F) (rows ws) epoch.
Proof.
  intros x before ws W. unfold latest_grocery_date.
  rewrite W, rev_app_distr. cbn [rev app]. apply scan_all_rows.
Qed.

Lemma month_rows_empty : forall key bs,
  month_rows (Worksheet key ([] : list (row F))) bs = blocks 0 bs.
Proof. reflexivity. Qed.

(** Claim C5, as amended.  When the append creates no sheet, reading the
    latest recorded date afterwards raises [ValueError] or gives a date
    that is not earlier than the one read before.  When the append
    creates a sheet, the last sheet afterwards is a created one: it holds
    the blocks of one period of the bucket and nothing else, and the
    latest recorded date afterwards is what the scan of these blocks
    gives, whatever the sheets before it hold. *)
Theorem C5_cutoff_after_append :
  forall (x x' : dumper F) data_by_month,
    insert_data float x data_by_month = Ok x' ->
    (length (wb x') = length (wb x) ->
     forall d, latest_grocery_date x = Ok d ->
       latest_grocery_date x' = Raise ValueError
       \/ exists d', latest_grocery_date x' = Ok d' /\ dt_le d d')
    /\ (length (wb x') <> length (wb x) ->
        NoDup (map fst data_by_month) ->
        exists month data bs before,
          In (month, data) data_by_month
          /\ ~ In month (sheetnames before)
          /\ length (wb x) <= length before
          /\ Forall2 (writes float) (sorted document_ltb data) bs
          /\ wb x' = before ++ [Worksheet month (blocks 0 bs)]
          /\ latest_grocery_date x'
             = for_each (@scan_row F) (blocks 0 bs) epoch).
Proof.
  intros x x' b H. apply insert_data_parts in H.
  destruct H as [x1 [w [Hs [Lp Sv]]]].
  apply save_excel_workbook_wb in Sv. destruct Sv as [Sv _].
  cbn [wb set_wb] in Sv. split.
  - intros Len d L1.
    apply handle_sheets_ok in Hs.
    destruct Hs as [w1 [extra [E [G1 _]]]].
    apply month_loop_grows in Lp. rewrite E in Lp.
    apply Forall2_app_inv_l in Lp.
    destruct Lp as [w1' [extra' [G2 [G3 Ew]]]].
    assert (G : Forall2 (@grows F) (wb x) (wb x')).
    { pose proof (Forall2_length G1) as N1.
      pose proof (Forall2_length G2) as N2.
      rewrite Sv, Ew, length_app in Len.
      destruct extra' as [|? ?]; [|cbn [length] in Len; lia].
      rewrite Sv, Ew, app_nil_r. eapply Forall2_grows_trans; eauto. }
    apply Forall2_rev in G.
    unfold latest_grocery_date in *.
    destruct G as [|ws ws' r r' [new Hg] _]; [discriminate L1|].
    rewrite scan_all_rows in *. rewrite Hg, for_each_app, L1. cbn [bind].
    destruct (scan_outcome new d) as [[d' Hd] | Hd]; rewrite Hd.
    + right. exists d'. split; [reflexivity|]. eapply scan_le. exact Hd.
    + left. reflexivity.
  - intros Len ND.
    pose proof (month_loop_names _ _ _ Lp) as Nm.
    unfold handle_sheets in Hs.
    destruct (first_sheet_rename x _) as [x0|e] eqn:R; [|discriminate Hs].
    cbn [bind] in Hs. apply first_sheet_rename_ok in R. destruct R as [_ R].
    assert (L0 : length (wb x0) = length (wb x)).
    { destruct R as [[ws [key [rest [R1 [_ [_ R2]]]]]] | [_ R]].
      - rewrite R1, R2. reflexivity.
      - rewrite R. reflexivity. }
    unfold create_sheets in Hs.
    destruct (for_each _ _ (wb x0)) as [w1|e] eqn:C; [|discriminate Hs].
    cbn [bind] in Hs. apply save_excel_workbook_wb in Hs.
    destruct Hs as [Hs _]. cbn [wb set_wb] in Hs.
    apply create_loop_last in C.
    destruct C as [C | [front [month [C1 [C2 [C3 C4]]]]]].
    { exfalso. apply Len. rewrite Sv.
      apply (f_equal (@length _)) in Nm. unfold sheetnames in Nm.
      rewrite !length_map in Nm. rewrite Nm, Hs, C. exact L0. }
    assert (Hk : exists data, In (month, data) b).
    { apply (Permutation_in _ (sorted_perm str_ltb (map fst b))) in C2.
      apply in_map_iff in C2. destruct C2 as [[k data] [Ek Hin]].
      cbn [fst] in Ek. subst k. eauto. }
    destruct Hk as [data Hin].
    pose proof (sorted_perm period_ltb b) as P.
    apply (month_loop_find float) in Lp;
      [|eapply Permutation_NoDup; [|exact ND];
        apply Permutation_map; apply Permutation_sym; exact P].
    destruct Lp as [_ Lp].
    destruct (Lp month data (Permutation_in _ (Permutation_sym P) Hin))
      as [ws [ws' [A [B D]]]].
    rewrite Hs, C1 in A.
    pose proof (@find_sheet_last front (Worksheet month []) C3) as FL.
    cbn [title] in FL. rewrite FL in A.
    inversion A; subst ws. clear A FL.
    apply write_month_layout in B. destruct B as [bs [HF B]].
    rewrite month_rows_empty in B. cbn [title] in B.
    rewrite Hs, C1 in Nm. unfold sheetnames in Nm. rewrite map_app in Nm.
    apply map_eq_app in Nm. destruct Nm as [before [lst [Ew [Nb Nl]]]].
    destruct lst as [|l [|? ?]]; try discriminate Nl.
    cbn [map title] in Nl. inversion Nl as [Tl].
    assert (Nin : ~ In month (sheetnames before)).
    { unfold sheetnames. rewrite Nb. exact C3. }
    assert (El : l = ws').
    { rewrite Ew, <- Tl in D. rewrite <- Tl in Nin.
      rewrite (@find_sheet_last before l Nin) in D. congruence. }
    exists month, data, bs, before.
    assert (W : wb x' = before ++ [Worksheet month (blocks 0 bs)]).
    { rewrite Sv, Ew, El, B. reflexivity. }
    split; [exact Hin|]. split; [exact Nin|]. split.
    { apply (f_equal (@length _)) in Nb. rewrite !length_map in Nb.
      rewrite Nb, <- L0. exact C4. }
    split; [exact HF|]. split; [exact W|].
    rewrite (@latest_of_last _ _ _ W). reflexivity.
Qed.

(** Claim C3, as amended.  For a bucket with distinct keys, the sheets
    are ensured for the keys in sorted order, and [insert_data] appends
    to the sheet of every period, after its former rows and the two empty
    rows of a sheet with more than four rows, one block for every
    document of the period and nothing else.  The blocks stand in the
    order of [sorted] on the documents: by the captured date strings
    [dd.mm.yyyy], which hold no time of day, and for equal date strings
    by the records.  Of two documents whose dates differ in the two
    characters of the day only, the one with the later day has its block
    after the other. *)
Theorem C3_blocks_in_date_order :
  forall (x x' : dumper F) (data_by_month : DataParser.bucket),
    NoDup (map fst data_by_month) ->
    insert_data float x data_by_month = Ok x' ->
    exists x1,
      handle_sheets x (sorted str_ltb (map fst data_by_month)) = Ok x1
      /\ forall month data, In (month, data) data_by_month ->
           exists ws bs,
             find_sheet month (wb x1) = Some ws
             /\ Forall2 (writes float) (sorted document_ltb data) bs
             /\ find_sheet month (wb x')
                = Some (Worksheet month (month_rows ws bs))
             /\ Permutation (sorted document_ltb data) data
             /\ StronglySorted
                  (fun d1 d2 =>
                     str_ltb (fst d2) (fst d1) = false
                     /\ (fst d1 = fst d2 ->
                         list_ltb record_eqb record_ltb (snd d2) (snd d1)
                         = false))
                  (sorted document_ltb data)
             /\ forall l1 e l2 l l3 a1 b1 a2 b2 rest,
                  sorted document_ltb data = l1 ++ e :: l2 ++ l :: l3 ->
                  fst e = a1 :: b1 :: rest ->
                  fst l = a2 :: b2 :: rest ->
                  Re.is_digit a1 = true -> Re.is_digit b1 = true ->
                  Re.is_digit a2 = true -> Re.is_digit b2 = true ->
                  (10 * SyncSpec.digit a1 + SyncSpec.digit b1
                   <= 10 * SyncSpec.digit a2 + SyncSpec.digit b2)%N.
Proof.
  intros x x' b ND H. apply insert_data_parts in H.
  destruct H as [x1 [w [Hs [Lp Sv]]]].
  exists x1. split; [exact Hs|].
  apply save_excel_workbook_wb in Sv. destruct Sv as [Sv _].
  cbn [wb set_wb] in Sv. rewrite Sv.
  pose proof (sorted_perm period_ltb b) as P.
  apply (month_loop_find float) in Lp;
    [|eapply Permutation_NoDup; [|exact ND];
      apply Permutation_map; apply Permutation_sym; exact P].
  destruct Lp as [_ Lp]. intros month data Hin.
  apply (Permutation_in _ (Permutation_sym P)) in Hin.
  destruct (Lp month data Hin) as [ws [ws' [A [B C]]]].
  apply write_month_layout in B. destruct B as [bs [HF B]].
  exists ws, bs. rewrite C, B, (find_sheet_title _ _ A).
  split; [exact A|]. split; [exact HF|]. split; [reflexivity|].
  split; [apply sorted_perm|]. split; [apply sorted_documents|].
  intros l1 e l2 l l3 a1 b1 a2 b2 rest E Ee El D1 D2 D3 D4.
  pose proof (sorted_documents data) as S. rewrite E in S.
  apply StronglySorted_later in S. destruct S as [S _].
  rewrite Ee, El in S.
  pose proof (@same_month_day_order a2 b2 a1 b1 rest D3 D4 D1 D2) as O.
  apply N.le_ngt. intro Lt. apply O in Lt. congruence.
Qed.

(** Extra X5.  One turn of the document loop succeeds exactly when the
    date has no illegal character in its first 32767 characters and every
    record is a pair of a name of which the same holds and a price that
    [float] accepts.  Then it appends one block and changes nothing
    else: the date row, the header row, one row for every record in the
    order of the records, holding the name and the price as a number in
    the currency format, the summary row whose formulas range from the
    first to the last of these item rows, and two empty rows; the texts
    are cut to 32767 characters. *)
Theorem X5_block_layout : forall (ws ws' : worksheet F) date grocery,
  write_document float ws (date, grocery) = Ok ws' <->
  exists b,
    writes float (date, grocery) b
    /\ ws' = Worksheet (title ws)
               (rows ws ++ block_rows (length (rows ws)) (fst b) (snd b)).
Proof.
  intros ws ws' date grocery. split; [apply write_document_layout|].
  intros [b [Hb E]]. rewrite (write_document_back ws Hb), E. reflexivity.
Qed.





End Inserted.

Lemma X5_block_layout_witness :
  exists b,
    Reading.writes Excel.decimal_float
      (L "15.03.2024", [[L "Milk"; L "4.50"]]) b
    /\ match Excel.write_document Excel.decimal_float
               (Excel.Worksheet (L "03.2024") [])
               (L "15.03.2024", [[L "Milk"; L "4.50"]]) with
       | Ok ws' => ws'
       | Raise _ => Excel.Worksheet [] []
       end
       = Excel.Worksheet (L "03.2024")
           ([] ++ Reading.block_rows 0 (fst b) (snd b)).
Proof.
  apply (proj1 (@X5_block_layout _ Excel.decimal_float
                  (Excel.Worksheet (L "03.2024") []) _
                  (L "15.03.2024") [[L "Milk"; L "4.50"]])).
  vm_compute. reflexivity.
Defined.

Lemma C3_blocks_in_date_order_witness :
  exists ws bs,
    Forall2 (Reading.writes Excel.decimal_float)
            [(L "15.03.2024", []); (L "20.03.2024", [])] bs
    /\ Excel.find_sheet (L "03.2024")
         (Excel.wb
            (match Excel.insert_data Excel.decimal_float Samples.fresh_ledger
                     [(L "03.2024",
                       [(L "20.03.2024", []); (L "15.03.2024", [])])]
             with
             | Ok x' => x'
             | Raise _ => Samples.fresh_ledger
             end))
       = Some (Excel.Worksheet (L "03.2024") (Reading.month_rows ws bs)).
Proof.
  destruct (@C3_blocks_in_date_order _ Excel.decimal_float
              Samples.fresh_ledger
              (match Excel.insert_data Excel.decimal_float Samples.fresh_ledger
                       [(L "03.2024",
                         [(L "20.03.2024", []); (L "15.03.2024", [])])]
               with
               | Ok x' => x'
               | Raise _ => Samples.fresh_ledger
               end)
              [(L "03.2024", [(L "20.03.2024", []); (L "15.03.2024", [])])])
    as [x1 [_ Hm]].
  - repeat constructor. simpl. tauto.
  - vm_compute. reflexivity.
  - destruct (Hm (L "03.2024") [(L "20.03.2024", []); (L "15.03.2024", [])]
                 (or_introl eq_refl))
      as [ws [bs [_ [B [C _]]]]].
    exists ws, bs. split; [exact B | exact C].
Defined.

Lemma C5_cutoff_after_append_witness :
  (Excel.latest_grocery_date
     (match Excel.insert_data Excel.decimal_float Samples.march_ledger
              Samples.march_bucket with
      | Ok x' => x'
      | Raise _ => Samples.march_ledger
      end) = Raise ValueError
   \/ exists d',
        Excel.latest_grocery_date
          (match Excel.insert_data Excel.decimal_float Samples.march_ledger
                   Samples.march_bucket with
           | Ok x' => x'
           | Raise _ => Samples.march_ledger
           end) = Ok d'
        /\ dt_le (Datetime 2024 3 15 0 0 0 0) d')
  /\ exists month data bs before,
       In (month, data) Samples.january_bucket
       /\ ~ In month (Excel.sheetnames before)
       /\ length (Excel.wb Samples.two_month_ledger) <= length before
       /\ Forall2 (Reading.writes Excel.decimal_float)
                  (sorted document_ltb data) bs
       /\ Excel.wb
            (match Excel.insert_data Excel.decimal_float
                     Samples.two_month_ledger Samples.january_bucket with
             | Ok x' => x'
             | Raise _ => Samples.two_month_ledger
             end)
          = before ++ [Excel.Worksheet month (Reading.blocks 0 bs)]
       /\ Excel.latest_grocery_date
            (match Excel.insert_data Excel.decimal_float
                     Samples.two_month_ledger Samples.january_bucket with
             | Ok x' => x'
             | Raise _ => Samples.two_month_ledger
             end)
          = for_each (@Excel.scan_row _) (Reading.blocks 0 bs) Excel.epoch.
Proof.
  split.
  - apply (proj1 (@C5_cutoff_after_append _ Excel.decimal_float
                    Samples.march_ledger _ Samples.march_bucket
                    ltac:(vm_compute; reflexivity))).
    + vm_compute. reflexivity.
    + vm_compute. reflexivity.
  - apply (proj2 (@C5_cutoff_after_append _ Excel.decimal_float
                    Samples.two_month_ledger _ Samples.january_bucket
                    ltac:(vm_compute; reflexivity))).
    + vm_compute. discriminate.
    + repeat constructor. simpl. tauto.
Defined.

(** ** Documents without items *)

Section EmptyDocuments.
Import Re ReSem DataParser Reading Shapes Excel.




End EmptyDocuments.


(** With a slash after the month the key is no title of a sheet, and
    [insert_data] raises [ValueError]. *)
Example point_slash_date_refused :
  DataParser.parse_data [Samples.point_slash_doc]
    = Ok [(L "03/2024", [(L "10.03/2024", [])])]
  /\ Excel.insert_data Excel.decimal_float Samples.fresh_ledger
       [(L "03/2024", [(L "10.03/2024", [])])] = Raise ValueError.
Proof. split; vm_compute; reflexivity. Qed.

(** ** Discount blocks

    The texts that the first alternative of [RECORD_PATTERN] accepts are
    the discount blocks of the specification. *)

Section DiscountBlocks.
Import Re ReSem ReFacts FinditerFacts DataParser ParserFacts Shapes.

Lemma matches_lang : forall r c w c', matches r c w c' -> lang r w.
Proof.
  induction 1; cbn [lang]; eauto 6.
Qed.

Lemma lang_matches : forall r s,
  has_group r = false -> lang r s -> forall c, matches r c s c.
Proof.
  induction r as [|p|l|r1 IH1 r2 IH2|r1 IH1 r2 IH2|r1 IH1|p|n r1 IH1];
    cbn [lang has_group]; intros s G H c.
  - subst. constructor.
  - destruct H as [a [-> H]]. constructor. exact H.
  - subst. constructor.
  - apply orb_false_iff in G. destruct G as [G1 G2].
    destruct H as [s1 [s2 [-> [H1 H2]]]]. econstructor; eauto.
  - apply orb_false_iff in G. destruct G as [G1 G2].
    destruct H as [H | H]; [apply M_AltL | apply M_AltR]; auto.
  - destruct H as [-> | H]; [apply M_OptNone | apply M_OptSome; auto].
  - destruct H. constructor; assumption.
  - discriminate G.
Qed.

(** For a pattern without groups, the texts that it accepts. *)
Lemma accepts_lang : forall r s,
  has_group r = false -> (accepts r s <-> lang r s).
Proof.
  intros r s G. split.
  - apply matches_lang.
  - intro H. apply lang_matches; assumption.
Qed.

Lemma lang_cons : forall (p : ascii -> bool) r a s,
  p a = true -> lang r s -> lang (Cat (Cls p) r) (a :: s).
Proof.
  intros p r a s H1 H2. exists [a], s. split; [reflexivity|].
  split; [exists a; auto | exact H2].
Qed.

Lemma lang_app : forall r1 r2 s1 s2,
  lang r1 s1 -> lang r2 s2 -> lang (Cat r1 r2) (s1 ++ s2).
Proof. intros. exists s1, s2. auto. Qed.

Lemma lang_chr : forall (p : ascii -> bool) a, p a = true -> lang (Cls p) [a].
Proof. intros p a H. exists a. auto. Qed.

Ltac break :=
  repeat match goal with
         | H : exists _, _ |- _ => destruct H
         | H : _ /\ _ |- _ => destruct H
         | H : _ \/ _ |- _ => destruct H
         end; subst.

Ltac classes :=
  change (in_range (code "1") (code "9")) with Receipt.nonzero in *;
  change (in_range (code "0") (code "9")) with is_digit in *;
  change (in_range (code "A") (code "Z")) with Receipt.upper in *.

Ltac use_hyps :=
  repeat match goal with
         | H : _ = true |- _ => rewrite H
         end.

Lemma amount_lang : forall s, lang amount s <-> Receipt.is_amount s = true.
Proof.
  intro s. unfold amount, d19, d09, rng. cbn [alt cat lang]. classes. split.
  - intro H. break; cbn [app Receipt.is_amount]; use_hyps; reflexivity.
  - destruct s as [|a [|b [|c [|? ?]]]]; cbn [Receipt.is_amount]; intro H;
      try discriminate H.
    + right. right. exists a. auto.
    + apply andb_true_iff in H. destruct H as [H1 H2].
      right. left. exists [a], [b]. split; [reflexivity|]. split; eauto.
    + apply andb_true_iff in H. destruct H as [H H3].
      apply andb_true_iff in H. destruct H as [H1 H2].
      left. exists [a], [b; c]. split; [reflexivity|]. split; [eauto|].
      exists [b], [c]. split; [reflexivity|]. split; eauto.
Qed.

Lemma money_lang : forall (sepc : ascii -> bool) seps,
  (forall a, sepc a = true <-> In a seps) ->
  forall s,
    lang (Cat amount (Cat (Cls sepc) (Cat d09 d09))) s
    <-> Receipt.money seps s.
Proof.
  intros sepc seps Hs s. unfold Receipt.money.
  change (lang (Cat amount (Cat (Cls sepc) (Cat d09 d09))) s)
    with (exists s1 s2, s = s1 ++ s2 /\ lang amount s1
            /\ exists s3 s4, s2 = s3 ++ s4
                 /\ (exists a, s3 = [a] /\ sepc a = true)
                 /\ exists s5 s6, s4 = s5 ++ s6
                      /\ (exists a, s5 = [a] /\ is_digit a = true)
                      /\ (exists a, s6 = [a] /\ is_digit a = true)).
  split.
  - intro H. break.
    match goal with
    | H : lang amount ?amt |- _ => apply amount_lang in H; exists amt
    end.
    do 3 eexists. split; [reflexivity|]. rewrite <- Hs. auto.
  - intros [amt [sep [a [b [-> [A [I [D1 D2]]]]]]]].
    exists amt, [sep; a; b]. split; [reflexivity|].
    split; [apply amount_lang; exact A|].
    exists [sep], [a; b]. split; [reflexivity|].
    split; [exists sep; split; [reflexivity | apply Hs; exact I]|].
    exists [a], [b]. split; [reflexivity|]. split; eauto.
Qed.

Lemma comma_only : forall a, Ascii.eqb "," a = true <-> In a (L ",").
Proof.
  intro a. rewrite Ascii.eqb_eq. cbn. intuition.
Qed.

Lemma comma_or_point : forall a, one_of (L ",.") a = true <-> In a (L ",.").
Proof.
  intro a. unfold one_of. cbn [existsb L list_ascii_of_string In].
  rewrite !orb_true_iff, !Ascii.eqb_eq. intuition congruence.
Qed.

Lemma comma_total_lang : forall s,
  lang comma_total s <-> Receipt.money (L ",") s.
Proof. intro s. apply (money_lang (Ascii.eqb ",")). exact comma_only. Qed.

Ltac fix_seps :=
  repeat match goal with
         | H : Ascii.eqb _ _ = true |- _ => apply Ascii.eqb_eq in H; subst
         | H : one_of (L ",.") _ = true |- _ =>
             apply comma_or_point in H; destruct H as [H | [H | []]]; subst
         end.

Lemma adjusted_lang : forall s,
  lang adjusted_total s <-> Receipt.adjusted s.
Proof.
  intro s. unfold Receipt.adjusted. split.
  - unfold adjusted_total, d19, d09, rng, comma_or_dot, chr.
    cbn [alt cat lang]. classes. intro H. break; fix_seps; cbn [app];
      match goal with
      | |- Receipt.money _ [?a; ?b; ?c; ?s; ?e; ?f] \/ _ =>
          left; exists [a; b; c], s, e, f
      | |- Receipt.money _ [?a; ?b; ?s; ?e; ?f] \/ _ =>
          left; exists [a; b], s, e, f
      | |- Receipt.money _ [?a; ","%char; ?e; ?f] \/ _ =>
          left; exists [a], ","%char, e, f
      | |- Receipt.money _ [?a; "."%char; ?e; ?f] \/ _ =>
          right; exists a, e, f
      end;
      cbn [Receipt.is_amount app]; use_hyps; cbn; auto.
  - intros [H | [d [a [b [-> [D [A B]]]]]]].
    + destruct H as [amt [sep [a [b [-> [Am [I [A B]]]]]]]].
      destruct I as [<- | []].
      destruct amt as [|x [|y [|z [|? ?]]]]; cbn [Receipt.is_amount] in Am;
        try discriminate Am;
        repeat match goal with
               | H : _ && _ = true |- _ =>
                   apply andb_true_iff in H; destruct H
               end.
      * right. right. cbn [app].
        apply lang_cons; [assumption|]. apply lang_cons; [reflexivity|].
        apply lang_cons; [assumption|]. apply lang_chr. assumption.
      * right. left. cbn [app].
        apply lang_cons; [assumption|]. apply lang_cons; [assumption|].
        apply lang_cons; [reflexivity|].
        apply lang_cons; [assumption|]. apply lang_chr. assumption.
      * left. cbn [app].
        apply lang_cons; [assumption|]. apply lang_cons; [assumption|].
        apply lang_cons; [assumption|]. apply lang_cons; [reflexivity|].
        apply lang_cons; [assumption|]. apply lang_chr. assumption.
    + right. right.
      apply lang_cons; [assumption|]. apply lang_cons; [reflexivity|].
      apply lang_cons; [assumption|]. apply lang_chr. assumption.
Qed.

Lemma lang_skip : forall r0 r s, lang r s -> lang (Cat (Opt r0) r) s.
Proof.
  intros r0 r s H. exists [], s. split; [reflexivity|].
  split; [left; reflexivity | exact H].
Qed.

Lemma lang_opt_cons : forall (p : ascii -> bool) r a s,
  p a = true -> lang r s -> lang (Cat (Opt (Cls p)) r) (a :: s).
Proof.
  intros p r a s H1 H2. exists [a], s. split; [reflexivity|].
  split; [right; exists a; auto | exact H2].
Qed.

Lemma opt_class : forall (p : ascii -> bool) o,
  lang (Opt (Cls p)) o <-> length o <= 1 /\ forallb p o = true.
Proof.
  intros p o. cbn [lang]. split.
  - intros [-> | [a [-> H]]]; cbn; [auto|]. rewrite H. auto.
  - destruct o as [|a [|? ?]]; cbn [length forallb]; intros [H1 H2];
      [left; reflexivity | | lia].
    right. exists a. rewrite andb_true_r in H2. auto.
Qed.

Lemma quantity_head : forall q,
  lang (Alt (Cat d19 d09) d09) q
  <-> Receipt.is_amount q = true /\ length q <= 2.
Proof.
  intro q. unfold d19, d09, rng. cbn [lang]. classes. split.
  - intro H. break; cbn [app Receipt.is_amount length]; use_hyps; auto.
  - destruct q as [|a [|b [|? ?]]]; cbn [Receipt.is_amount length];
      intros [H1 H2]; try discriminate H1; try lia.
    + right. eauto.
    + apply andb_true_iff in H1. destruct H1.
      left. exists [a], [b]. split; [reflexivity|]. split; eauto.
Qed.

Lemma digit_not_space : forall a, is_digit a = true -> not_space a = true.
Proof. apply ascii_implies. vm_compute. reflexivity. Qed.

Lemma nonzero_not_space : forall a,
  Receipt.nonzero a = true -> not_space a = true.
Proof. apply ascii_implies. vm_compute. reflexivity. Qed.

Lemma separator_not_space : forall a,
  one_of (L ",.") a = true -> not_space a = true.
Proof. apply ascii_implies. vm_compute. reflexivity. Qed.

(** The unit price and what may follow it: a run without blanks. *)
Lemma unit_lang : forall u oc,
  lang (alt (cat [d19; d09; d09]) [Cat d19 d09; d09; Plus not_space]) u ->
  lang (Opt (Cat comma_or_dot (Cat d09 d09))) oc ->
  Receipt.run not_space (u ++ oc).
Proof.
  intros u oc Hu Ho. unfold Receipt.run.
  assert (U : u <> [] /\ forallb not_space u = true).
  { revert Hu. unfold d19, d09, rng. cbn [alt cat lang]. classes.
    intro H. break; cbn [app forallb];
      repeat match goal with
             | H : is_digit _ = true |- _ => apply digit_not_space in H
             | H : Receipt.nonzero _ = true |- _ =>
                 apply nonzero_not_space in H
             end; use_hyps; split; try discriminate; auto. }
  assert (O : forallb not_space oc = true).
  { revert Ho. unfold comma_or_dot, d09, rng. cbn [lang]. classes.
    intro H. break; cbn [app forallb]; [reflexivity|].
    repeat match goal with
           | H : is_digit _ = true |- _ => apply digit_not_space in H
           | H : one_of (L ",.") _ = true |- _ =>
               apply separator_not_space in H
           end; use_hyps; reflexivity. }
  destruct U as [U1 U2]. split.
  - intro E. apply app_eq_nil in E. tauto.
  - rewrite forallb_app, U2, O. reflexivity.
Qed.

Lemma fields_lang : forall s, lang item_fields s <-> Receipt.fields s.
Proof.
  intro s. unfold item_fields. cbn [cat]. split.
  - intro H.
    destruct H as [? [? [-> [[c1 [-> C1]] H]]]].
    destruct H as [? [? [-> [[tax [-> Tx]] H]]]].
    destruct H as [? [? [-> [[c2 [-> C2]] H]]]].
    destruct H as [q [? [-> [Hq H]]]].
    destruct H as [? [? [-> [[c3 [-> C3]] H]]]].
    destruct H as [? [? [-> [[a [-> Da]] H]]]].
    destruct H as [? [? [-> [[b [-> Db]] H]]]].
    destruct H as [? [? [-> [[c [-> Dc]] H]]]].
    destruct H as [? [? [-> [[c4 [-> C4]] H]]]].
    destruct H as [o1 [? [-> [Ho1 H]]]].
    destruct H as [o2 [? [-> [Ho2 H]]]].
    destruct H as [o3 [? [-> [Ho3 H]]]].
    destruct H as [u [? [-> [Hu H]]]].
    destruct H as [oc [? [-> [Hoc [c5 [-> C5]]]]]].
    unfold chr in *. fix_seps.
    apply quantity_head in Hq. destruct Hq as [Q1 Q2].
    apply opt_class in Ho1. destruct Ho1 as [L1 F1].
    apply opt_class in Ho2. destruct Ho2 as [L2 F2].
    pose proof (@unit_lang u oc Hu Hoc) as U.
    exists tax, (q ++ ["."%char; a; b; c]), ((o1 ++ o2) ++ o3), (u ++ oc).
    split; [repeat (first [rewrite <- app_assoc | progress cbn [app]]);
            reflexivity|].
    split; [exact Tx|]. split; [exists q, a, b, c; auto 10|].
    split; [|exact U].
    exists (o1 ++ o2), o3. split; [reflexivity|].
    rewrite length_app, forallb_app, F1, F2. split; [lia|].
    split; [reflexivity|].
    destruct Ho3 as [-> | [x [-> X]]]; [left; reflexivity|].
    apply Ascii.eqb_eq in X. subst x. right. reflexivity.
  - intros [tax [qty [mult [unit [-> [Tx [Q [M U]]]]]]]].
    destruct Q as [q [a [b [c [-> [Q1 [Q2 [Da [Db Dc]]]]]]]]].
    destruct M as [marks [blank [-> [Lm [Fm Bl]]]]].
    apply lang_cons; [reflexivity|]. apply lang_cons; [exact Tx|].
    apply lang_cons; [reflexivity|].
    rewrite <- app_assoc. apply lang_app;
      [apply quantity_head; auto|].
    cbn [app].
    apply lang_cons; [reflexivity|]. apply lang_cons; [exact Da|].
    apply lang_cons; [exact Db|]. apply lang_cons; [exact Dc|].
    apply lang_cons; [reflexivity|].
    assert (T : lang (Cat (Opt (chr " "))
                       (Cat (alt (cat [d19; d09; d09])
                                 [Cat d19 d09; d09; Plus not_space])
                            (Cat (Opt (Cat comma_or_dot (Cat d09 d09)))
                                 (chr " "))))
                     (blank ++ unit ++ [" "%char])).
    { assert (T : lang (Cat (alt (cat [d19; d09; d09])
                                 [Cat d19 d09; d09; Plus not_space])
                            (Cat (Opt (Cat comma_or_dot (Cat d09 d09)))
                                 (chr " ")))
                       (unit ++ [" "%char])).
      { apply lang_app.
        - cbn [alt]. right. right. right. exact U.
        - apply lang_skip. apply lang_chr. reflexivity. }
      destruct Bl as [-> | ->].
      - apply lang_skip. exact T.
      - cbn [app]. apply (lang_opt_cons (Ascii.eqb " ")); [reflexivity|].
        exact T. }
    rewrite <- app_assoc.
    destruct marks as [|m1 [|m2 [|? ?]]]; cbn [length] in Lm; try lia;
      cbn [forallb] in Fm; cbn [app].
    + apply lang_skip. apply lang_skip. exact T.
    + rewrite andb_true_r in Fm.
      apply lang_opt_cons; [exact Fm|]. apply lang_skip. exact T.
    + apply andb_true_iff in Fm. destruct Fm as [F1 F2].
      rewrite andb_true_r in F2.
      apply lang_opt_cons; [exact F1|].
      apply lang_opt_cons; [exact F2|]. exact T.
Qed.

Lemma page_break_lang : forall s,
  lang DataParser.page_break s <-> s = [] \/ Receipt.page_break s.
Proof.
  intro s. unfold DataParser.page_break, Receipt.page_break, Receipt.run.
  cbn [cat lang]. split.
  - intros [-> | H]; [left; reflexivity|]. right.
    destruct H as [bf [? [-> [B H]]]].
    destruct H as [? [? [-> [-> H]]]].
    destruct H as [af [sp [-> [A S]]]].
    exists bf, af, sp. auto.
  - intros [-> | [bf [af [sp [-> [B [A S]]]]]]]; [left; reflexivity|].
    right. exists bf, (L "Strona" ++ af ++ sp). split; [reflexivity|].
    split; [exact B|]. exists (L "Strona"), (af ++ sp).
    split; [reflexivity|]. split; [reflexivity|].
    exists af, sp. auto.
Qed.

Lemma rabat_lang : forall s, lang rabat_line s <-> Receipt.rabat s.
Proof.
  intro s. unfold rabat_line, rabat_sign, Receipt.rabat.
  change (cat [Lit (L "Rabat "); Opt (Cls (one_of (L "-~"))); amount;
               comma_or_dot; d09; d09])
    with (Cat (Lit (L "Rabat "))
              (Cat (Opt (Cls (one_of (L "-~"))))
                   (Cat amount (Cat comma_or_dot (Cat d09 d09))))).
  split.
  - intros [? [? [-> [Hl [sg [m [-> [Hs Hm]]]]]]]].
    cbn [lang] in Hl. subst.
    apply (@money_lang (one_of (L ",.")) (L ",.") comma_or_point) in Hm.
    exists sg, m. split; [reflexivity|]. split; [|exact Hm].
    destruct Hs as [-> | [a [-> Ha]]]; [left; reflexivity|].
    right. unfold one_of in Ha. cbn [existsb L list_ascii_of_string] in Ha.
    rewrite !orb_true_iff, !Ascii.eqb_eq in Ha.
    destruct Ha as [-> | [-> | Ha]];
      [left; reflexivity | right; reflexivity | discriminate Ha].
  - intros [sg [m [-> [Hs Hm]]]].
    apply (@money_lang (one_of (L ",.")) (L ",.") comma_or_point) in Hm.
    exists (L "Rabat "), (sg ++ m). split; [reflexivity|].
    split; [reflexivity|]. exists sg, m. split; [reflexivity|].
    split; [|exact Hm].
    destruct Hs as [-> | [-> | ->]];
      [left; reflexivity | right; exists "-"%char; auto
       | right; exists "~"%char; auto].
Qed.

(** The texts of the first alternative are the discount blocks. *)
Lemma discount_block_lang : forall name adj w,
  Reading.discounted_text name adj w <-> Receipt.discount_block name adj w.
Proof.
  intros name adj w. unfold Reading.discounted_text, Receipt.discount_block.
  split; intros [f [t [s1 [pb [r [s2 H]]]]]];
    destruct H as [E [A1 [A2 [A3 [A4 [A5 [A6 [A7 A8]]]]]]]];
    exists f, t, s1, pb, r, s2; split; try exact E.
  - apply accepts_lang in A1, A2, A3, A4, A5, A6, A7, A8; try reflexivity.
    split; [exact A1|]. split; [apply fields_lang; exact A2|].
    split; [apply comma_total_lang; exact A3|]. split; [exact A4|].
    split; [apply page_break_lang; exact A5|].
    split; [apply rabat_lang; exact A6|]. split; [exact A7|].
    apply adjusted_lang. exact A8.
  - apply fields_lang in A2. apply comma_total_lang in A3.
    apply page_break_lang in A5. apply rabat_lang in A6.
    apply adjusted_lang in A8.
    repeat split; apply accepts_lang; auto.
Qed.

(** A text accepted part by part is a text that the first alternative
    can consume, with the name and the adjusted total as its groups. *)
Lemma discounted_text_matches : forall name adj w,
  Reading.discounted_text name adj w ->
  matches discounted [] w [(2, adj); (1, name)].
Proof.
  intros name adj w [fields [total [sep1 [pb [rabat [sep2 H]]]]]].
  destruct H as [E [A1 [A2 [A3 [A4 [A5 [A6 [A7 A8]]]]]]]]. subst w.
  unfold discounted. cbn [cat].
  apply M_Cat with (c1 := [(1, name)]); [apply M_Grp; exact A1|].
  apply M_Cat with (c1 := [(1, name)]);
    [apply (matches_accepts A2 eq_refl)|].
  apply M_Cat with (c1 := [(1, name)]);
    [apply (matches_accepts A3 eq_refl)|].
  apply M_Cat with (c1 := [(1, name)]);
    [apply (matches_accepts A4 eq_refl)|].
  apply M_Cat with (c1 := [(1, name)]);
    [apply (matches_accepts A5 eq_refl)|].
  apply M_Cat with (c1 := [(1, name)]);
    [apply (matches_accepts A6 eq_refl)|].
  apply M_Cat with (c1 := [(1, name)]);
    [apply (matches_accepts A7 eq_refl)|].
  apply M_Grp. apply (matches_accepts A8 eq_refl).
Qed.

Lemma matches_discount_block : forall w c,
  matches discounted [] w c ->
  exists name adj,
    c = [(2, adj); (1, name)] /\ Receipt.discount_block name adj w.
Proof.
  intros w c M. apply discounted_shape in M.
  destruct M as [name [fields [total [sep1 [pb [rabat [sep2 [adj M]]]]]]]].
  destruct M as [E [Ec A]]. exists name, adj. split; [exact Ec|].
  apply discount_block_lang.
  exists fields, total, sep1, pb, rabat, sep2. auto.
Qed.

(** Where a text begins with a discount block, the first alternative
    matches. *)
Lemma discount_block_recognised : forall name adj w rest,
  Receipt.discount_block name adj w ->
  match_here discounted (w ++ rest) <> None.
Proof.
  intros name adj w rest H. eapply match_here_complete.
  apply discounted_text_matches. apply discount_block_lang. exact H.
Qed.

(** Claim C1, as amended.  The extractor returns for every text.  At
    every position where it starts a match and the text from there begins
    with a discount block -- an item line with a line total written with
    a comma, a separator, at most one page-break line with text on both
    sides of the word Strona, the discount line, a separator, the adjusted
    total -- the match is a discount block that begins there, and the
    record is the name of that block and, as its price, the adjusted total
    of that block with the comma replaced by a point.  A text that begins
    with a discount block gives such a record as its first record. *)
Theorem C1_discounted_price_is_adjusted_total : forall doc,
  exists recs,
    doc_records doc = Ok recs
    /\ Forall2
         (fun mt rec =>
            forall name adj w rest,
              skipn (m_start mt) doc = w ++ rest ->
              Receipt.discount_block name adj w ->
              exists name' adj' rest',
                skipn (m_start mt) doc = span doc mt ++ rest'
                /\ Receipt.discount_block name' adj' (span doc mt)
                /\ rec = [name'; replace (L ",") (L ".") adj'])
         (finditer RECORD_PATTERN doc) recs
    /\ forall name adj w rest,
         doc = w ++ rest ->
         Receipt.discount_block name adj w ->
         exists mt ms rec recs' name' adj',
           finditer RECORD_PATTERN doc = mt :: ms
           /\ m_start mt = 0
           /\ recs = rec :: recs'
           /\ Receipt.discount_block name' adj' (span doc mt)
           /\ rec = [name'; replace (L ",") (L ".") adj'].
Proof.
  intro doc. destruct (doc_records_total doc) as [recs [E [_ HF]]].
  exists recs. split; [exact E|].
  assert (P : Forall2
                (fun mt rec =>
                   forall name adj w rest,
                     skipn (m_start mt) doc = w ++ rest ->
                     Receipt.discount_block name adj w ->
                     exists name' adj' rest',
                       skipn (m_start mt) doc = span doc mt ++ rest'
                       /\ Receipt.discount_block name' adj' (span doc mt)
                       /\ rec = [name'; replace (L ",") (L ".") adj'])
                (finditer RECORD_PATTERN doc) recs).
  { eapply Forall2_in_l; [exact HF|].
    intros mt rec Hin Hrec name adj w rest Hs Hb.
    destruct (@finditer_match _ doc mt RECORD_PATTERN_not_nullable Hin)
      as [rest' [Hm [Hs' _]]].
    pose proof (@discount_block_recognised name adj w rest Hb) as R.
    rewrite <- Hs in R.
    destruct (match_here discounted (skipn (m_start mt) doc))
      as [[rest'' c]|] eqn:D; [|congruence].
    pose proof (discounted_first _ D) as D'. rewrite Hm in D'.
    inversion D'; subst rest'' c. clear D'.
    destruct (match_here_sound _ _ D) as [w' [Ew M]].
    assert (w' = span doc mt) as ->.
    { rewrite Hs' in Ew. apply app_inv_tail in Ew. congruence. }
    apply matches_discount_block in M.
    destruct M as [name' [adj' [Ec B]]].
    exists name', adj', rest'. split; [exact Hs'|]. split; [exact B|].
    unfold non_none_groups in Hrec. rewrite Ec in Hrec.
    cbn [flat_map group Nat.eqb app normalize_price] in Hrec.
    inversion Hrec. reflexivity. }
  split; [exact P|].
  intros name adj w rest Hd Hb.
  pose proof (@discount_block_recognised name adj w rest Hb) as R.
  rewrite <- Hd in R.
  destruct (match_here discounted doc) as [[rest0 c]|] eqn:D; [|congruence].
  pose proof (discounted_first _ D) as D'.
  assert (Fi : exists mt ms,
                 finditer RECORD_PATTERN doc = mt :: ms /\ m_start mt = 0).
  { unfold finditer. destruct doc as [|a doc'].
    - cbn [finditer_from]. rewrite D'. eauto.
    - rewrite finditer_from_cons, D'. eauto. }
  destruct Fi as [mt [ms [Fi St]]]. rewrite Fi in P.
  destruct recs as [|rec recs']; [inversion P|].
  apply Forall2_cons_iff in P. destruct P as [Hp _].
  destruct (Hp name adj w rest) as [name' [adj' [rest' [_ [B Er]]]]].
  - rewrite St. exact Hd.
  - exact Hb.
  - exists mt, ms, rec, recs', name', adj'. auto.
Qed.

(** The block of [page_break_doc], part by part. *)
Lemma page_break_doc_block :
  Receipt.discount_block (L "Milk") (L "3,50") Samples.page_break_doc.
Proof.
  exists (L " A 1.000 x 4,50 "), (L "4,50"), Samples.nl,
         (L "-- Strona 1 z 2 --" ++ Samples.nl), (L "Rabat -1,00"),
         Samples.nl.
  split; [reflexivity|]. split; [split; [discriminate | reflexivity]|].
  split.
  { exists "A"%char, (L "1.000"), (L "x "), (L "4,50").
    split; [reflexivity|]. split; [reflexivity|]. split.
    - exists (L "1"), "0"%char, "0"%char, "0"%char.
      repeat split; try reflexivity. cbn. lia.
    - split.
      + exists (L "x"), (L " "). repeat split; try reflexivity.
        * cbn. lia.
        * right. reflexivity.
      + split; [discriminate | reflexivity]. }
  split.
  { exists (L "4"), ","%char, "5"%char, "0"%char.
    repeat split; try reflexivity. left. reflexivity. }
  split; [split; [discriminate | reflexivity]|].
  split.
  { right. exists (L "-- "), (L " 1 z 2 --"), Samples.nl.
    repeat split; try reflexivity; discriminate. }
  split.
  { exists (L "-"), (L "1,00"). split; [reflexivity|].
    split; [right; left; reflexivity|].
    exists (L "1"), ","%char, "0"%char, "0"%char.
    repeat split; try reflexivity. left. reflexivity. }
  split; [split; [discriminate | reflexivity]|].
  left. exists (L "3"), ","%char, "5"%char, "0"%char.
  repeat split; try reflexivity. left. reflexivity.
Qed.

Lemma C1_discounted_price_is_adjusted_total_witness :
  exists recs mt ms rec recs' name' adj',
    doc_records Samples.page_break_doc = Ok recs
    /\ finditer RECORD_PATTERN Samples.page_break_doc = mt :: ms
    /\ m_start mt = 0
    /\ recs = rec :: recs'
    /\ Receipt.discount_block name' adj' (span Samples.page_break_doc mt)
    /\ rec = [name'; replace (L ",") (L ".") adj'].
Proof.
  destruct (C1_discounted_price_is_adjusted_total Samples.page_break_doc)
    as [recs [E [_ H]]].
  destruct (H (L "Milk") (L "3,50") Samples.page_break_doc []
              (eq_sym (app_nil_r _)) page_break_doc_block)
    as [mt [ms [rec [recs' [name' [adj' H']]]]]].
  exists recs, mt, ms, rec, recs', name', adj'. tauto.
Defined.

End DiscountBlocks.
